(** * Context values: entry resolution, verified against the TypeScript sources

    The development embeds the resolution code of the context-values
    library: the single-valued definer [cxSingle], the dynamic definer
    [cxDynamic], constant assets ([cxConstAsset]), the iterative seeder of
    the key-based API ([IterativeContextSeeder], [iterativeSeed]) and the
    updatable single-value key ([SingleContextUpKey.grow]).

    JavaScript objects compared by identity (entries, keys, provider
    functions, supplies, failure reasons) are references [Ref]; a closure
    over mutable variables is the record of those variables; a function
    that can throw runs in the monad [M], which keeps the state reached
    when the exception left. *)

From Stdlib Require Import ZArith String.
From stdpp Require Import base list.

Local Open Scope nat_scope.

(** ** JavaScript values and effects *)

Module Js.

(** Identity of a JavaScript object (compared with [===]). *)
Definition Ref := nat.

(** A value of type [T | null | undefined]. *)
Inductive Nullable (A : Type) : Type :=
| undefined
| null
| present (a : A).
Arguments undefined {A}.
Arguments null {A}.
Arguments present {A} a.

(** [value != null], also [isPresent(value)]. *)
Definition isPresent {A} (value : Nullable A) : bool :=
  match value with
  | present _ => true
  | _ => false
  end.

(** [class CxReferenceError extends ReferenceError] (part_001): the
    constructor stores the entry and the reason; [message = None] stands
    for the default text, which is built from the entry. *)
Module CxReferenceError.
Record t : Type := new {
  entry : Ref;
  message : option string;
  reason : option Ref
}.
End CxReferenceError.

(** What a [throw] carries. *)
Inductive Thrown : Type :=
| TypeError
| ReferenceError (e : CxReferenceError.t)
| ContextKeyError (key : Ref).

Inductive Res (A : Type) : Type :=
| Ok (a : A)
| Throw (t : Thrown).
Arguments Ok {A} a.
Arguments Throw {A} t.

(** A computation over the mutable state [W] that returns or throws. *)
Definition M (W A : Type) : Type := W -> Res A * W.

Definition ret {W A} (a : A) : M W A := fun w => (Ok a, w).

Definition throw {W A} (t : Thrown) : M W A := fun w => (Throw t, w).

Definition bind {W A B} (c : M W A) (k : A -> M W B) : M W B :=
  fun w =>
    match c w with
    | (Ok a, w') => k a w'
    | (Throw t, w') => (Throw t, w')
    end.

Definition modify {W} (f : W -> W) : M W unit := fun w => (Ok tt, f w).

Definition read {W A} (f : W -> A) : M W A := fun w => (Ok (f w), w).

(** A property of the state that a computation keeps, whether it returns
    or throws. *)
Definition preserves {W A} (P : W -> Prop) (c : M W A) : Prop :=
  forall w, P w -> P (snd (c w)).

End Js.

Export Js.

Declare Scope js_scope.
Delimit Scope js_scope with js.
Notation "x <~ c ;; k" := (bind c (fun x => k))
  (at level 100, c at next level, right associativity) : js_scope.
Notation "c ;;; k" := (bind c (fun _ => k))
  (at level 100, right associativity) : js_scope.

(** ** The iterative seeder of the key-based API (iterative-context-key.ts) *)

Module Iterative.

Section Seeder.

Context {Ctx Src : Type}.

(** The function object behind a provider reference: a
    [ContextValueProvider<Ctx, Src>] is called with the context and returns
    a source value, [null] or [undefined]. *)
Variable providerFn : Ref -> Ctx -> Nullable Src.

(** [IterativeContextSeeder]: its only field is [_providers]. *)
Record IterativeContextSeeder : Type := newSeeder {
  _providers : list Ref
}.

(** [Array.prototype.indexOf]: the first index holding [x], or [-1]. *)
Fixpoint indexOf (x : Ref) (l : list Ref) : Z :=
  match l with
  | [] => (-1)%Z
  | y :: l' =>
      if decide (y = x) then 0%Z
      else let i := indexOf x l' in
           if (i <? 0)%Z then (-1)%Z else (i + 1)%Z
  end.

(** [array.splice(found, 1)] for [found >= 0]: the element at [found] goes,
    out of range nothing does. *)
Definition splice1 (found : Z) (l : list Ref) : list Ref :=
  delete (Z.to_nat found) l.

(** The closure [provide] returns: it captures [provider] (and [this]). *)
Record Remover : Type := newRemover {
  captured : Ref
}.

(** [provide(provider)]: pushes the provider and returns the remover. *)
Definition provide (provider : Ref) (this : IterativeContextSeeder)
  : Remover * IterativeContextSeeder :=
  (newRemover provider, newSeeder (_providers this ++ [provider])).

(** Calling the remover:
    [found = indexOf(provider); if (found >= 0) splice(found, 1)]. *)
Definition remove (r : Remover) (this : IterativeContextSeeder)
  : IterativeContextSeeder :=
  let found := indexOf (captured r) (_providers this) in
  if (0 <=? found)%Z then newSeeder (splice1 found (_providers this))
  else this.

(** [SourceEntry]: the tuple [[provider, source?]]; its length is 2 once the
    source is cached. *)
Definition SourceEntry : Type := Ref * option (Nullable Src).

(** [providers.map(provider => [provider])]: the array behind the seed. *)
Definition iterativeSeed (providers : list Ref) : list SourceEntry :=
  map (fun provider => (provider, None)) providers.

(** State of one seed: its entries and the log of provider calls. *)
Record Seed : Type := newSeed {
  entries : list SourceEntry;
  calls : list Ref
}.

(** The [map] callback on one entry: a cached source is returned, otherwise
    the provider is called and the source pushed onto the entry. *)
Definition entrySource (context : Ctx) (e : SourceEntry) (log : list Ref)
  : Nullable Src * SourceEntry * list Ref :=
  match e with
  | (provider, Some source) => (source, e, log)
  | (provider, None) =>
      let source := providerFn provider context in
      (source, (provider, Some source), log ++ [provider])
  end.

(** One pass of a consumer over the lazy iterable
    [.map(...).filter(isPresent)], pulling until it has [demand] elements
    or the entries are exhausted. Entries behind the last one pulled are
    not touched. *)
Fixpoint pull (context : Ctx) (demand : nat) (es : list SourceEntry)
  (log : list Ref) : list Src * list SourceEntry * list Ref :=
  match demand, es with
  | O, _ => ([], es, log)
  | _, [] => ([], [], log)
  | S d, e :: es' =>
      let '(source, e', log') := entrySource context e log in
      match source with
      | present v =>
          let '(vs, es'', log'') := pull context d es' log' in
          (v :: vs, e' :: es'', log'')
      | _ =>
          let '(vs, es'', log'') := pull context demand es' log' in
          (vs, e' :: es'', log'')
      end
  end.

(** A consumer that takes at most [demand] sources from the seed. *)
Definition iterate (context : Ctx) (demand : nat) (s : Seed)
  : list Src * Seed :=
  let '(vs, es, log) := pull context demand (entries s) (calls s) in
  (vs, newSeed es log).

(** A [for ... of] over the whole seed. *)
Definition iterateAll (context : Ctx) (s : Seed) : list Src * Seed :=
  iterate context (S (length (entries s))) s.

(** Successive consumers of one seed, each with its demand. *)
Fixpoint consumers (context : Ctx) (demands : list nat) (s : Seed)
  : list (list Src) * Seed :=
  match demands with
  | [] => ([], s)
  | d :: ds =>
      let '(vs, s') := iterate context d s in
      let '(vss, s'') := consumers context ds s' in
      (vs :: vss, s'')
  end.

(** The sources a fresh seed holds, had every provider been called. *)
Definition presentSources (context : Ctx) (providers : list Ref) : list Src :=
  omap (fun provider =>
          match providerFn provider context with
          | present v => Some v
          | _ => None
          end) providers.

(** The entries of providers that were all called. *)
Definition cachedEntries (context : Ctx) (providers : list Ref)
  : list SourceEntry :=
  map (fun provider => (provider, Some (providerFn provider context)))
      providers.

(** A seed whose first [n] providers were called, in their order, and no
    other. *)
Definition seedAfter (context : Ctx) (providers : list Ref) (n : nat) : Seed :=
  newSeed (cachedEntries context (take n providers)
           ++ iterativeSeed (drop n providers))
          (take n providers).

End Seeder.

End Iterative.

(** ** Assets and definition targets (core/asset.ts, part_004) *)

Module Asset.

(** [CxAsset.Collector<TAsset>]: called with one asset, it may change what
    it closes over (the state [S]) and returns [void] ([None]) or a boolean;
    [false] asks to stop. *)
Definition Collector (A S : Type) : Type := A -> S -> option bool * S.

(** The method [each] (asset.ts, line 39), later [placeAsset]: called with
    the target (identified by its entry) and a collector. *)
Definition Placer (A : Type) : Type :=
  Ref -> forall S : Type, Collector A S -> S -> S.

(** [interface CxAsset]: target entry, optional supply and the placement
    method. *)
Record CxAsset (A : Type) : Type := newCxAsset {
  entry : Ref;
  placeAsset : Placer A;
  supply : option Ref
}.
Arguments newCxAsset {A} entry placeAsset supply.
Arguments entry {A} c.
Arguments placeAsset {A} c.
Arguments supply {A} c.

(** [function CxAsset$provideNone(_target, _collector): void {}]. *)
Definition CxAsset_provideNone {A} : Placer A :=
  fun _target S _collector s => s.

(** [cxConstAsset(entry, value, supply)] (asset.ts, lines 189-201):
    [placeAsset] is [(_target, collector) => collector(value)] when
    [value != null], and [CxAsset$provideNone] otherwise. *)
Definition cxConstAsset {A} (entry : Ref) (value : Nullable A)
  (supply : option Ref) : CxAsset A :=
  newCxAsset entry
    match value with
    | present v => fun _target S collector s => snd (collector v s)
    | _ => CxAsset_provideNone
    end
    supply.

(** [CxAsset.Evaluator<TAsset>]: a function object that evaluates to an
    asset, [null] or [undefined]. *)
Record Evaluator (V : Type) : Type := newEvaluator {
  evaluatorRef : Ref;
  evaluate : Nullable V
}.
Arguments newEvaluator {V} evaluatorRef evaluate.
Arguments evaluatorRef {V} e.
Arguments evaluate {V} e.

(** An asset that places one evaluator. *)
Definition evaluatorAsset {V} (entry : Ref) (e : Evaluator V)
  : CxAsset (Evaluator V) :=
  cxConstAsset entry (present e) None.

(** [CxEntry.Target]: the entry to define and the assets provided for it,
    in the order they were provided. *)
Record Target (A : Type) : Type := newTarget {
  targetEntry : Ref;
  assets : list (CxAsset A)
}.
Arguments newTarget {A} targetEntry assets.
Arguments targetEntry {A} t.
Arguments assets {A} t.

(** A callback that remembers, in a flag beside its state, whether it has
    answered [false], and is not called again once it has. *)
Definition guarded {A S} (callback : Collector A S) : Collector A (S * bool) :=
  fun a st =>
    if snd st then
      let '(r, s') := callback a (fst st) in
      (r, (s', match r with Some false => false | _ => true end))
    else (Some false, st).

(** Modelled from the spec: [Target.eachAsset(callback)] is declared
    (part_004, lines 66-74) and implemented outside the files at hand. It
    "iterates over value assets in the same order they are provided" and
    passes each to the callback "until the latter returns [false] or there
    are no more assets": each provided asset places its assets through the
    guarded callback. *)
Definition eachAsset {A S} (target : Target A) (callback : Collector A S)
  (s : S) : S :=
  fst (fold_left
         (fun (acc : S * bool) (asset : CxAsset A) =>
            if snd acc then
              placeAsset asset (targetEntry target) (S * bool)%type
                (guarded callback) acc
            else acc)
         (assets target) (s, true)).

End Asset.

(** ** The single-valued definer (part_000) and entry definitions (part_004) *)

Module Single.

Import Asset.

Section Definer.

Context {V : Type}.

(** Calls of user code a scope has made. *)
Inductive Call : Type :=
| callEvaluator (ref : Ref)
| callByDefault.

(** What one context holds for one entry: the two caches behind
    [lazyValue] and the calls made so far. *)
Record Scope : Type := newScope {
  getCache : option (Nullable V);
  defaultCache : option (Nullable V);
  calls : list Call
}.

Definition freshScope : Scope := newScope None None [].

(** [getAsset()]: the call is logged and the evaluated asset returned. *)
Definition invoke (getAsset : Evaluator V) : M Scope (Nullable V) :=
  fun w =>
    (Ok (evaluate getAsset),
     newScope (getCache w) (defaultCache w)
              (calls w ++ [callEvaluator (evaluatorRef getAsset)])).

(** [lazyValue(provider)] of @proc7ts/primitives: the first call runs the
    provider and keeps its result, later calls return it. A provider that
    throws leaves nothing cached. *)
Definition lazyValue {A} (cache : Scope -> option A)
  (store : A -> Scope -> Scope) (provider : M Scope A) : M Scope A :=
  fun w =>
    match cache w with
    | Some v => (Ok v, w)
    | None =>
        match provider w with
        | (Ok v, w') => (Ok v, store v w')
        | (Throw t, w') => (Throw t, w')
        end
    end.

(** [target.eachAsset(getAsset => { assets.push(getAsset); })]. *)
Definition collectAssets (target : Target (Evaluator V))
  : list (Evaluator V) :=
  eachAsset target (fun getAsset assets => (None, assets ++ [getAsset])) [].

(** The loop [for (let i = assets.length - 1; i >= 0; --i)], with
    [n = i + 1]: [value = assets[i]()] and [break] when [value != null]. *)
Fixpoint lastPresent (assets : list (Evaluator V)) (n : nat)
  (value : Nullable V) : M Scope (Nullable V) :=
  match n with
  | O => ret value
  | S i =>
      match assets !! i with
      | Some getAsset =>
          (value <~ invoke getAsset ;;
           if isPresent value then ret value
           else lastPresent assets i value)%js
      | None => throw TypeError
      end
  end.

(** The provider given to [lazyValue] for [get]. *)
Definition evaluateSingle (target : Target (Evaluator V))
  : M Scope (Nullable V) :=
  let assets := collectAssets target in
  lastPresent assets (length assets) undefined.

(** [CxEntry.Definition<TValue>] (part_004, lines 109-133): both methods
    are optional. *)
Record CxEntryDefinition : Type := newDefinition {
  get : option (M Scope (Nullable V));
  getDefault : option (M Scope (Nullable V))
}.

(** A method of the definition that may be missing: [definition.get?.()]. *)
Definition callOptional (method : option (M Scope (Nullable V)))
  : M Scope (Nullable V) :=
  match method with
  | Some f => f
  | None => ret undefined
  end.

(** [byDefault(target)]: the call is logged and the result returned. *)
Definition callDefault (result : Nullable V) : M Scope (Nullable V) :=
  fun w =>
    (Ok result,
     newScope (getCache w) (defaultCache w) (calls w ++ [callByDefault])).

(** [cxSingle({ byDefault })] applied to a target: [byDefault] is the value
    the user's function returns, when one is given. *)
Definition cxSingle (byDefault : option (Nullable V))
  (target : Target (Evaluator V)) : CxEntryDefinition :=
  newDefinition
    (Some (lazyValue getCache
             (fun v w => newScope (Some v) (defaultCache w) (calls w))
             (evaluateSingle target)))
    (match byDefault with
     | Some result =>
         Some (lazyValue defaultCache
                 (fun v w => newScope (getCache w) (Some v) (calls w))
                 (callDefault result))
     | None => None
     end).

(** The scope after more calls. *)
Definition logCalls (cs : list Call) (w : Scope) : Scope :=
  newScope (getCache w) (defaultCache w) (calls w ++ cs).

(** The calls of the evaluators of a list, in its order. *)
Definition evaluatorCalls (l : list (Evaluator V)) : list Call :=
  map (fun e => callEvaluator (evaluatorRef e)) l.

(** An evaluator that returns [null] or [undefined]. *)
Definition unavailable (e : Evaluator V) : Prop :=
  isPresent (evaluate e) = false.

End Definer.

Arguments Scope V : clear implicits.
Arguments CxEntryDefinition V : clear implicits.

End Single.

(** ** The values accessor (core/values.ts) *)

Module Values.

Import Single.

Section Accessor.

Context {V : Type}.

(** [CxRequest<TValue>]: the fallback [or]; a request without one reads as
    [undefined]. *)
Record CxRequest : Type := newCxRequest {
  or : Nullable V
}.

(** Modelled from the spec: [CxValues.Accessor.get] is only declared in
    values.ts (lines 44-70); its body is outside the files at hand. The
    order is the one of section 4.7: the definition's [get()], then the
    fallback, then [getDefault()], then the failure with a
    [CxReferenceError] for the entry. What counts as a fallback is taken
    from the comments of the declarations under src: the default is tried
    when there is "no fallback provided" (part_004, lines 126-127) and the
    failure is for a fallback "not provided" (values.ts, line 66), so a
    request whose fallback is [null] yields [null], under the overload
    that returns [TValue | null], and does not reach [getDefault()]. The
    two overloads are one function. *)
Definition get (entry : Ref) (definition : CxEntryDefinition V)
  (request : CxRequest) : M (Scope V) (Nullable V) :=
  (value <~ callOptional (Single.get definition) ;;
   if isPresent value then ret value
   else
     match or request with
     | undefined =>
         defaultValue <~ callOptional (getDefault definition) ;;
         if isPresent defaultValue then ret defaultValue
         else throw (ReferenceError (CxReferenceError.new entry None None))
     | fallback => ret fallback
     end)%js.


End Accessor.

Arguments CxRequest V : clear implicits.

End Values.

(** ** The modifier: providing and revoking assets *)

Module Modifier.

Import Asset.

Section Registry.

Context {A : Type}.

(** One provided asset with the supply that revokes it. *)
Record Provision : Type := newProvision {
  provisionSupply : Ref;
  provisionAsset : CxAsset A
}.

(** What a modifier holds: the provided assets in the order they were
    provided, and the next unused supply identity. *)
Record Registry : Type := newRegistry {
  bucket : list Provision;
  nextSupply : Ref
}.

Definition emptyRegistry : Registry := newRegistry [] 0.

(** The identity of a [new Supply()]: one that no provision of the bucket
    has and that is not below the next unused one. *)
Definition freshSupply (m : Registry) : Ref :=
  fold_right Nat.max (nextSupply m)
    (map (fun p => S (provisionSupply p)) (bucket m)).

(** Modelled from the spec: [CxValues.Modifier.provide] is only declared
    (values.ts, lines 25-39). Section 4.6: [provide(asset)] "appends the
    asset to a per-entry ordered bucket, returns a lifecycle token". The
    supply returned is the asset's own when it has one and a new one
    otherwise (asset.ts, lines 21-28). A new supply differs from every
    supply seen so far, and no later one is given the identity of a supply
    an asset brought. *)
Definition provide (asset : CxAsset A) (m : Registry) : Ref * Registry :=
  match supply asset with
  | Some s =>
      (s, newRegistry (bucket m ++ [newProvision s asset])
                      (Nat.max (nextSupply m) (S s)))
  | None =>
      let s := freshSupply m in
      (s, newRegistry (bucket m ++ [newProvision s asset]) (S s))
  end.

(** Modelled from the spec: cutting off the supply [provide] returned;
    the supply belongs to @proc7ts/supply and the removal to the modifier,
    both outside the files at hand. Section 4.6: "terminating that token
    removes the asset from the bucket"; the others stay in their order. *)
Definition off (s : Ref) (m : Registry) : Registry :=
  newRegistry
    (filter (fun p => provisionSupply p <> s) (bucket m))
    (nextSupply m).

(** Modelled from the spec: the definition target the modifier builds for
    an entry, outside the files at hand; it holds the assets provided for
    that entry (the bucket is "keyed by target Entry", section 3). *)
Definition target (e : Ref) (m : Registry) : Target A :=
  newTarget e
    (map provisionAsset
       (filter (fun p => entry (provisionAsset p) = e) (bucket m))).

End Registry.

Arguments Registry A : clear implicits.
Arguments Provision A : clear implicits.

Section Evaluators.

Context {V : Type}.

(** Assets of one evaluator each, provided one after the other. *)
Fixpoint provideAll (entry : Ref) (es : list (Evaluator V))
  (m : Registry (Evaluator V)) : Registry (Evaluator V) :=
  match es with
  | [] => m
  | e :: es' => provideAll entry es' (snd (provide (evaluatorAsset entry e) m))
  end.

Definition registered (entry : Ref) (es : list (Evaluator V))
  : Registry (Evaluator V) :=
  provideAll entry es emptyRegistry.

(** The provisions [provideAll] adds when the next supply is [n]. *)
Fixpoint supplied (entry : Ref) (n : Ref) (es : list (Evaluator V))
  : list (Provision (Evaluator V)) :=
  match es with
  | [] => []
  | e :: es' =>
      newProvision n (evaluatorAsset entry e) :: supplied entry (S n) es'
  end.

End Evaluators.

End Modifier.

(** ** The dynamic definer (entries/dynamic.entry.ts) *)

Module Dynamic.

Import Asset.

(** Modelled from the spec: the enumeration [CxRequestMethod] is declared
    outside the files at hand. Section 4.4 names the two members the
    definer assigns: [Assets], a value derived from at least one asset, and
    [Defaults], a value derived from the default path. *)
Inductive CxRequestMethod : Type :=
| Defaults
| Assets.

(** Modelled from the spec: [CxAsset.Provided] as the receiver of
    [trackAssetList] gets it, declared outside the files at hand: each
    provided asset "tagged with its rank and its own lifecycle token"
    (section 4.5). *)
Record Provided (A : Type) : Type := newProvided {
  providedAsset : CxAsset A;
  providedSupply : Ref;
  rank : nat
}.
Arguments newProvided {A} providedAsset providedSupply rank.
Arguments providedAsset {A} p.
Arguments providedSupply {A} p.
Arguments rank {A} p.

(** Modelled from the spec: [provided.eachAsset(callback)], declared
    outside the files at hand, passes the assets the provided asset places
    to the callback. *)
Definition Provided_eachAsset {A S} (target : Ref) (provided : Provided A)
  (callback : Collector A S) (s : S) : S :=
  placeAsset (providedAsset provided) target S callback s.

(** The value accessor [access(get, target)] returns, as far as it uses the
    state accessor [get] it was given: it returns a value ([yield]) or calls
    [get()] and goes on with the state ([ask]). *)
Inductive Getter (TState TValue : Type) : Type :=
| yield (value : TValue)
| ask (next : TState -> Getter TState TValue).
Arguments yield {TState TValue} value.
Arguments ask {TState TValue} next.

Section Definer.

Context {TAsset TState TValue : Type}.

(** The variables of the definer's closure as the target finds them.
    [byDefault] is the state the user's function returns. [create] is the
    option given to [cxDynamic] only on the first target of a definer:
    line 108 assigns the variable, which all targets of the definer share,
    so that every later target finds [createAfter]. *)
Variable create : option (list TAsset -> TState).
Variable byDefault : option TState.
Variable access : option (Getter TState TValue).

(** [cxRecent$access], the default of [access], is imported from
    [./recent.impl], outside the files at hand: a parameter. *)
Variable cxRecent_access : Getter TState TValue.

(** The cast [as unknown as TState] of an assets array. *)
Variable asState : list TAsset -> TState.

(** The numbers behind [CxRequestMethod], for the test [method > 0]. *)
Variable methodValue : CxRequestMethod -> Z.

(** [target.entry]. *)
Variable entry : Ref.

(** The functions the variables [getDefaultState] and [getState] can hold. *)
Inductive StateGetter : Type :=
| lazyByDefault (result : TState)          (* target.lazy(byDefault) *)
| dynamicByDefault                          (* cxDynamic$byDefault *)
| constState (state : TState)               (* () => state *)
| unavailableState (reason : option Ref).   (* cxUnavailable(...) *)

(** The functions [getDefaultValue] and [getValue] can hold. *)
Inductive ValueGetter : Type :=
| accessDefaultState           (* access(() => getDefaultState(), target) *)
| accessState                  (* access(() => getState(), target) *)
| unavailableValue (reason : option Ref).   (* cxUnavailable(...) *)

(** The functions [getAssign] can hold. *)
Inductive AssignGetter : Type :=
| lazyAssign                   (* target.lazy(target => { ... }) *)
| unavailableAssign (reason : option Ref).  (* cxUnavailable(...) *)

(** The two functions the lazy initializer of [getAssign] returns. *)
Inductive Assigning : Type :=
| assignWithDefault
| assignWithoutDefault.

(** The variables of the closure [target => { ... }]. [getState] is
    declared without a value. *)
Record Closure : Type := newClosure {
  getDefaultState : StateGetter;
  getState : option StateGetter;
  getDefaultValue : ValueGetter;
  getValue : ValueGetter;
  getAssign : AssignGetter
}.

(** One definition in its context: the closure, the variable [method] and
    the caches of the two [target.lazy] calls; the target's side (assets
    provided, whether the list is tracked, whether [target.supply] is cut
    off and why); and the calls of the user's functions. *)
Record World : Type := newWorld {
  vars : Closure;
  method : option CxRequestMethod;
  defaultStateCache : option TState;
  assignCache : option Assigning;
  providedList : list (Provided TAsset);
  nextSupply : Ref;
  tracking : bool;
  supplyOff : option (option Ref);
  createCalls : list (list TAsset);
  byDefaultCalls : nat
}.

Definition setVars (c : Closure) (w : World) : World :=
  newWorld c (method w) (defaultStateCache w) (assignCache w)
    (providedList w) (nextSupply w) (tracking w) (supplyOff w)
    (createCalls w) (byDefaultCalls w).

Definition setMethod (m : CxRequestMethod) (w : World) : World :=
  newWorld (vars w) (Some m) (defaultStateCache w) (assignCache w)
    (providedList w) (nextSupply w) (tracking w) (supplyOff w)
    (createCalls w) (byDefaultCalls w).

Definition setGetState (g : StateGetter) (w : World) : World :=
  setVars (newClosure (getDefaultState (vars w)) (Some g)
             (getDefaultValue (vars w)) (getValue (vars w))
             (getAssign (vars w))) w.

(** Modelled from the spec: [cxUnavailable(entry, message, reason)] is
    imported from [../core], outside the files at hand. It makes the
    function that "unconditionally fails with the termination reason"
    (section 4.4), the failure being the [CxReferenceError] of section 7
    with the entry and the reason. *)
Definition cxUnavailable {A} (message : option string) (reason : option Ref)
  : M World A :=
  throw (ReferenceError (CxReferenceError.new entry message reason)).

(** [function cxDynamic$create(assets, _target) { return assets as ... }]. *)
Definition cxDynamic_create (assets : list TAsset) : TState := asState assets.

(** [function cxDynamic$byDefault() { return [] as ... }]. *)
Definition cxDynamic_byDefault : TState := asState [].

(** [const hasDefault = byDefault || !create]. *)
Definition hasDefault : bool :=
  match byDefault, create with
  | Some _, _ => true
  | None, None => true
  | None, Some _ => false
  end.

(** The first value of [getDefaultState]. *)
Definition initialDefaultState : StateGetter :=
  match byDefault with
  | Some result => lazyByDefault result
  | None =>
      match create with
      | Some _ => unavailableState None
      | None => dynamicByDefault
      end
  end.

(** [create ||= cxDynamic$create]. *)
Definition createState : list TAsset -> TState :=
  match create with
  | Some f => f
  | None => cxDynamic_create
  end.

(** The variable [create] as line 108, [create ||= cxDynamic$create],
    leaves it for the targets the definer is applied to afterwards. *)
Definition createAfter : option (list TAsset -> TState) := Some createState.

(** The default of the parameter [access]. *)
Definition accessor : Getter TState TValue :=
  match access with
  | Some g => g
  | None => cxRecent_access
  end.

(** Modelled from the spec: [target.lazy(fn)] is declared outside the
    files at hand. It returns a function that evaluates [fn(target)] on its
    first call and the kept result afterwards ("at most once per scope,
    memoized", section 4.4). *)
Definition targetLazy {A} (cache : World -> option A)
  (store : A -> World -> World) (evaluator : M World A) : M World A :=
  fun w =>
    match cache w with
    | Some a => (Ok a, w)
    | None =>
        match evaluator w with
        | (Ok a, w') => (Ok a, store a w')
        | (Throw t, w') => (Throw t, w')
        end
    end.

Definition storeDefaultState (state : TState) (w : World) : World :=
  newWorld (vars w) (method w) (Some state) (assignCache w)
    (providedList w) (nextSupply w) (tracking w) (supplyOff w)
    (createCalls w) (byDefaultCalls w).

Definition storeAssign (a : Assigning) (w : World) : World :=
  newWorld (vars w) (method w) (defaultStateCache w) (Some a)
    (providedList w) (nextSupply w) (tracking w) (supplyOff w)
    (createCalls w) (byDefaultCalls w).

(** [byDefault(target)]: the call is counted and the state returned. *)
Definition callByDefault (result : TState) : M World TState :=
  fun w =>
    (Ok result,
     newWorld (vars w) (method w) (defaultStateCache w) (assignCache w)
       (providedList w) (nextSupply w) (tracking w) (supplyOff w)
       (createCalls w) (S (byDefaultCalls w))).

(** [create(assets, target)]: the call is logged with its assets and the
    state returned. *)
Definition callCreate (assets : list TAsset) (w : World) : TState * World :=
  (createState assets,
   newWorld (vars w) (method w) (defaultStateCache w) (assignCache w)
     (providedList w) (nextSupply w) (tracking w) (supplyOff w)
     (createCalls w ++ [assets]) (byDefaultCalls w)).

(** Calling a function held by [getDefaultState] or [getState]. *)
Definition callStateGetter (g : StateGetter) : M World TState :=
  match g with
  | lazyByDefault result =>
      targetLazy defaultStateCache storeDefaultState (callByDefault result)
  | dynamicByDefault => ret cxDynamic_byDefault
  | constState state => ret state
  | unavailableState reason => cxUnavailable None reason
  end.

(** [() => getDefaultState()]: the variable is read when the call is made. *)
Definition callGetDefaultState : M World TState :=
  fun w => callStateGetter (getDefaultState (vars w)) w.

(** [() => getState()]; calling a variable without a value is a TypeError. *)
Definition callGetState : M World TState :=
  fun w =>
    match getState (vars w) with
    | Some g => callStateGetter g w
    | None => (Throw TypeError, w)
    end.

(** Running the value accessor over a state accessor. *)
Fixpoint runGetter (g : Getter TState TValue) (get : M World TState)
  : M World TValue :=
  match g with
  | yield value => ret value
  | ask next => (state <~ get ;; runGetter (next state) get)%js
  end.

Definition callValueGetter (g : ValueGetter) : M World TValue :=
  match g with
  | accessDefaultState => runGetter accessor callGetDefaultState
  | accessState => runGetter accessor callGetState
  | unavailableValue reason => cxUnavailable None reason
  end.

Definition callGetDefaultValue : M World TValue :=
  fun w => callValueGetter (getDefaultValue (vars w)) w.

Definition callGetValue : M World TValue :=
  fun w => callValueGetter (getValue (vars w)) w.

(** [for (const provided of list) provided.eachAsset(asset => {
    assets.push(asset); })], on the array [assets]. *)
Definition collectInto (assets : list TAsset)
  (assetList : list (Provided TAsset)) : list TAsset :=
  fold_left
    (fun assets provided =>
       Provided_eachAsset entry provided
         (fun asset assets => (None, assets ++ [asset])) assets)
    assetList assets.

(** The loop from [const assets: TAsset[] = []]. *)
Definition collectList (assetList : list (Provided TAsset)) : list TAsset :=
  collectInto [] assetList.

(** The receiver given to [target.trackAssetList] (lines 117-137). *)
Definition receiveList (assetList : list (Provided TAsset)) (w : World)
  : World :=
  let assets := collectList assetList in
  match assets with
  | _ :: _ =>
      let '(state, w1) := callCreate assets w in
      setGetState (constState state) (setMethod Assets w1)
  | [] =>
      let w1 := setMethod Defaults w in
      setGetState (getDefaultState (vars w1)) w1
  end.

(** Modelled from the spec: [target.trackAssetList(receiver)] is declared
    outside the files at hand. The subscription "immediately delivers" the
    assets currently provided (section 4.5); from then on the list is
    tracked. *)
Definition trackAssetList (receiver : list (Provided TAsset) -> World -> World)
  : M World unit :=
  fun w =>
    let w1 :=
      newWorld (vars w) (method w) (defaultStateCache w) (assignCache w)
        (providedList w) (nextSupply w) true (supplyOff w)
        (createCalls w) (byDefaultCalls w) in
    (Ok tt, receiver (providedList w1) w1).

(** The function given to [target.lazy] for [getAssign] (lines 113-146): it
    starts tracking the asset list and returns one of the two assigning
    functions. *)
Definition initAssign : M World Assigning :=
  (trackAssetList receiveList ;;;
   ret (if hasDefault then assignWithDefault else assignWithoutDefault))%js.

(** Calling [getAssign()]. *)
Definition callGetAssign : M World Assigning :=
  fun w =>
    match getAssign (vars w) with
    | unavailableAssign reason => cxUnavailable None reason w
    | lazyAssign => targetLazy assignCache storeAssign initAssign w
    end.

(** [method > 0]; the variable may still be without a value. *)
Definition methodPositive (m : option CxRequestMethod) : bool :=
  match m with
  | Some m => (0 <? methodValue m)%Z
  | None => false
  end.

(** What an assigner is called with: the value and, when given, the
    request method. *)
Definition Assigned : Type := TValue * option CxRequestMethod.

(** [getAssign()(assigner, isDefault)]: the result is the call of the
    assigner, when it is called. *)
Definition assignBy (isDefault : bool) : M World (option Assigned) :=
  (a <~ callGetAssign ;;
   match a with
   | assignWithDefault =>
       if isDefault then
         value <~ callGetDefaultValue ;; ret (Some (value, None))
       else
         value <~ callGetValue ;;
         m <~ read method ;;
         ret (Some (value, m))
   | assignWithoutDefault =>
       if isDefault then ret None
       else
         m <~ read method ;;
         if methodPositive m then
           value <~ callGetValue ;;
           m <~ read method ;;
           ret (Some (value, m))
         else ret None
   end)%js.

(** The definition's methods [assign(assigner)] and
    [assignDefault(assigner)]. *)
Definition assign : M World (option Assigned) := assignBy false.
Definition assignDefault : M World (option Assigned) := assignBy true.

(** The handler given to [target.supply.whenOff] (lines 148-154): all five
    variables get the one failing function. *)
Definition whenOff (reason : option Ref) (w : World) : World :=
  setVars (newClosure (unavailableState reason) (Some (unavailableState reason))
             (unavailableValue reason) (unavailableValue reason)
             (unavailableAssign reason)) w.

(** [cxDynamic(...)(target)]: the closure as the definer leaves it. A
    handler given to [whenOff] of a supply that is already cut off runs at
    once. *)
Definition perContext (provided : list (Provided TAsset)) (next : Ref)
  (cutOff : option (option Ref)) : World :=
  let w :=
    newWorld
      (newClosure initialDefaultState None accessDefaultState accessState
         lazyAssign)
      None None None provided next false cutOff [] 0 in
  match cutOff with
  | Some reason => whenOff reason w
  | None => w
  end.

(** Modelled from the spec: what the target does, outside the files at
    hand, when the assets provided for the entry change. While the list is
    tracked the receiver gets the full new list, "synchronously" (sections
    4.5 and 4.6). *)
Definition changeList (assetList : list (Provided TAsset)) (w : World)
  : World :=
  let w1 :=
    newWorld (vars w) (method w) (defaultStateCache w) (assignCache w)
      assetList (nextSupply w) (tracking w) (supplyOff w)
      (createCalls w) (byDefaultCalls w) in
  if tracking w1 then receiveList assetList w1 else w1.

(** The identity of a [new Supply()]: one that no provided asset of the
    list has and that is not below the next unused one. *)
Definition freshSupply (w : World) : Ref :=
  fold_right Nat.max (nextSupply w)
    (map (fun p => S (providedSupply p)) (providedList w)).

(** Modelled from the spec: [provide(asset)] on the modifier, outside the
    files at hand, "appends the asset to a per-entry ordered bucket"
    (section 4.6) under the asset's supply or a new one; the asset is of
    the current context, rank [0]. The bucket is "keyed by target Entry"
    (section 3): an asset for another entry leaves the list of this
    definition as it is. A new supply differs from every supply seen so
    far. "Provisioning after a bucket's owning scope has terminated must
    be a no-op" (section 4.6). *)
Definition provide (asset : CxAsset TAsset) (w : World) : World :=
  match supplyOff w with
  | Some _ => w
  | None =>
      let '(s, next) :=
        match supply asset with
        | Some s => (s, Nat.max (nextSupply w) (S s))
        | None => (freshSupply w, S (freshSupply w))
        end in
      let w1 :=
        newWorld (vars w) (method w) (defaultStateCache w) (assignCache w)
          (providedList w) next (tracking w) (supplyOff w)
          (createCalls w) (byDefaultCalls w) in
      if Nat.eqb (Asset.entry asset) entry
      then changeList (providedList w ++ [newProvided asset s 0]) w1
      else w1
  end.

(** Modelled from the spec: cutting off the supply of a provided asset,
    outside the files at hand, "removes the asset from the bucket" (section
    4.6); the others stay in their order. *)
Definition revoke (s : Ref) (w : World) : World :=
  changeList (filter (fun p => providedSupply p <> s) (providedList w)) w.

(** Modelled from the spec: [target.supply.off(reason)], of
    @proc7ts/supply. Termination is idempotent, its observers run once
    (section 6), and nothing is recomputed afterwards (section 4.3): the
    first call records the reason, ends the tracking and runs the
    [whenOff] handler. *)
Definition off (reason : option Ref) (w : World) : World :=
  match supplyOff w with
  | Some _ => w
  | None =>
      whenOff reason
        (newWorld (vars w) (method w) (defaultStateCache w) (assignCache w)
           (providedList w) (nextSupply w) false (Some reason)
           (createCalls w) (byDefaultCalls w))
  end.

(** What happens to a definition. *)
Inductive Event : Type :=
| doProvide (asset : CxAsset TAsset)
| doRevoke (s : Ref)
| doOff (reason : option Ref)
| doAssign
| doAssignDefault.

(** One event; an access returns what the assigner got. *)
Definition step (e : Event) : M World (option Assigned) :=
  match e with
  | doProvide asset => (modify (provide asset) ;;; ret None)%js
  | doRevoke s => (modify (revoke s) ;;; ret None)%js
  | doOff reason => (modify (off reason) ;;; ret None)%js
  | doAssign => assign
  | doAssignDefault => assignDefault
  end.

(** A sequence of events; a throwing access does not stop the ones after
    it. *)
Fixpoint run (events : list Event) (w : World)
  : list (Res (option Assigned)) * World :=
  match events with
  | [] => ([], w)
  | e :: events' =>
      let '(r, w1) := step e w in
      let '(rs, w2) := run events' w1 in
      (r :: rs, w2)
  end.

(** An access to the value or to the default. *)
Definition isAccess (e : Event) : bool :=
  match e with
  | doAssign | doAssignDefault => true
  | _ => false
  end.

(** The failure of an access after [target.supply] was cut off. *)
Definition unavailableFailure (reason : option Ref) : Thrown :=
  ReferenceError (CxReferenceError.new entry None reason).

(** The closure after the [whenOff] handler ran, on a target that tracks
    nothing any more. *)
Definition dead (reason : option Ref) (w : World) : Prop :=
  vars w = newClosure (unavailableState reason)
             (Some (unavailableState reason)) (unavailableValue reason)
             (unavailableValue reason) (unavailableAssign reason)
  /\ tracking w = false
  /\ supplyOff w = Some reason.

(** The cache of [target.lazy(byDefault)] holds a state exactly when
    [byDefault] was called, and then it was called once. *)
Definition defaultOnce (w : World) : Prop :=
  match defaultStateCache w with
  | None => byDefaultCalls w = 0
  | Some _ => byDefaultCalls w = 1
  end.

(** The method assigned for an assets array. *)
Definition requestMethod (assets : list TAsset) : CxRequestMethod :=
  match assets with
  | [] => Defaults
  | _ :: _ => Assets
  end.

End Definer.

Arguments World TAsset TState : clear implicits.
Arguments Event TAsset : clear implicits.

(** Modelled from the spec: [cxRecent$access], the default of [access], is
    imported from [./recent.impl], outside the files at hand. With [create]
    and [access] omitted the definer "reduces exactly to collect assets
    into an ordered sequence" (section 4.4): the accessor hands the state
    on as the value. *)
Definition cxRecent_access {TState : Type} : Getter TState TState :=
  ask yield.

(** A numbering of the request methods with [Assets] the positive one,
    for concrete runs. *)
Definition methodOrdinal (m : CxRequestMethod) : Z :=
  match m with
  | Defaults => 0%Z
  | Assets => 1%Z
  end.

(** The variable [create] as a target finds it, for the option given to
    [cxDynamic]: the option itself on the first target the definer is
    applied to, and what line 108 left on every later one ([earlier]). *)
Definition createFound {TAsset TState : Type} (asState : list TAsset -> TState)
  (given : option (list TAsset -> TState)) (earlier : bool)
  : option (list TAsset -> TState) :=
  if earlier then createAfter given asState else given.

(** [cxDynamic<TElement>()], the array-valued definer: no [create], no
    [byDefault], the default [access]. The state and the value are the
    assets array itself. The definer's variable [create] is unset for the
    first target it is applied to and set by then for every later one
    ([earlier]). *)
Section ArrayValued.

Context {TElement : Type}.

Variable methodValue : CxRequestMethod -> Z.
Variable entry : Ref.

(** The variable [create] as a target of [cxDynamic()] finds it. *)
Definition arrayCreate (earlier : bool)
  : option (list TElement -> list TElement) :=
  createFound id None earlier.

(** The events of an array-valued definition. *)
Definition arrayRun (earlier : bool) (events : list (Event TElement))
  (w : World TElement (list TElement))
  : list (Res (option (list TElement * option CxRequestMethod)))
    * World TElement (list TElement) :=
  run (arrayCreate earlier) None None cxRecent_access id methodValue entry
    events w.

Definition arrayAssign (earlier : bool)
  : M (World TElement (list TElement))
      (option (list TElement * option CxRequestMethod)) :=
  assign (arrayCreate earlier) None None cxRecent_access id methodValue entry.

Definition arrayAssignDefault (earlier : bool)
  : M (World TElement (list TElement))
      (option (list TElement * option CxRequestMethod)) :=
  assignDefault (arrayCreate earlier) None None cxRecent_access id methodValue
    entry.

Definition arrayPerContext (earlier : bool)
  (provided : list (Provided TElement)) (next : Ref)
  (cutOff : option (option Ref)) : World TElement (list TElement) :=
  perContext (arrayCreate earlier) None provided next cutOff.

End ArrayValued.

End Dynamic.

(** ** Provided assets (core/asset.ts, lines 131-156) *)

Module ProvidedAsset.

Import Asset.

Section Provided.

Context {V : Type}.

(** [interface CxAsset.Provided<TAsset>] of asset.ts: supply, rank and
    the method [get()]. Behind [get()] are the evaluator and the place of
    the evaluated asset. *)
Record Provided : Type := newProvided {
  supply : Ref;
  rank : nat;
  evaluator : Evaluator V;
  evaluated : option (Nullable V)
}.

(** Modelled from the spec: [CxAsset.Provided.get] is declared in
    asset.ts (lines 146-154) and implemented outside the files at hand.
    Its comment reads "Asset evaluated at most once. All subsequent calls
    to this method would return the previously evaluated asset"; section
    4.5 has "evaluate once, cache forever". The calls of the evaluator are
    logged. *)
Definition get (p : Provided) (log : list Ref)
  : Nullable V * Provided * list Ref :=
  match evaluated p with
  | Some asset => (asset, p, log)
  | None =>
      let asset := evaluate (evaluator p) in
      (asset,
       newProvided (supply p) (rank p) (evaluator p) (Some asset),
       log ++ [evaluatorRef (evaluator p)])
  end.

(** [n] calls of [get()], one after the other. *)
Fixpoint getTimes (n : nat) (p : Provided) (log : list Ref)
  : list (Nullable V) * Provided * list Ref :=
  match n with
  | O => ([], p, log)
  | S n' =>
      let '(asset, p', log') := get p log in
      let '(rest, p'', log'') := getTimes n' p' log' in
      (asset :: rest, p'', log'')
  end.

End Provided.

Arguments Provided V : clear implicits.

End ProvidedAsset.

(** ** The updatable single-value key (updatable/single-context-up-key.ts) *)

Module UpKey.

Section SingleContextUpKey.

Context {TValue : Type}.

(** Whether a value is truthy, for [defaultValue && afterThe(defaultValue)]. *)
Variable truthy : TValue -> bool.

(** The [AfterEvent] keepers [grow] builds or is given: [afterThe(...)],
    the keeper [afterEventBy(() => { throw new ContextKeyError(this) })],
    a keeper passed through [supplyAfter(supply)], and a value that is no
    keeper at all (what [defaultValue && ...] leaves of a falsy default). *)
Inductive AfterEvent : Type :=
| afterThe (values : list TValue)
| afterEventBy_throw (key : Ref)
| supplyAfter (supply : Ref) (source : AfterEvent)
| notKeeper (value : TValue).

(** [class SingleContextUpKey]: the key and its [byDefault], given as what
    the provider returns for the context; the constructor's default is
    [noop], which returns [undefined]. *)
Record SingleContextUpKey : Type := newKey {
  keyRef : Ref;
  byDefault : Nullable TValue
}.

(** [ContextValueSlot], as far as [grow] reads it: the sources the seed
    holds, whether the request has a fallback, the fallback, and the
    context's supply ([slot.context.get(ContextSupply, { or: null })]). *)
Record ContextValueSlot : Type := newSlot {
  seed : list TValue;
  hasFallback : bool;
  or : Nullable AfterEvent;
  contextSupply : option Ref
}.

(** [sources[sources.length - 1]], for a non-empty array. *)
Definition lastSource (sources : list TValue) : option TValue :=
  sources !! (length sources - 1).

(** The function given to [digAfter] (lines 69-94), applied to the sources;
    the boolean tells whether [this.byDefault] was called. *)
Definition dig (this : SingleContextUpKey) (slot : ContextValueSlot)
  (sources : list TValue) : AfterEvent * bool :=
  match lastSource sources with
  | Some source => (afterThe [source], false)
  | None =>
      let '(backup, called) :=
        if hasFallback slot then (or slot, false)
        else
          (match byDefault this with
           | present defaultValue =>
               if truthy defaultValue then present (afterThe [defaultValue])
               else present (notKeeper defaultValue)
           | null => null
           | undefined => undefined
           end, true) in
      match backup with
      | present keeper => (keeper, called)
      | _ => (afterEventBy_throw (keyRef this), called)
      end
  end.

(** [grow(slot)]: the value handed to [slot.insert]. *)
Definition grow (this : SingleContextUpKey) (slot : ContextValueSlot)
  : AfterEvent :=
  let value := fst (dig this slot (seed slot)) in
  match contextSupply slot with
  | Some supply => supplyAfter supply value
  | None => value
  end.

(** [readValue(from)] of the tests (part_002, lines 329-336): the values
    received from the keeper, or what receiving them throws. A supply that
    is not cut off lets the values through; a value that is no keeper has
    no method [once]. *)
Fixpoint readValue (from : AfterEvent) : Res (list TValue) :=
  match from with
  | afterThe values => Ok values
  | afterEventBy_throw key => Throw (ContextKeyError key)
  | supplyAfter _ source => readValue source
  | notKeeper _ => Throw TypeError
  end.

End SingleContextUpKey.

Arguments AfterEvent TValue : clear implicits.
Arguments SingleContextUpKey TValue : clear implicits.
Arguments ContextValueSlot TValue : clear implicits.

End UpKey.

(** ** Seeds as iterables: [seed], [isEmpty], [combine] (iterative-context-key.ts) *)

Module Seeding.

Import Iterative.

Section AIterable.

Context {Ctx Src : Type}.

Variable providerFn : Ref -> Ctx -> Nullable Src.

(** The array behind one result of [iterativeSeed(context, providers)],
    with the context its [map] callback closes over. The array is created
    by [providers.map(...)], so it is the seed's own. *)
Record SeedArray : Type := newSeedArray {
  seedContext : Ctx;
  seedEntries : list (SourceEntry (Src:=Src))
}.

(** The seed arrays allocated so far, by identity, and the provider calls
    made so far. *)
Record Heap : Type := newHeap {
  arrays : list SeedArray;
  called : list Ref
}.

(** The iterables this file builds: [AIterable.from(overArray(values))]
    over values at hand ([overNone()] is the empty one), the result of
    [iterativeSeed], named by its array, and
    [AIterable.from([first, second]).flatMap(asis)]. Two iterables that
    name one array share its cached sources. *)
Inductive AIterable : Type :=
| overArray (values : list Src)
| seedOver (array : nat)
| flatMapAsis (first second : AIterable).

(** [AIterable.from(overNone())], the default of [initial]. *)
Definition overNone : AIterable := overArray [].

(** [iterativeSeed(context, providers)] as an iterable: the entries array
    is allocated, nothing is called. *)
Definition iterativeSeedOf (context : Ctx) (providers : list Ref) (h : Heap)
  : AIterable * Heap :=
  (seedOver (length (arrays h)),
   newHeap (arrays h ++ [newSeedArray context (iterativeSeed providers)])
           (called h)).

(** [IterativeContextSeeder.seed(context, initial)]. *)
Definition seed (this : IterativeContextSeeder) (context : Ctx)
  (initial : AIterable) (h : Heap) : AIterable * Heap :=
  let '(own, h') := iterativeSeedOf context (_providers this) h in
  (flatMapAsis initial own, h').

(** [IterativeContextSeeder.combine(first, second)]. *)
Definition combine (first second : AIterable) : AIterable :=
  flatMapAsis first second.

(** One consumer taking at most [demand] elements from an iterable. A seed
    is read through [pull] and its array updated in place; the second part
    of a [flatMap] is opened only when the first is exhausted with elements
    still wanted. A name without an array in the heap, which no function
    here makes, yields nothing. *)
Fixpoint pullIter (demand : nat) (it : AIterable) (h : Heap)
  : list Src * Heap :=
  match it with
  | overArray values => (take demand values, h)
  | seedOver i =>
      match arrays h !! i with
      | Some a =>
          let '(vs, es, log) :=
            pull providerFn (seedContext a) demand (seedEntries a) (called h) in
          (vs, newHeap (<[i := newSeedArray (seedContext a) es]> (arrays h)) log)
      | None => ([], h)
      end
  | flatMapAsis first second =>
      let '(vs1, h1) := pullIter demand first h in
      if length vs1 <? demand then
        let '(vs2, h2) := pullIter (demand - length vs1) second h1 in
        (vs1 ++ vs2, h2)
      else (vs1, h1)
  end.

(** [itsEmpty(iterable)]: whether the first [next()] is done. *)
Definition itsEmpty (it : AIterable) (h : Heap) : bool * Heap :=
  let '(vs, h') := pullIter 1 it h in
  (match vs with [] => true | _ :: _ => false end, h').

(** [IterativeContextSeeder.isEmpty(seed)]. *)
Definition isEmpty (it : AIterable) (h : Heap) : bool * Heap := itsEmpty it h.

(** Successive consumers, each of some iterable with its demand. *)
Fixpoint consume (requests : list (AIterable * nat)) (h : Heap)
  : list (list Src) * Heap :=
  match requests with
  | [] => ([], h)
  | (it, demand) :: rest =>
      let '(vs, h') := pullIter demand it h in
      let '(vss, h'') := consume rest h' in
      (vs :: vss, h'')
  end.

(** The source of an entry: the cached one, or the one its provider
    returns. *)
Definition entryValue (context : Ctx) (e : SourceEntry) : Nullable Src :=
  match e with
  | (_, Some source) => source
  | (provider, None) => providerFn provider context
  end.

(** The present sources of a seed array, in the order of its entries. *)
Definition sourcesOf (a : SeedArray) : list Src :=
  omap (fun e =>
          match entryValue (seedContext a) e with
          | present v => Some v
          | _ => None
          end) (seedEntries a).

(** Everything an iterable yields when read to its end. *)
Fixpoint contents (h : Heap) (it : AIterable) : list Src :=
  match it with
  | overArray values => values
  | seedOver i =>
      match arrays h !! i with
      | Some a => sourcesOf a
      | None => []
      end
  | flatMapAsis first second => contents h first ++ contents h second
  end.

(** The entries whose provider was not called yet. *)
Fixpoint uncalled (es : list (SourceEntry (Src:=Src))) : nat :=
  match es with
  | [] => 0
  | (_, None) :: es' => S (uncalled es')
  | (_, Some _) :: es' => uncalled es'
  end.

(** The entries of all seed arrays whose provider was not called yet. *)
Definition pendingCalls (h : Heap) : nat :=
  sum_list (map (fun a => uncalled (seedEntries a)) (arrays h)).

(** An iterable that names arrays of the heap only. *)
Fixpoint allocated (h : Heap) (it : AIterable) : Prop :=
  match it with
  | overArray _ => True
  | seedOver i => i < length (arrays h)
  | flatMapAsis first second => allocated h first /\ allocated h second
  end.

(** The providers a first [next()] on a fresh seed calls: those up to and
    including the first one that returns a source. *)
Fixpoint untilPresent (context : Ctx) (providers : list Ref) : list Ref :=
  match providers with
  | [] => []
  | p :: rest =>
      if isPresent (providerFn p context) then [p]
      else p :: untilPresent context rest
  end.

End AIterable.

Arguments overArray {Src} values.
Arguments seedOver {Src} array.
Arguments flatMapAsis {Src} first second.
Arguments overNone {Src}.
Arguments combine {Src} first second.

End Seeding.

(** ** The dynamic definer: states and values of a tracked definition *)

Module DynamicState.

Import Asset Dynamic.

Section Definer.

Context {TAsset TState TValue : Type}.

Variable create : option (list TAsset -> TState).
Variable byDefault : option TState.
Variable access : option (Getter TState TValue).
Variable cxRecent_access : Getter TState TValue.
Variable asState : list TAsset -> TState.
Variable entry : Ref.

(** The value the accessor returns when every call of the state accessor
    it was given returns [state]. *)
Fixpoint answer (g : Getter TState TValue) (state : TState) : TValue :=
  match g with
  | yield value => value
  | ask next => answer (next state) state
  end.

(** The state behind [getDefaultState] when there is a default: the one
    [byDefault] returns, or the one of [cxDynamic$byDefault]. *)
Definition defaultState : TState :=
  match byDefault with
  | Some result => result
  | None => cxDynamic_byDefault asState
  end.

(** The function the receiver stores in [getState] for an asset list
    (lines 127-136). *)
Definition stateGetterOf (assetList : list (Provided TAsset))
  : StateGetter (TState:=TState) :=
  match collectList entry assetList with
  | [] => initialDefaultState create byDefault
  | assets => constState (createState create asState assets)
  end.

(** The closure of a definition whose [target.supply] is not cut off:
    the variables other than [getState] keep their first functions, the
    cache of [target.lazy(byDefault)] holds nothing but the state
    [byDefault] returned, and [getState] and [method] are set exactly once
    the lazy initializer of [getAssign] ran, from then on to the ones of
    the assets provided. *)
Definition trackedBody (w : World TAsset TState) : Prop :=
  getDefaultState (vars w) = initialDefaultState create byDefault
  /\ getDefaultValue (vars w) = accessDefaultState
  /\ getValue (vars w) = accessState
  /\ getAssign (vars w) = lazyAssign
  /\ (forall state, defaultStateCache w = Some state -> byDefault = Some state)
  /\ match assignCache w with
     | None =>
         tracking w = false /\ getState (vars w) = None /\ method w = None
     | Some a =>
         a = (if hasDefault create byDefault then assignWithDefault
              else assignWithoutDefault)
         /\ tracking w = true
         /\ method w = Some (requestMethod (collectList entry (providedList w)))
         /\ getState (vars w) = Some (stateGetterOf (providedList w))
     end.

Definition tracked (w : World TAsset TState) : Prop :=
  supplyOff w = None -> trackedBody w.

(** A definition in use: [target.supply] is not cut off. *)
Definition alive (w : World TAsset TState) : Prop :=
  supplyOff w = None /\ trackedBody w.

(** A definition in use whose lazy initializer of [getAssign] ran, with
    the assets provided. *)
Definition serving (assetList : list (Provided TAsset))
  (w : World TAsset TState) : Prop :=
  alive w /\ providedList w = assetList /\ is_Some (assignCache w).

(** The state [getState()] returns for an asset list. *)
Definition currentState (assetList : list (Provided TAsset)) : TState :=
  match collectList entry assetList with
  | [] => defaultState
  | assets => createState create asState assets
  end.

(** A definition that had no access yet: nothing is tracked and no function
    of the user was called. *)
Definition untouched (w : World TAsset TState) : Prop :=
  tracking w = false
  /\ assignCache w = None
  /\ method w = None
  /\ createCalls w = []
  /\ byDefaultCalls w = 0.

End Definer.

End DynamicState.

(** ** The single-valued definer: calls of [get] and [getDefault] *)

Module SingleCalls.

Import Asset Single.

Section Definer.

Context {V : Type}.

(** The two methods of a definition. *)
Inductive Method : Type :=
| methodGet
| methodGetDefault.

(** [definition.get?.()] or [definition.getDefault?.()]. *)
Definition callMethod (definition : CxEntryDefinition V) (m : Method)
  : M (Scope V) (Nullable V) :=
  match m with
  | methodGet => callOptional (get definition)
  | methodGetDefault => callOptional (getDefault definition)
  end.

(** Calls of the methods of one definition in one scope, one after the
    other. *)
Fixpoint callAll (definition : CxEntryDefinition V) (ms : list Method)
  (w : Scope V) : list (Res (Nullable V)) * Scope V :=
  match ms with
  | [] => ([], w)
  | m :: ms' =>
      let '(r, w1) := callMethod definition m w in
      let '(rs, w2) := callAll definition ms' w1 in
      (r :: rs, w2)
  end.

(** Whether a method is among the ones called. *)
Fixpoint mentions (m : Method) (ms : list Method) : bool :=
  match ms with
  | [] => false
  | m' :: ms' =>
      match m, m' with
      | methodGet, methodGet | methodGetDefault, methodGetDefault => true
      | _, _ => mentions m ms'
      end
  end.

(** The loop of [get] over the evaluators taken from the last one down,
    given the value so far: the value it ends with and the evaluators it
    calls. *)
Fixpoint scan (reversed : list (Evaluator V)) (value : Nullable V)
  : Nullable V * list Call :=
  match reversed with
  | [] => (value, [])
  | getAsset :: rest =>
      if isPresent (evaluate getAsset)
      then (evaluate getAsset, [callEvaluator (evaluatorRef getAsset)])
      else
        let '(v, cs) := scan rest (evaluate getAsset) in
        (v, callEvaluator (evaluatorRef getAsset) :: cs)
  end.

(** The value of the entry for a target, and the calls that evaluate it. *)
Definition singleValue (target : Target (Evaluator V)) : Nullable V :=
  fst (scan (rev (collectAssets target)) undefined).

Definition singleCalls (target : Target (Evaluator V)) : list Call :=
  snd (scan (rev (collectAssets target)) undefined).

(** What [getDefault?.()] returns. *)
Definition defaultValue (byDefault : option (Nullable V)) : Nullable V :=
  match byDefault with
  | Some result => result
  | None => undefined
  end.

(** The calls of evaluators in a log, and the calls of [byDefault]. *)
Definition isDefaultCall (c : Call) : bool :=
  match c with
  | callByDefault => true
  | callEvaluator _ => false
  end.

Definition evaluatorPart (cs : list Call) : list Call :=
  filter (fun c => isDefaultCall c = false) cs.

Definition defaultPart (cs : list Call) : list Call :=
  filter (fun c => isDefaultCall c = true) cs.

(** A scope in which [get] was called or not ([g]) and [getDefault] was
    called or not ([d]). *)
Definition scopeAfter (byDefault : option (Nullable V))
  (target : Target (Evaluator V)) (g d : bool) (w : Scope V) : Prop :=
  getCache w = (if g then Some (singleValue target) else None)
  /\ defaultCache w
     = match byDefault with
       | Some result => if d then Some result else None
       | None => None
       end
  /\ evaluatorPart (calls w) = (if g then singleCalls target else [])
  /\ defaultPart (calls w)
     = match byDefault with
       | Some _ => if d then [callByDefault] else []
       | None => []
       end.

End Definer.

End SingleCalls.

(** ** Constant assets among the provided ones *)

Module ConstAssets.

Import Asset Dynamic.

(** The values of constant assets that are placed: the ones that are
    neither [null] nor [undefined], in their order. *)
Definition presentValues {A} (values : list (Nullable A)) : list A :=
  omap (fun value =>
          match value with
          | present v => Some v
          | _ => None
          end) values.

(** Constant assets for the values of a list, as the receiver of
    [trackAssetList] gets them: the [i]-th one made for the entry
    [entryOf i] with the supply [supplyOf i], and provided under the
    supply [providedOf i] with the rank [rankOf i]. *)
Definition constProvided {A} (entryOf : nat -> Ref)
  (supplyOf : nat -> option Ref) (providedOf : nat -> Ref)
  (rankOf : nat -> nat) (values : list (Nullable A)) : list (Provided A) :=
  imap (fun i value =>
          newProvided (cxConstAsset (entryOf i) value (supplyOf i))
            (providedOf i) (rankOf i)) values.

End ConstAssets.

(** * Properties *)

(** ** Removal handles of the iterative seeder *)

Section SeederProps.

Import Iterative.

Lemma indexOf_absent (x : Ref) (l : list Ref) :
  x ∉ l -> indexOf x l = (-1)%Z.
Proof.
  induction l as [|y l IH]; simpl; intros Hx; [done|].
  apply not_elem_of_cons in Hx as [Hne Hl].
  destruct (decide (y = x)) as [->|_]; [done|].
  rewrite (IH Hl). reflexivity.
Qed.

Lemma indexOf_first (x : Ref) (l1 l2 : list Ref) :
  x ∉ l1 -> indexOf x (l1 ++ x :: l2) = Z.of_nat (length l1).
Proof.
  induction l1 as [|y l1 IH]; simpl; intros Hx.
  - destruct (decide (x = x)); [done|congruence].
  - apply not_elem_of_cons in Hx as [Hne Hl].
    destruct (decide (y = x)) as [->|_]; [done|].
    rewrite (IH Hl).
    destruct (Z.ltb_spec (Z.of_nat (length l1)) 0); lia.
Qed.

Lemma splice1_middle (l1 l2 : list Ref) (x : Ref) :
  splice1 (Z.of_nat (length l1)) (l1 ++ x :: l2) = l1 ++ l2.
Proof.
  unfold splice1. rewrite Nat2Z.id.
  induction l1 as [|y l1 IH]; simpl; [done|].
  f_equal. exact IH.
Qed.

(** The remover takes out the first occurrence of its provider and leaves
    the providers before and after it as they were. *)
Lemma remove_first_occurrence (p : Ref) (l1 l2 : list Ref) :
  p ∉ l1 ->
  remove (newRemover p) (newSeeder (l1 ++ p :: l2)) = newSeeder (l1 ++ l2).
Proof.
  intros Hp. unfold remove. simpl.
  rewrite (indexOf_first _ _ _ Hp).
  destruct (Z.leb_spec 0 (Z.of_nat (length l1))); [|lia].
  by rewrite splice1_middle.
Qed.

(** A remover whose provider is registered nowhere changes nothing. *)
Lemma remove_absent (p : Ref) (s : IterativeContextSeeder) :
  p ∉ _providers s -> remove (newRemover p) s = s.
Proof.
  intros Hp. unfold remove. simpl. by rewrite (indexOf_absent _ _ Hp).
Qed.

(** For a provider that is registered once, the handle removes that
    registration only, and a second call of the handle is a no-op. *)
Lemma remove_registered_once (p : Ref) (l1 l2 : list Ref) :
  p ∉ l1 -> p ∉ l2 ->
  let s := newSeeder (l1 ++ p :: l2) in
  remove (newRemover p) s = newSeeder (l1 ++ l2)
  /\ remove (newRemover p) (remove (newRemover p) s) = newSeeder (l1 ++ l2).
Proof.
  intros H1 H2 s. subst s.
  rewrite (remove_first_occurrence _ _ _ H1). split; [done|].
  apply remove_absent. simpl. rewrite elem_of_app. tauto.
Qed.

(** C7, at the failing inputs: one provider function [p] registered twice.
    With another provider [q] between the two registrations, the handle of
    the last registration takes out the first one, so the order left is
    [q], [p] and not [p], [q]. With nothing in between, the first call of
    the second handle leaves one registration and the second call of the
    same handle removes that one too: it is no no-op, and the earlier
    registration is gone. *)
Theorem IterativeContextSeeder_remover_not_idempotent (p : Ref) :
  let q := S p in
  (let '(h1, s1) := provide p (newSeeder []) in
   let '(h2, s2) := provide q s1 in
   let '(h3, s3) := provide p s2 in
   _providers s3 = [p; q; p]
   /\ remove h3 s3 = newSeeder [q; p])
  /\ (let '(h1, s1) := provide p (newSeeder []) in
      let '(h2, s2) := provide p s1 in
      _providers s2 = [p; p]
      /\ remove h2 s2 = newSeeder [p]
      /\ remove h2 (remove h2 s2) = newSeeder []).
Proof.
  simpl. unfold remove; simpl.
  destruct (decide (p = p)); [|congruence].
  simpl. destruct (decide (p = p)); [|congruence]. done.
Qed.

End SeederProps.

(** ** Sources of a seed are evaluated once *)

Section SeedProps.

Import Iterative.

Context {Ctx Src : Type}.
Variable providerFn : Ref -> Ctx -> Nullable Src.
Variable context : Ctx.

Lemma presentSources_cons (p : Ref) (l : list Ref) :
  presentSources providerFn context (p :: l) =
  match providerFn p context with
  | present v => v :: presentSources providerFn context l
  | _ => presentSources providerFn context l
  end.
Proof. unfold presentSources. simpl. by destruct (providerFn p context). Qed.

Lemma presentSources_length (l : list Ref) :
  length (presentSources providerFn context l) <= length l.
Proof.
  induction l as [|p l IH]; [done|].
  rewrite presentSources_cons.
  destruct (providerFn p context); simpl; lia.
Qed.

Lemma pull_fresh (l : list Ref) : forall (demand : nat) (log : list Ref),
  exists k,
    pull providerFn context demand (iterativeSeed l) log =
    (take demand (presentSources providerFn context l),
     cachedEntries providerFn context (take k l) ++ iterativeSeed (drop k l),
     log ++ take k l).
Proof.
  induction l as [|p l IH]; intros demand log.
  - exists 0. destruct demand; simpl; by rewrite ?app_nil_r.
  - destruct demand as [|d].
    + exists 0. simpl. by rewrite app_nil_r.
    + rewrite presentSources_cons. simpl.
      destruct (providerFn p context) as [| |v] eqn:Hp.
      * destruct (IH (S d) (log ++ [p])) as [k ->].
        exists (S k). simpl. rewrite Hp. by rewrite <- app_assoc.
      * destruct (IH (S d) (log ++ [p])) as [k ->].
        exists (S k). simpl. rewrite Hp. by rewrite <- app_assoc.
      * destruct (IH d (log ++ [p])) as [k ->].
        exists (S k). simpl. rewrite Hp. by rewrite <- app_assoc.
Qed.

Lemma pull_cached (l1 l2 : list Ref) : forall (demand : nat) (log : list Ref),
  exists k,
    pull providerFn context demand
      (cachedEntries providerFn context l1 ++ iterativeSeed l2) log =
    (take demand (presentSources providerFn context (l1 ++ l2)),
     cachedEntries providerFn context (l1 ++ take k l2)
       ++ iterativeSeed (drop k l2),
     log ++ take k l2).
Proof.
  induction l1 as [|p l1 IH]; intros demand log.
  - simpl. apply pull_fresh.
  - destruct demand as [|d].
    + exists 0. simpl. rewrite !app_nil_r. by rewrite drop_0.
    + rewrite <- app_comm_cons, presentSources_cons. simpl.
      destruct (providerFn p context) as [| |v] eqn:Hp.
      * destruct (IH (S d) log) as [k ->]. exists k. simpl. by rewrite ?Hp.
      * destruct (IH (S d) log) as [k ->]. exists k. simpl. by rewrite ?Hp.
      * destruct (IH d log) as [k ->]. exists k. simpl. by rewrite ?Hp.
Qed.

Lemma iterate_seedAfter (providers : list Ref) (n demand : nat) :
  exists n',
    iterate providerFn context demand (seedAfter providerFn context providers n)
    = (take demand (presentSources providerFn context providers),
       seedAfter providerFn context providers n').
Proof.
  unfold iterate, seedAfter. simpl.
  destruct (pull_cached (take n providers) (drop n providers) demand
              (take n providers)) as [k ->].
  rewrite take_drop. exists (n + k).
  by rewrite take_take_drop, drop_drop.
Qed.

Lemma consumers_seedAfter (providers : list Ref) (demands : list nat) :
  forall n, exists n',
    consumers providerFn context demands
      (seedAfter providerFn context providers n)
    = (map (fun demand =>
              take demand (presentSources providerFn context providers))
           demands,
       seedAfter providerFn context providers n').
Proof.
  induction demands as [|d ds IH]; intros n; simpl.
  - by exists n.
  - destruct (iterate_seedAfter providers n d) as [n1 ->].
    destruct (IH n1) as [n2 ->]. by exists n2.
Qed.

Lemma seedAfter_0 (providers : list Ref) :
  seedAfter providerFn context providers 0
  = newSeed (iterativeSeed providers) [].
Proof. unfold seedAfter. by rewrite take_0, drop_0. Qed.

Lemma iterateAll_fresh (providers : list Ref) :
  fst (iterateAll providerFn context (newSeed (iterativeSeed providers) []))
  = presentSources providerFn context providers.
Proof.
  rewrite <- seedAfter_0. unfold iterateAll.
  destruct (iterate_seedAfter providers 0
              (S (length (entries (seedAfter providerFn context providers 0)))))
    as [n' ->].
  simpl. apply take_ge.
  unfold seedAfter. simpl. unfold iterativeSeed.
  rewrite length_map, drop_0.
  pose proof (presentSources_length providers). lia.
Qed.

End SeedProps.

(** ** The single-valued definer: the last available asset *)

Section SingleProps.

Import Asset Single Modifier.

Context {V : Type}.

Lemma logCalls_nil (w : Scope V) : logCalls [] w = w.
Proof. destruct w. unfold logCalls. simpl. by rewrite app_nil_r. Qed.

Lemma logCalls_app (cs1 cs2 : list Call) (w : Scope V) :
  logCalls cs2 (logCalls cs1 w) = logCalls (cs1 ++ cs2) w.
Proof. unfold logCalls. simpl. by rewrite app_assoc. Qed.

(** The loop passes the unavailable evaluators at the end of the array, from
    the last one down, calling each once. *)
Lemma lastPresent_unavailable (l2 : list (Evaluator V)) :
  Forall unavailable l2 ->
  forall l1 rest value w,
    lastPresent (l1 ++ l2 ++ rest) (length (l1 ++ l2)) value w =
    lastPresent (l1 ++ l2 ++ rest) (length l1)
      (match l2 with [] => value | e :: _ => evaluate e end)
      (logCalls (evaluatorCalls (rev l2)) w).
Proof.
  induction l2 as [|x l2 IH] using rev_ind; intros Hall l1 rest value w.
  - simpl. by rewrite app_nil_r, logCalls_nil.
  - apply Forall_app in Hall as [Hl2 Hx]. rewrite Forall_singleton in Hx.
    replace (length (l1 ++ l2 ++ [x])) with (S (length (l1 ++ l2)))
      by (rewrite !length_app; simpl; lia).
    replace (l1 ++ (l2 ++ [x]) ++ rest) with ((l1 ++ l2) ++ x :: rest)
      by (by rewrite <- !app_assoc).
    cbn [lastPresent].
    rewrite list_lookup_middle by done.
    unfold unavailable in Hx. unfold bind at 1, invoke at 1. rewrite Hx.
    replace ((l1 ++ l2) ++ x :: rest) with (l1 ++ l2 ++ [x] ++ rest)
      by (by rewrite <- app_assoc).
    rewrite (IH Hl2 l1 ([x] ++ rest)).
    f_equal.
    + by destruct l2.
    + rewrite rev_app_distr. unfold logCalls, evaluatorCalls. simpl.
      by rewrite <- app_assoc.
Qed.

Lemma lastPresent_all_unavailable (l : list (Evaluator V)) value w :
  Forall unavailable l ->
  lastPresent l (length l) value w =
  (Ok (match l with [] => value | e :: _ => evaluate e end),
   logCalls (evaluatorCalls (rev l)) w).
Proof.
  intros Hall.
  pose proof (lastPresent_unavailable l Hall [] [] value w) as H.
  simpl in H. rewrite app_nil_r in H. exact H.
Qed.

Lemma lastPresent_last_available (l1 l2 : list (Evaluator V)) e v value w :
  evaluate e = present v ->
  Forall unavailable l2 ->
  lastPresent (l1 ++ e :: l2) (length (l1 ++ e :: l2)) value w =
  (Ok (present v),
   logCalls (evaluatorCalls (rev l2) ++ [callEvaluator (evaluatorRef e)]) w).
Proof.
  intros He Hall.
  pose proof (lastPresent_unavailable l2 Hall (l1 ++ [e]) [] value w) as H.
  rewrite app_nil_r, <- app_assoc in H. simpl in H. rewrite H.
  rewrite length_app. simpl. rewrite Nat.add_1_r. cbn [lastPresent].
  rewrite list_lookup_middle by done.
  unfold bind, invoke. rewrite He. simpl. unfold ret.
  by rewrite <- logCalls_app.
Qed.

(** Whatever the evaluators return, the loop ends without a failure, having
    called the evaluators of a final part of the array, each once, from the
    last one down. *)
Lemma lastPresent_calls (l : list (Evaluator V)) :
  forall rest value w,
  exists v l1 l2,
    l = l1 ++ l2
    /\ lastPresent (l ++ rest) (length l) value w
       = (Ok v, logCalls (evaluatorCalls (rev l2)) w).
Proof.
  induction l as [|x l IH] using rev_ind; intros rest value w.
  - exists value, [], []. simpl. by rewrite logCalls_nil.
  - rewrite length_app. simpl. rewrite Nat.add_1_r. cbn [lastPresent].
    rewrite <- app_assoc. simpl.
    rewrite list_lookup_middle by done.
    unfold bind at 1, invoke at 1.
    destruct (isPresent (evaluate x)) eqn:Hx.
    + exists (evaluate x), l, [x]. split; [done|]. reflexivity.
    + destruct (IH (x :: rest) (evaluate x)
                  (logCalls [callEvaluator (evaluatorRef x)] w))
        as (v & l1 & l2 & Hl & Heq).
      exists v, l1, (l2 ++ [x]). split; [by rewrite Hl, app_assoc|].
      unfold logCalls at 1 in Heq. rewrite Heq.
      rewrite rev_app_distr. simpl.
      by rewrite logCalls_app.
Qed.

Lemma collectAssets_evaluatorAssets (e : Ref) (es : list (Evaluator V)) :
  collectAssets (newTarget e (map (evaluatorAsset e) es)) = es.
Proof.
  unfold collectAssets, eachAsset. cbn [assets targetEntry].
  enough (forall acc : list (Evaluator V),
    fold_left
      (fun (acc : list (Evaluator V) * bool) (asset : CxAsset (Evaluator V)) =>
         if snd acc then
           placeAsset asset e (list (Evaluator V) * bool)%type
             (guarded (fun getAsset assets => (None, assets ++ [getAsset]))) acc
         else acc)
      (map (evaluatorAsset e) es) (acc, true) = (acc ++ es, true)) as H
    by (by rewrite H).
  induction es as [|x es IH]; intros acc; simpl.
  - by rewrite app_nil_r.
  - rewrite IH. by rewrite <- app_assoc.
Qed.

Lemma freshSupply_next (m : Registry (Evaluator V)) :
  Forall (fun p => provisionSupply p < nextSupply m) (bucket m) ->
  freshSupply m = nextSupply m.
Proof.
  unfold freshSupply. induction 1 as [|p b Hp Hb IH]; simpl; [done|].
  rewrite IH. lia.
Qed.

Lemma provideAll_bucket (e : Ref) (es : list (Evaluator V)) :
  forall m,
    Forall (fun p => provisionSupply p < nextSupply m) (bucket m) ->
    provideAll e es m =
    newRegistry (bucket m ++ supplied e (nextSupply m) es)
                (nextSupply m + length es).
Proof.
  induction es as [|x es IH]; intros [b n] Hm; simpl.
  - by rewrite app_nil_r, Nat.add_0_r.
  - unfold provide. simpl supply. cbv iota beta.
    rewrite (freshSupply_next _ Hm). simpl.
    rewrite IH.
    + simpl. rewrite <- app_assoc. simpl. f_equal. lia.
    + simpl. simpl in Hm. apply Forall_app. split.
      * eapply Forall_impl; [exact Hm|]. simpl. intros p Hp. lia.
      * apply Forall_singleton. simpl. lia.
Qed.

Lemma supplied_entry (e : Ref) (es : list (Evaluator V)) : forall n,
  filter (fun p => entry (provisionAsset p) = e) (supplied e n es)
  = supplied e n es.
Proof.
  induction es as [|x es IH]; intros n; simpl; [done|].
  rewrite filter_cons_True by done. by rewrite IH.
Qed.

Lemma supplied_assets (e : Ref) (es : list (Evaluator V)) : forall n,
  map provisionAsset (supplied e n es) = map (evaluatorAsset e) es.
Proof. induction es as [|x es IH]; intros n; simpl; [done|]. by rewrite IH. Qed.

Lemma supplied_off_before (e : Ref) (es : list (Evaluator V)) : forall n k,
  k < n ->
  filter (fun p => provisionSupply p <> k) (supplied e n es)
  = supplied e n es.
Proof.
  induction es as [|x es IH]; intros n k Hk; simpl; [done|].
  rewrite filter_cons_True by (simpl; lia). rewrite IH by lia. done.
Qed.

Lemma supplied_off_entry (e : Ref) (es : list (Evaluator V)) : forall n k,
  n <= k ->
  map provisionAsset
    (filter (fun p => entry (provisionAsset p) = e)
       (filter (fun p => provisionSupply p <> k) (supplied e n es)))
  = map (evaluatorAsset e) (delete (k - n) es).
Proof.
  induction es as [|x es IH]; intros n k Hk; simpl; [done|].
  destruct (decide (n = k)) as [->|Hne].
  - rewrite filter_cons_False by (simpl; lia).
    rewrite supplied_off_before by lia. rewrite Nat.sub_diag. simpl.
    by rewrite supplied_entry, supplied_assets.
  - rewrite filter_cons_True by (simpl; lia).
    rewrite filter_cons_True by done.
    replace (k - n) with (S (k - S n)) by lia. simpl.
    rewrite IH by lia. done.
Qed.

Lemma collectAssets_registered (e : Ref) (es : list (Evaluator V)) :
  collectAssets (target e (registered e es)) = es.
Proof.
  unfold registered, target. rewrite provideAll_bucket by by constructor.
  simpl. rewrite supplied_entry, supplied_assets.
  apply collectAssets_evaluatorAssets.
Qed.

(** Cutting off the supply of the [k]-th registration leaves the other
    evaluators, in their order. *)
Lemma collectAssets_off (e : Ref) (es : list (Evaluator V)) (k : Ref) :
  collectAssets (target e (off k (registered e es))) = delete k es.
Proof.
  unfold registered, target, off. rewrite provideAll_bucket by by constructor.
  simpl. rewrite supplied_off_entry by lia. rewrite Nat.sub_0_r.
  apply collectAssets_evaluatorAssets.
Qed.

Lemma lazyValue_fresh {A} cache store (provider : M (Scope V) A) w :
  cache w = None ->
  fst (lazyValue (A:=A) cache store provider w) = fst (provider w).
Proof.
  intros H. unfold lazyValue. rewrite H. by destruct (provider w) as [[]].
Qed.

End SingleProps.

Section SingleClaims.

Import Asset Single Modifier.

Context {V : Type}.

(** C1, as amended. For a single-valued entry, the first [get()] of a
    definition in a scope that has nothing cached, over the evaluators the
    target's assets place, in the order they were provided: it returns the
    value of the last evaluator that evaluates to a value; when every
    evaluator returns [null] or [undefined] it returns the last result
    evaluated (the first evaluator's, or [undefined] without evaluators),
    and the accessor goes on to the default, when there is one. The
    evaluators of a target are the registered ones in the order of
    registration, and cutting off the supply of one registration leaves
    the others in their order. With [v1], [v2], [v3] registered in that
    order the entry resolves to [v3]; the scope that resolved it keeps
    [v3] after the third registration is revoked, and after the second is;
    a scope that resolves the entry for the first time after the third
    registration is revoked gets [v2], and after the second one is revoked
    too, [v1]. *)
Theorem cxSingle_last_available_wins (e : Ref)
  (byDefault : option (Nullable V)) :
  let resolve t :=
    fst (callOptional (get (cxSingle byDefault t)) freshScope) in
  (forall t l1 x l2 v,
      collectAssets t = l1 ++ x :: l2 ->
      evaluate x = present v -> Forall unavailable l2 ->
      resolve t = Ok (present v))
  /\ (forall t,
      Forall unavailable (collectAssets t) ->
      let value := match collectAssets t with
                   | [] => undefined
                   | x :: _ => evaluate x
                   end in
      resolve t = Ok value
      /\ isPresent value = false
      /\ fst (Values.get e (cxSingle byDefault t)
                (Values.newCxRequest undefined) freshScope)
         = match byDefault with
           | Some (present d) => Ok (present d)
           | _ => Throw (ReferenceError (CxReferenceError.new e None None))
           end)
  /\ (forall (es : list (Evaluator V)) (k : Ref),
      collectAssets (target e (registered e es)) = es
      /\ collectAssets (target e (off k (registered e es))) = delete k es)
  /\ (forall r1 r2 r3 v1 v2 v3,
      let asset r v := evaluatorAsset e (newEvaluator r (present v)) in
      let '(s1, m1) := provide (asset r1 v1) emptyRegistry in
      let '(s2, m2) := provide (asset r2 v2) m1 in
      let '(s3, m3) := provide (asset r3 v3) m2 in
      let getIn t w := callOptional (get (cxSingle byDefault t)) w in
      let resolved := snd (getIn (target e m3) freshScope) in
      resolve (target e m3) = Ok (present v3)
      /\ fst (getIn (target e (off s3 m3)) resolved) = Ok (present v3)
      /\ fst (getIn (target e (off s2 (off s3 m3))) resolved)
         = Ok (present v3)
      /\ resolve (target e (off s3 m3)) = Ok (present v2)
      /\ resolve (target e (off s2 (off s3 m3))) = Ok (present v1)).
Proof.
  intros resolve. split; [|split; [|split]].
  - intros t l1 x l2 v Ht Hx Hall. unfold resolve. simpl.
    rewrite lazyValue_fresh by done. unfold evaluateSingle. rewrite Ht.
    by rewrite (lastPresent_last_available _ _ _ _ _ _ Hx Hall).
  - intros t Hall value.
    assert (Hv : isPresent value = false).
    { subst value. destruct (collectAssets t) as [|x es]; [done|].
      by apply Forall_inv in Hall. }
    split; [|split; [done|]].
    + unfold resolve. simpl.
      rewrite lazyValue_fresh by done. unfold evaluateSingle.
      by rewrite lastPresent_all_unavailable.
    + unfold Values.get, bind. simpl.
      unfold lazyValue at 1. simpl. unfold evaluateSingle.
      rewrite lastPresent_all_unavailable by done.
      fold value. rewrite Hv. simpl.
      destruct byDefault as [[| |d]|]; simpl; reflexivity.
  - intros es k. split; [apply collectAssets_registered|].
    apply collectAssets_off.
  - intros r1 r2 r3 v1 v2 v3. simpl.
    unfold resolve, target, provide, off. simpl.
    rewrite !filter_cons_True by done. simpl.
    rewrite !filter_cons_True by done. done.
Qed.


End SingleClaims.

(** A run of C1: the values [1], [2], [3] are registered in that order and
    the third registration, then the second, is revoked. The scope that
    resolved [3] keeps it; scopes that resolve afterwards get [2] and
    [1]. *)
Lemma cxSingle_last_available_wins_witness :
  let asset r v :=
    Asset.evaluatorAsset 1 (Asset.newEvaluator r (present v)) in
  let '(s1, m1) := Modifier.provide (asset 10 1) Modifier.emptyRegistry in
  let '(s2, m2) := Modifier.provide (asset 11 2) m1 in
  let '(s3, m3) := Modifier.provide (asset 12 3) m2 in
  let getIn t w :=
    Single.callOptional (Single.get (Single.cxSingle None t)) w in
  let resolved := snd (getIn (Modifier.target 1 m3) Single.freshScope) in
  fst (getIn (Modifier.target 1 m3) Single.freshScope) = Ok (present 3)
  /\ fst (getIn (Modifier.target 1 (Modifier.off s3 m3)) resolved)
     = Ok (present 3)
  /\ fst (getIn (Modifier.target 1 (Modifier.off s2 (Modifier.off s3 m3)))
            resolved)
     = Ok (present 3)
  /\ fst (getIn (Modifier.target 1 (Modifier.off s3 m3)) Single.freshScope)
     = Ok (present 2)
  /\ fst (getIn (Modifier.target 1 (Modifier.off s2 (Modifier.off s3 m3)))
            Single.freshScope)
     = Ok (present 1).
Proof.
  exact (proj2 (proj2 (proj2 (cxSingle_last_available_wins (V:=nat) 1 None)))
           10 11 12 1 2 3).
Defined.

(** C1, where the claim as written fails: in the scope that resolved the
    entry to [3], [get()] after the revocation of the third registration
    returns [3] and not [2]. *)
Lemma cxSingle_keeps_value_after_revocation :
  let asset r v :=
    Asset.evaluatorAsset 1 (Asset.newEvaluator r (present v)) in
  let '(s1, m1) := Modifier.provide (asset 10 1) Modifier.emptyRegistry in
  let '(s2, m2) := Modifier.provide (asset 11 2) m1 in
  let '(s3, m3) := Modifier.provide (asset 12 3) m2 in
  let getIn t w :=
    Single.callOptional (Single.get (Single.cxSingle None t)) w in
  let resolved := snd (getIn (Modifier.target 1 m3) Single.freshScope) in
  Single.collectAssets (Modifier.target 1 (Modifier.off s3 m3))
  = [Asset.newEvaluator 10 (present 1); Asset.newEvaluator 11 (present 2)]
  /\ getIn (Modifier.target 1 (Modifier.off s3 m3)) resolved
     = (Ok (present 3), resolved)
  /\ fst (getIn (Modifier.target 1 (Modifier.off s3 m3)) resolved)
     <> Ok (present 2)
  /\ Single.calls resolved = [Single.callEvaluator 12].
Proof. by split_and!. Qed.



(** ** Memoized evaluation *)

Section MemoProps.

Import Asset.

Context {V : Type}.

Lemma Provided_get_evaluated (p : ProvidedAsset.Provided V) asset log :
  ProvidedAsset.evaluated p = Some asset ->
  forall n,
    ProvidedAsset.getTimes n p log = (replicate n asset, p, log).
Proof.
  intros Hp n. induction n as [|n IH]; simpl; [done|].
  unfold ProvidedAsset.get. rewrite Hp. by rewrite IH.
Qed.

Lemma Provided_get_once (p : ProvidedAsset.Provided V) log n :
  ProvidedAsset.evaluated p = None ->
  let asset := evaluate (ProvidedAsset.evaluator p) in
  ProvidedAsset.getTimes (S n) p log
  = (replicate (S n) asset,
     ProvidedAsset.newProvided (ProvidedAsset.supply p) (ProvidedAsset.rank p)
       (ProvidedAsset.evaluator p) (Some asset),
     log ++ [evaluatorRef (ProvidedAsset.evaluator p)]).
Proof.
  intros Hp asset. simpl. unfold ProvidedAsset.get at 1. rewrite Hp.
  by rewrite (Provided_get_evaluated _ asset) by done.
Qed.

Lemma cxSingle_get_cached byDefault (target : Target (Evaluator V)) value w :
  Single.getCache w = Some value ->
  Single.callOptional (Single.get (Single.cxSingle byDefault target)) w
  = (Ok value, w).
Proof. intros H. simpl. unfold Single.lazyValue. by rewrite H. Qed.

Lemma cxSingle_get_first byDefault (target : Target (Evaluator V)) :
  exists value l1 l2,
    Single.collectAssets target = l1 ++ l2
    /\ Single.callOptional (Single.get (Single.cxSingle byDefault target))
         Single.freshScope
       = (Ok value,
          Single.newScope (Some value) None (Single.evaluatorCalls (rev l2))).
Proof.
  destruct (lastPresent_calls (Single.collectAssets target) [] undefined
              Single.freshScope) as (v & l1 & l2 & Hl & Heq).
  exists v, l1, l2. split; [done|].
  simpl. unfold Single.lazyValue, Single.evaluateSingle. simpl.
  rewrite app_nil_r in Heq. rewrite Heq. reflexivity.
Qed.

End MemoProps.

(** C8. Evaluation is memoized. Whatever consumers read one seed of
    [iterativeSeed], each with its own demand, every one gets the sources
    of the same evaluation and the providers called are an initial part of
    the registered ones, each called once. A provided asset's [get()]
    called again and again calls the evaluator the first time only and
    returns the same asset every time. The first [get()] of a [cxSingle]
    definition calls evaluators of a final part of the collected ones,
    each once, and keeps the value; every later [get()] of the scope
    returns that value and calls nothing, whatever the assets are by then. *)
Theorem evaluation_memoized :
  (forall (Ctx Src : Type) (providerFn : Ref -> Ctx -> Nullable Src)
          (context : Ctx) (providers : list Ref) (demands : list nat),
      let '(results, seed) :=
        Iterative.consumers providerFn context demands
          (Iterative.newSeed (Iterative.iterativeSeed providers) []) in
      results
      = map (fun demand =>
               take demand
                 (Iterative.presentSources providerFn context providers))
            demands
      /\ exists n, Iterative.calls seed = take n providers)
  /\ (forall (V : Type) (p : ProvidedAsset.Provided V) (log : list Ref)
             (n : nat),
      ProvidedAsset.evaluated p = None ->
      let '(assets, p', log') := ProvidedAsset.getTimes (S n) p log in
      assets = replicate (S n) (Asset.evaluate (ProvidedAsset.evaluator p))
      /\ log' = log ++ [Asset.evaluatorRef (ProvidedAsset.evaluator p)])
  /\ (forall (V : Type) (byDefault : option (Nullable V))
             (target : Asset.Target (Asset.Evaluator V)),
      let get t :=
        Single.callOptional (Single.get (Single.cxSingle byDefault t)) in
      exists value l1 l2 w1,
        Single.collectAssets target = l1 ++ l2
        /\ get target Single.freshScope = (Ok value, w1)
        /\ Single.calls w1 = Single.evaluatorCalls (rev l2)
        /\ forall target', get target' w1 = (Ok value, w1)).
Proof.
  split; [|split].
  - intros Ctx Src providerFn context providers demands.
    rewrite <- (seedAfter_0 providerFn context providers).
    destruct (consumers_seedAfter providerFn context providers demands 0)
      as [n' ->].
    split; [done|]. by exists n'.
  - intros V p log n Hp. rewrite Provided_get_once by done. done.
  - intros V byDefault target get.
    destruct (cxSingle_get_first byDefault target) as (v & l1 & l2 & Hl & Heq).
    exists v, l1, l2, (Single.newScope (Some v) None
                         (Single.evaluatorCalls (rev l2))).
    split; [done|]. split; [done|]. split; [done|].
    intros target'. by apply cxSingle_get_cached.
Qed.

(** A run of C8: three calls of [get()] on a provided asset evaluate it
    once. *)
Lemma evaluation_memoized_witness :
  let '(assets, p', log') :=
    ProvidedAsset.getTimes 3
      (ProvidedAsset.newProvided 0 0 (Asset.newEvaluator 4 (present 9)) None)
      [] in
  assets = replicate 3 (present 9) /\ log' = [] ++ [4].
Proof.
  exact (proj1 (proj2 evaluation_memoized) nat
           (ProvidedAsset.newProvided 0 0 (Asset.newEvaluator 4 (present 9))
              None)
           [] 2 eq_refl).
Defined.

(** ** The dynamic definer *)

Section DynamicProps.

Import Asset Dynamic.

Context {TAsset TState TValue : Type}.
Variable create : option (list TAsset -> TState).
Variable byDefault : option TState.
Variable access : option (Getter TState TValue).
Variable cxRecent_access : Getter TState TValue.
Variable asState : list TAsset -> TState.
Variable methodValue : CxRequestMethod -> Z.
Variable entry : Ref.

Local Abbreviation World := (World TAsset TState).
Local Abbreviation step :=
  (step create byDefault access cxRecent_access asState methodValue entry).
Local Abbreviation run :=
  (run create byDefault access cxRecent_access asState methodValue entry).
Local Abbreviation assignBy :=
  (assignBy create byDefault access cxRecent_access asState methodValue entry).
Local Abbreviation callGetAssign :=
  (callGetAssign create byDefault asState entry).
Local Abbreviation receiveList := (receiveList create asState entry).
Local Abbreviation changeList := (changeList create asState entry).
Local Abbreviation provide := (provide create asState entry).
Local Abbreviation revoke := (revoke create asState entry).
Local Abbreviation dead := (dead (TAsset:=TAsset) (TState:=TState)).
Local Abbreviation failure := (unavailableFailure entry).

Lemma off_dead (reason : option Ref) (w : World) :
  supplyOff w = None -> dead reason (off reason w).
Proof. intros H. unfold off. rewrite H. by repeat split. Qed.

Lemma changeList_untracked assetList (w : World) :
  tracking w = false ->
  vars (changeList assetList w) = vars w
  /\ tracking (changeList assetList w) = false
  /\ supplyOff (changeList assetList w) = supplyOff w.
Proof. intros H. unfold Dynamic.changeList. simpl. rewrite H. done. Qed.

Lemma step_dead (reason : option Ref) (e : Event TAsset) (w : World) :
  dead reason w ->
  dead reason (snd (step e w))
  /\ (isAccess e = true -> fst (step e w) = Throw (failure reason)).
Proof.
  intros (Hv & Ht & Hs).
  destruct e as [asset|s|r| |]; simpl.
  - split; [|done]. unfold Dynamic.provide. rewrite Hs. by repeat split.
  - split; [|done]. unfold Dynamic.revoke.
    match goal with
    | |- Dynamic.dead _ (Dynamic.changeList _ _ _ ?l ?w1) =>
        destruct (changeList_untracked l w1 Ht) as (Hv' & Ht' & Hs')
    end. unfold Dynamic.dead. by rewrite Hv', Ht', Hs'.
  - split; [|done]. unfold off. by rewrite Hs.
  - unfold assign, Dynamic.assignBy, bind, Dynamic.callGetAssign.
    rewrite Hv. simpl. by repeat split.
  - unfold assignDefault, Dynamic.assignBy, bind, Dynamic.callGetAssign.
    rewrite Hv. simpl. by repeat split.
Qed.

Lemma run_dead (reason : option Ref) (events : list (Event TAsset)) :
  forall w : World,
    dead reason w ->
    dead reason (snd (run events w))
    /\ Forall2 (fun e r => isAccess e = true -> r = Throw (failure reason))
         events (fst (run events w)).
Proof.
  induction events as [|e events IH]; intros w Hw; simpl.
  - by split.
  - destruct (step_dead reason e w Hw) as [Hw1 He].
    destruct (step e w) as [r w1] eqn:Hstep. simpl in *.
    destruct (IH w1 Hw1) as [Hw2 Hall].
    destruct (run events w1) as [rs w2]. simpl in *.
    split; [done|]. by constructor.
Qed.


Lemma dead_accessors (reason : option Ref) (w : World) :
  dead reason w ->
  fst (callGetState asState entry w) = Throw (failure reason)
  /\ fst (callGetDefaultState asState entry w) = Throw (failure reason)
  /\ fst (callGetValue access cxRecent_access asState entry w)
     = Throw (failure reason)
  /\ fst (callGetDefaultValue access cxRecent_access asState entry w)
     = Throw (failure reason)
  /\ fst (callGetAssign w) = Throw (failure reason).
Proof.
  intros (Hv & _ & _).
  unfold callGetState, callGetDefaultState, callGetValue, callGetDefaultValue,
    Dynamic.callGetAssign.
  rewrite Hv. simpl. done.
Qed.

(** C3. Once [target.supply] is cut off with a reason, whatever the
    definition held before (cached states included): the five accessor
    variables hold the failing function, and from then on, whatever events
    follow, every access to the value or to the default fails with the
    [CxReferenceError] of the entry that carries that reason, and so does a
    call of [getState], [getValue], [getDefaultValue] or [getAssign]. *)
Theorem cxDynamic_unavailable_after_off (w : World) (reason : option Ref)
  (events : list (Event TAsset)) :
  supplyOff w = None ->
  let w0 := off reason w in
  let results := fst (run events w0) in
  let w' := snd (run events w0) in
  vars w0 = newClosure (unavailableState reason)
              (Some (unavailableState reason)) (unavailableValue reason)
              (unavailableValue reason) (unavailableAssign reason)
  /\ Forall2 (fun e r => isAccess e = true -> r = Throw (failure reason))
       events results
  /\ fst (callGetState asState entry w') = Throw (failure reason)
  /\ fst (callGetValue access cxRecent_access asState entry w')
     = Throw (failure reason)
  /\ fst (callGetDefaultValue access cxRecent_access asState entry w')
     = Throw (failure reason)
  /\ fst (callGetAssign w') = Throw (failure reason).
Proof.
  intros Halive w0 results w'.
  pose proof (off_dead reason w Halive) as Hdead.
  destruct (run_dead reason events w0 Hdead) as [Hdead' Hall].
  destruct (dead_accessors reason w' Hdead') as (H1 & _ & H3 & H4 & H5).
  split; [apply Hdead|]. done.
Qed.

(** *** [create] on every change, [byDefault] once *)

Lemma changeList_tracked assetList (w : World) :
  tracking w = true ->
  let w' := changeList assetList w in
  providedList w' = assetList
  /\ createCalls w'
     = createCalls w ++ match collectList entry assetList with
                        | [] => []
                        | assets => [assets]
                        end
  /\ getState (vars w')
     = Some (match collectList entry assetList with
             | [] => getDefaultState (vars w)
             | assets => constState (createState create asState assets)
             end)
  /\ method w' = Some (requestMethod (collectList entry assetList)).
Proof.
  intros Ht. unfold Dynamic.changeList. simpl. rewrite Ht.
  unfold Dynamic.receiveList. simpl.
  destruct (collectList entry assetList) as [|a assets]; simpl.
  - by rewrite app_nil_r.
  - done.
Qed.

Lemma preserves_ret {W A} (P : W -> Prop) (a : A) : preserves P (ret a).
Proof. by intros w H. Qed.

Lemma preserves_throw {W A} (P : W -> Prop) t : preserves P (throw (A:=A) t).
Proof. by intros w H. Qed.

Lemma preserves_read {W A} (P : W -> Prop) (f : W -> A) : preserves P (read f).
Proof. by intros w H. Qed.

Lemma preserves_bind {W A B} (P : W -> Prop) (c : M W A) (k : A -> M W B) :
  preserves P c -> (forall a, preserves P (k a)) -> preserves P (bind c k).
Proof.
  intros Hc Hk w H. unfold bind. specialize (Hc w H).
  destruct (c w) as [[a|t] w1]; simpl in *; [by apply Hk|done].
Qed.

Lemma preserves_modify {W} (P : W -> Prop) (f : W -> W) :
  (forall w, P w -> P (f w)) -> preserves P (modify f).
Proof. intros Hf w H. by apply Hf. Qed.

Lemma runGetter_preserves (P : World -> Prop) (get : M World TState)
  (g : Getter TState TValue) :
  preserves P get -> preserves P (runGetter g get).
Proof.
  intros Hget. induction g as [v|next IH]; simpl.
  - apply preserves_ret.
  - apply preserves_bind; [done|]. intros a. apply IH.
Qed.

(** A property kept by the calls of the state functions, by the lazy
    initializer of [getAssign] and by the target's events is kept by every
    event of a definition. *)
Section Kept.

Variable P : World -> Prop.
Hypothesis P_state : forall g, preserves P (callStateGetter asState entry g).
Hypothesis P_assign : preserves P callGetAssign.
Hypothesis P_change : forall assetList w, P w -> P (changeList assetList w).
Hypothesis P_next : forall w next,
  P w ->
  P (newWorld (vars w) (method w) (defaultStateCache w) (assignCache w)
       (providedList w) next (tracking w) (supplyOff w)
       (createCalls w) (byDefaultCalls w)).
Hypothesis P_off : forall reason w, P w -> P (off reason w).

Lemma callValueGetter_kept (g : ValueGetter) :
  preserves P (callValueGetter access cxRecent_access asState entry g).
Proof.
  destruct g; simpl.
  - apply runGetter_preserves. intros w H. by apply P_state.
  - apply runGetter_preserves. intros w H. unfold callGetState.
    destruct (getState (vars w)); [by apply P_state|done].
  - apply preserves_throw.
Qed.

Lemma assignBy_kept (isDefault : bool) : preserves P (assignBy isDefault).
Proof.
  unfold Dynamic.assignBy.
  apply preserves_bind; [apply P_assign|].
  intros [|]; destruct isDefault.
  - apply preserves_bind; [|intros; apply preserves_ret].
    intros w H. by apply callValueGetter_kept.
  - apply preserves_bind.
    { intros w H. by apply callValueGetter_kept. }
    intros v. apply preserves_bind; [apply preserves_read|].
    intros; apply preserves_ret.
  - apply preserves_ret.
  - apply preserves_bind; [apply preserves_read|]. intros m.
    destruct (methodPositive methodValue m); [|apply preserves_ret].
    apply preserves_bind.
    { intros w H. by apply callValueGetter_kept. }
    intros v. apply preserves_bind; [apply preserves_read|].
    intros; apply preserves_ret.
Qed.

Lemma step_kept (e : Event TAsset) : preserves P (step e).
Proof.
  destruct e as [asset|s|r| |]; simpl.
  - apply preserves_bind; [|intros; apply preserves_ret].
    apply preserves_modify. intros w H. unfold Dynamic.provide.
    destruct (supplyOff w) eqn:Hs; [done|].
    assert (Hn : forall next,
               P (newWorld (vars w) (method w) (defaultStateCache w)
                    (assignCache w) (providedList w) next (tracking w) None
                    (createCalls w) (byDefaultCalls w))).
    { intros next. rewrite <- Hs. by apply P_next. }
    destruct (supply asset); destruct (Nat.eqb _ entry);
      try apply P_change; apply Hn.
  - apply preserves_bind; [|intros; apply preserves_ret].
    apply preserves_modify. intros w H. by apply P_change.
  - apply preserves_bind; [|intros; apply preserves_ret].
    apply preserves_modify. intros w H. by apply P_off.
  - apply assignBy_kept.
  - apply assignBy_kept.
Qed.

Lemma run_kept (events : list (Event TAsset)) :
  forall w, P w -> P (snd (run events w)).
Proof.
  induction events as [|e events IH]; intros w H; simpl; [done|].
  pose proof (step_kept e w H) as H1.
  destruct (step e w) as [r w1]. simpl in H1.
  specialize (IH w1 H1). by destruct (run events w1).
Qed.

End Kept.

Local Abbreviation defaultOnce :=
  (defaultOnce (TAsset:=TAsset) (TState:=TState)).

Lemma callStateGetter_defaultOnce (g : StateGetter) :
  preserves defaultOnce (callStateGetter asState entry g).
Proof.
  intros w H. destruct g as [result| |state|reason]; simpl; try done.
  unfold Dynamic.defaultOnce, targetLazy in *.
  destruct (defaultStateCache w) eqn:Hc; simpl; [by rewrite Hc|]. by rewrite H.
Qed.

Lemma receiveList_defaultOnce assetList (w : World) :
  defaultOnce w -> defaultOnce (receiveList assetList w).
Proof.
  unfold Dynamic.receiveList, Dynamic.defaultOnce.
  by destruct (collectList entry assetList).
Qed.

Lemma changeList_defaultOnce assetList (w : World) :
  defaultOnce w -> defaultOnce (changeList assetList w).
Proof.
  intros H. unfold Dynamic.changeList. simpl.
  destruct (tracking w); [by apply receiveList_defaultOnce|done].
Qed.

Lemma callGetAssign_defaultOnce : preserves defaultOnce callGetAssign.
Proof.
  intros w H. unfold Dynamic.callGetAssign.
  destruct (getAssign (vars w)); [|done].
  unfold targetLazy.
  destruct (assignCache w) eqn:Hc; [done|].
  pose proof (receiveList_defaultOnce (providedList w)
    (newWorld (vars w) (method w) (defaultStateCache w) (assignCache w)
       (providedList w) (nextSupply w) true (supplyOff w)
       (createCalls w) (byDefaultCalls w)) H) as H1.
  unfold initAssign, bind, trackAssetList, ret, storeAssign.
  unfold Dynamic.defaultOnce in *. simpl in *. exact H1.
Qed.

Lemma run_defaultOnce (events : list (Event TAsset)) (w : World) :
  defaultOnce w -> defaultOnce (snd (run events w)).
Proof.
  apply run_kept.
  - apply callStateGetter_defaultOnce.
  - apply callGetAssign_defaultOnce.
  - apply changeList_defaultOnce.
  - done.
  - intros reason w' H. unfold off. by destruct (supplyOff w').
Qed.

Lemma perContext_defaultOnce provided next cutOff :
  defaultOnce (perContext create byDefault provided next cutOff).
Proof. unfold perContext. by destruct cutOff. Qed.

Lemma defaultOnce_le (w : World) : defaultOnce w -> byDefaultCalls w <= 1.
Proof. unfold Dynamic.defaultOnce. destruct (defaultStateCache w); lia. Qed.

(** Once [target.supply] is cut off it stays so, with its reason. *)
Lemma run_supplyOff (events : list (Event TAsset)) (w : World) r :
  supplyOff w = Some r -> supplyOff (snd (run events w)) = Some r.
Proof.
  apply (run_kept (fun w => supplyOff w = Some r)).
  - intros g w' H. destruct g; simpl; try done.
    unfold targetLazy. by destruct (defaultStateCache w').
  - intros w' H. unfold Dynamic.callGetAssign.
    destruct (getAssign (vars w')); [|done].
    unfold targetLazy.
    destruct (assignCache w'); [done|]. simpl.
    unfold Dynamic.receiveList. by destruct (collectList _ _).
  - intros l w' H. unfold Dynamic.changeList. simpl.
    destruct (tracking w'); [|done].
    unfold Dynamic.receiveList. by destruct (collectList _ _).
  - done.
  - intros reason w' H. unfold off. by rewrite H.
Qed.

(** C4. While the asset list is tracked, every addition of an asset for
    the entry and every revocation calls the user's [create] once more
    ([cxDynamic$create] when none was given), with all the assets the list
    then holds, exactly when there is at least one; the state kept is the
    one that function returned. An asset for another entry changes
    nothing. [byDefault] is called at most once in a context, whatever
    events the definition goes through. *)
Theorem cxDynamic_create_each_change_default_once :
  let made assets :=
    match create with
    | Some f => f assets
    | None => asState assets
    end in
  (forall (w : World) (asset : CxAsset TAsset),
      tracking w = true ->
      supplyOff w = None ->
      Asset.entry asset = entry ->
      let w' := provide asset w in
      let assets := collectList entry (providedList w') in
      (exists s, providedList w' = providedList w ++ [newProvided asset s 0])
      /\ createCalls w'
         = createCalls w ++ match assets with [] => [] | _ => [assets] end
      /\ (assets <> [] -> getState (vars w') = Some (constState (made assets))))
  /\ (forall (w : World) (asset : CxAsset TAsset),
      Asset.entry asset <> entry ->
      let w' := provide asset w in
      providedList w' = providedList w
      /\ createCalls w' = createCalls w
      /\ vars w' = vars w)
  /\ (forall (w : World) (s : Ref),
      tracking w = true ->
      let w' := revoke s w in
      let assets := collectList entry (providedList w') in
      providedList w' = filter (fun p => providedSupply p <> s) (providedList w)
      /\ createCalls w'
         = createCalls w ++ match assets with [] => [] | _ => [assets] end
      /\ (assets <> [] -> getState (vars w') = Some (constState (made assets))))
  /\ (forall provided next cutOff (events : list (Event TAsset)),
      byDefaultCalls
        (snd (run events (perContext create byDefault provided next cutOff)))
      <= 1).
Proof.
  intros made.
  assert (Hmade : forall assets, createState create asState assets = made assets).
  { intros assets. unfold made, createState, cxDynamic_create.
    by destruct create. }
  split_and!.
  - intros w asset Ht Hs He w' assets. subst w' assets.
    unfold Dynamic.provide. rewrite Hs, He, Nat.eqb_refl.
    destruct (supply asset) as [s|];
      match goal with
      | |- context [Dynamic.changeList _ _ _ ?l ?w1] =>
          destruct (changeList_tracked l w1 Ht) as (H1 & H2 & H3 & _)
      end; rewrite H1, H2, H3; simpl;
      (split; [eauto|]);
      (split; [by destruct (collectList entry _)|]);
      rewrite <- Hmade; by destruct (collectList entry _).
  - intros w asset He w'. subst w'. unfold Dynamic.provide.
    apply Nat.eqb_neq in He. rewrite He.
    destruct (supplyOff w); [done|]. by destruct (supply asset).
  - intros w s Ht w' assets. subst w' assets. unfold Dynamic.revoke.
    destruct (changeList_tracked
                (filter (fun p => providedSupply p <> s) (providedList w)) w Ht)
      as (H1 & H2 & H3 & _).
    rewrite H1, H2, H3.
    split; [done|].
    split; [by destruct (collectList entry _)|].
    rewrite <- Hmade. by destruct (collectList entry _).
  - intros provided next cutOff events.
    apply defaultOnce_le, run_defaultOnce, perContext_defaultOnce.
Qed.

End DynamicProps.

(** ** The receiver's loop over the provided assets *)

Section CollectProps.

Import Asset Dynamic.

Context {TElement : Type}.
Variable entry : Ref.

Lemma collectInto_app (acc : list TElement) (l1 l2 : list (Provided TElement)) :
  collectInto entry acc (l1 ++ l2)
  = collectInto entry (collectInto entry acc l1) l2.
Proof. unfold collectInto. by rewrite fold_left_app. Qed.

Lemma collectInto_const (acc : list TElement) e (value : Nullable TElement)
  sup s r (l : list (Provided TElement)) :
  collectInto entry acc (newProvided (cxConstAsset e value sup) s r :: l)
  = collectInto entry
      (acc ++ match value with present v => [v] | _ => [] end) l.
Proof. unfold collectInto. destruct value; simpl; by rewrite ?app_nil_r. Qed.

End CollectProps.

(** ** Constant assets without a value *)

Section ConstAssetProps.

Import Asset.

Lemma eachAsset_nothing {A S} (e e' : Ref) (value : Nullable A) sup
  (l1 l2 : list (CxAsset A)) (callback : Collector A S) (s : S) :
  isPresent value = false ->
  eachAsset (newTarget e (l1 ++ cxConstAsset e' value sup :: l2)) callback s
  = eachAsset (newTarget e (l1 ++ l2)) callback s.
Proof.
  intros Hv. unfold eachAsset. simpl. rewrite !fold_left_app. simpl.
  f_equal. f_equal.
  destruct value; [| |done]; simpl;
    by destruct (snd (fold_left _ l1 (s, true))).
Qed.

(** With a constant asset without a value among the provided ones, the
    single-valued definer evaluates as without it. *)
Lemma cxSingle_nothing {V} (e e' : Ref) (value : Nullable (Evaluator V)) sup
  (l1 l2 : list (CxAsset (Evaluator V))) :
  isPresent value = false ->
  Single.evaluateSingle (newTarget e (l1 ++ cxConstAsset e' value sup :: l2))
  = Single.evaluateSingle (newTarget e (l1 ++ l2)).
Proof.
  intros Hv. unfold Single.evaluateSingle, Single.collectAssets.
  by rewrite eachAsset_nothing.
Qed.

(** C10. [cxConstAsset] with [null] or [undefined] makes an asset whose
    placement leaves every collector uncalled: whatever the collector would
    do to what it closes over, nothing is done, and a collector that counts
    its calls stays at zero. With such an asset provided anywhere among the
    others, [target.eachAsset] passes the same assets to any callback, a
    [cxSingle] definition evaluates the same, and the receiver of a
    [cxDynamic] definition collects the same assets and leaves the same
    state, whatever the options of the definer. *)
Theorem cxConstAsset_nothing_places_nothing {A : Type} (e : Ref)
  (value : Nullable A) (sup : option Ref) :
  isPresent value = false ->
  (forall (target : Ref) (S : Type) (collector : Collector A S) (s : S),
      placeAsset (cxConstAsset e value sup) target S collector s = s)
  /\ (forall target : Ref,
      placeAsset (cxConstAsset e value sup) target nat
        (fun _ calls => (None, S calls)) 0 = 0)
  /\ (forall (S : Type) (t : Ref) (l1 l2 : list (CxAsset A))
             (callback : Collector A S) (s : S),
      eachAsset (newTarget t (l1 ++ cxConstAsset e value sup :: l2)) callback s
      = eachAsset (newTarget t (l1 ++ l2)) callback s)
  /\ (forall (TState : Type) (create : option (list A -> TState))
             (asState : list A -> TState) (t : Ref) (s : Ref) (r : nat)
             (l1 l2 : list (Dynamic.Provided A))
             (w : Dynamic.World A TState),
      Dynamic.collectList t
        (l1 ++ Dynamic.newProvided (cxConstAsset e value sup) s r :: l2)
      = Dynamic.collectList t (l1 ++ l2)
      /\ Dynamic.receiveList create asState t
           (l1 ++ Dynamic.newProvided (cxConstAsset e value sup) s r :: l2) w
         = Dynamic.receiveList create asState t (l1 ++ l2) w)
  /\ (forall (V : Type) (nothing : Nullable (Evaluator V))
             (byDefault : option (Nullable V)) (t : Ref)
             (l1 l2 : list (CxAsset (Evaluator V))),
      isPresent nothing = false ->
      Single.cxSingle byDefault
        (newTarget t (l1 ++ cxConstAsset e nothing sup :: l2))
      = Single.cxSingle byDefault (newTarget t (l1 ++ l2))).
Proof.
  intros Hv. split; [|split; [|split; [|split]]].
  - intros target S collector s. by destruct value.
  - intros target. by destruct value.
  - intros S t l1 l2 callback s. by apply eachAsset_nothing.
  - intros TState create asState t s r l1 l2 w.
    assert (Hc : Dynamic.collectList t
                   (l1 ++ Dynamic.newProvided (cxConstAsset e value sup) s r
                       :: l2)
                 = Dynamic.collectList t (l1 ++ l2)).
    { unfold Dynamic.collectList, Dynamic.collectInto.
      rewrite !fold_left_app. simpl. f_equal.
      unfold Dynamic.Provided_eachAsset. simpl. by destruct value. }
    split; [done|]. unfold Dynamic.receiveList. by rewrite Hc.
  - intros V nothing byDefault t l1 l2 Hn. unfold Single.cxSingle.
    by rewrite cxSingle_nothing.
Qed.

End ConstAssetProps.

(** ** The updatable single-value key *)

Section UpKeyProps.

Import UpKey.

Context {TValue : Type}.
Variable truthy : TValue -> bool.

(** C6. For a slot without sources whose fallback is [null] or
    [undefined]: when the request has a fallback ([slot.hasFallback]), the
    value grown for the key throws the [ContextKeyError] of the key on
    reading, and [byDefault] is not called, whatever default the key has;
    and when the key has no default the reading throws that error whether
    or not the request has a fallback. *)
Theorem SingleContextUpKey_rejects_null_fallback
  (this : SingleContextUpKey TValue) (slot : ContextValueSlot TValue) :
  seed slot = [] ->
  isPresent (or slot) = false ->
  (hasFallback slot = true ->
   readValue (grow truthy this slot) = Throw (ContextKeyError (keyRef this))
   /\ snd (dig truthy this slot (seed slot)) = false)
  /\ (isPresent (byDefault this) = false ->
      readValue (grow truthy this slot)
      = Throw (ContextKeyError (keyRef this))).
Proof.
  intros Hseed Hor. unfold grow, dig. rewrite Hseed. simpl. split.
  - intros ->. destruct (or slot); [| |done];
      by destruct (contextSupply slot).
  - intros Hd. destruct (hasFallback slot).
    + destruct (or slot); [| |done]; by destruct (contextSupply slot).
    + destruct (byDefault this); [| |done]; by destruct (contextSupply slot).
Qed.

End UpKeyProps.

(** ** Seeds as iterables *)

Section SeedingProps.

Import Iterative Seeding.

Context {Ctx Src : Type}.
Variable providerFn : Ref -> Ctx -> Nullable Src.

Local Abbreviation Heap := (Heap (Ctx:=Ctx) (Src:=Src)).
Local Abbreviation sourcesOf := (sourcesOf providerFn).
Local Abbreviation contents := (contents providerFn).
Local Abbreviation pullIter := (pullIter providerFn).

Lemma sourcesOf_cons (context : Ctx) (e : SourceEntry) (es : list SourceEntry) :
  sourcesOf (newSeedArray context (e :: es)) =
  match entryValue providerFn context e with
  | present v => v :: sourcesOf (newSeedArray context es)
  | _ => sourcesOf (newSeedArray context es)
  end.
Proof.
  unfold Seeding.sourcesOf. simpl.
  by destruct (entryValue providerFn context e).
Qed.

(** One pass over the entries of a seed array: the consumer gets the first
    [demand] present sources, the sources of the array stay what they are,
    and each call caches one entry that was not called before. *)
Lemma pull_entries (context : Ctx) (es : list SourceEntry) :
  forall (demand : nat) (log : list Ref),
  exists es' more,
    pull providerFn context demand es log =
      (take demand (sourcesOf (newSeedArray context es)), es', log ++ more)
    /\ sourcesOf (newSeedArray context es')
       = sourcesOf (newSeedArray context es)
    /\ length more + uncalled es' = uncalled es.
Proof.
  induction es as [|[p c] es IH]; intros demand log.
  - exists [], []. destruct demand; simpl; by rewrite app_nil_r.
  - destruct demand as [|d].
    { exists ((p, c) :: es), []. simpl. by rewrite app_nil_r. }
    rewrite sourcesOf_cons.
    destruct c as [source|]; simpl.
    + destruct source as [| |v].
      * destruct (IH (S d) log) as (es' & more & -> & Hs & Hu).
        exists ((p, Some undefined) :: es'), more.
        rewrite !sourcesOf_cons. simpl. by rewrite Hs.
      * destruct (IH (S d) log) as (es' & more & -> & Hs & Hu).
        exists ((p, Some null) :: es'), more.
        rewrite !sourcesOf_cons. simpl. by rewrite Hs.
      * destruct (IH d log) as (es' & more & -> & Hs & Hu).
        exists ((p, Some (present v)) :: es'), more.
        rewrite !sourcesOf_cons. simpl. by rewrite Hs.
    + destruct (providerFn p context) as [| |v] eqn:Hp.
      * destruct (IH (S d) (log ++ [p])) as (es' & more & -> & Hs & Hu).
        exists ((p, Some undefined) :: es'), (p :: more).
        rewrite !sourcesOf_cons. simpl. rewrite Hs, <- app_assoc. simpl.
        split_and!; [done|done|lia].
      * destruct (IH (S d) (log ++ [p])) as (es' & more & -> & Hs & Hu).
        exists ((p, Some null) :: es'), (p :: more).
        rewrite !sourcesOf_cons. simpl. rewrite Hs, <- app_assoc. simpl.
        split_and!; [done|done|lia].
      * destruct (IH d (log ++ [p])) as (es' & more & -> & Hs & Hu).
        exists ((p, Some (present v)) :: es'), (p :: more).
        rewrite !sourcesOf_cons. simpl. rewrite Hs, <- app_assoc. simpl.
        split_and!; [done|done|lia].
Qed.

Lemma contents_insert (h : Heap) (i : nat) (a a' : SeedArray) (log : list Ref) :
  arrays h !! i = Some a ->
  sourcesOf a' = sourcesOf a ->
  forall it,
    contents (newHeap (<[i := a']> (arrays h)) log) it = contents h it.
Proof.
  intros Hi Hs it. induction it as [vs|j|a1 IH1 a2 IH2]; simpl.
  - done.
  - destruct (decide (i = j)) as [<-|Hne].
    + rewrite list_lookup_insert_eq by by eapply lookup_lt_Some.
      by rewrite Hi.
    + by rewrite list_lookup_insert_ne.
  - by rewrite IH1, IH2.
Qed.

Lemma pendingCalls_insert (h : Heap) (i : nat) (a a' : SeedArray)
  (log : list Ref) (n : nat) :
  arrays h !! i = Some a ->
  n + uncalled (seedEntries a') = uncalled (seedEntries a) ->
  n + pendingCalls (newHeap (<[i := a']> (arrays h)) log) = pendingCalls h.
Proof.
  unfold pendingCalls. simpl. generalize (arrays h). clear h.
  intros l. revert i. induction l as [|x l IH]; intros i Hi Hn; [done|].
  destruct i as [|i]; simpl in *.
  - injection Hi as ->. lia.
  - specialize (IH i Hi Hn). lia.
Qed.

(** What one consumer does to the heap and gets from it. *)
Lemma pullIter_spec (it : AIterable) : forall (demand : nat) (h : Heap),
  exists h' more,
    pullIter demand it h = (take demand (contents h it), h')
    /\ (forall other, contents h' other = contents h other)
    /\ called h' = called h ++ more
    /\ length more + pendingCalls h' = pendingCalls h.
Proof.
  induction it as [vs|i|a IHa b IHb]; intros demand h; simpl.
  - exists h, []. by rewrite app_nil_r.
  - destruct (arrays h !! i) as [arr|] eqn:Hi.
    + destruct (pull_entries (seedContext arr) (seedEntries arr) demand
                  (called h)) as (es' & more & Hp & Hs & Hu).
      rewrite Hp. eexists _, more. split_and!.
      * by destruct arr.
      * intros other. apply (contents_insert h i arr); [done|].
        rewrite Hs. by destruct arr.
      * done.
      * by apply (pendingCalls_insert h i arr).
    + exists h, []. rewrite take_nil, app_nil_r. by destruct h.
  - destruct (IHa demand h) as (h1 & more1 & -> & Hc1 & Hl1 & Hn1).
    rewrite length_take.
    destruct (Nat.ltb_spec (demand `min` length (contents h a)) demand)
      as [Hlt|Hge].
    + destruct (IHb (demand - demand `min` length (contents h a)) h1)
        as (h2 & more2 & -> & Hc2 & Hl2 & Hn2).
      exists h2, (more1 ++ more2). split_and!.
      * rewrite Hc1. rewrite take_app_ge by lia.
        rewrite take_ge by lia. do 3 f_equal. lia.
      * intros other. by rewrite Hc2, Hc1.
      * by rewrite Hl2, Hl1, app_assoc.
      * rewrite length_app. lia.
    + exists h1, more1. split_and!; [|done..].
      by rewrite take_app_le by lia.
Qed.

Lemma consume_spec (requests : list (AIterable * nat)) : forall h : Heap,
  exists h' more,
    consume providerFn requests h =
      (map (fun r => take (snd r) (contents h (fst r))) requests, h')
    /\ (forall other, contents h' other = contents h other)
    /\ called h' = called h ++ more
    /\ length more + pendingCalls h' = pendingCalls h.
Proof.
  induction requests as [|[it d] rest IH]; intros h; simpl.
  - exists h, []. by rewrite app_nil_r.
  - destruct (pullIter_spec it d h) as (h1 & more1 & -> & Hc1 & Hl1 & Hn1).
    destruct (IH h1) as (h2 & more2 & -> & Hc2 & Hl2 & Hn2).
    exists h2, (more1 ++ more2). split_and!.
    + do 2 f_equal. apply map_ext. intros r. by rewrite Hc1.
    + intros other. by rewrite Hc2, Hc1.
    + by rewrite Hl2, Hl1, app_assoc.
    + rewrite length_app. lia.
Qed.

Lemma sourcesOf_fresh (context : Ctx) (providers : list Ref) :
  sourcesOf (newSeedArray context (iterativeSeed providers))
  = presentSources providerFn context providers.
Proof.
  induction providers as [|p l IH]; [done|].
  change (iterativeSeed (p :: l)) with ((p, None) :: iterativeSeed (Src:=Src) l).
  rewrite sourcesOf_cons, (presentSources_cons providerFn context). simpl.
  by rewrite IH.
Qed.

Lemma uncalled_fresh (providers : list Ref) :
  uncalled (iterativeSeed (Src:=Src) providers) = length providers.
Proof. induction providers as [|p l IH]; simpl; [done|]. by rewrite IH. Qed.

Lemma contents_allocate (h : Heap) (a : SeedArray) (log : list Ref)
  (it : AIterable) :
  allocated h it ->
  contents (newHeap (arrays h ++ [a]) log) it = contents h it.
Proof.
  induction it as [vs|j|a1 IH1 a2 IH2]; simpl; [done| |].
  - intros Hj. by rewrite lookup_app_l.
  - intros [H1 H2]. by rewrite IH1, IH2.
Qed.

Lemma pendingCalls_allocate (h : Heap) (a : SeedArray) (log : list Ref) :
  pendingCalls (newHeap (arrays h ++ [a]) log)
  = pendingCalls h + uncalled (seedEntries a).
Proof.
  unfold pendingCalls. simpl. induction (arrays h) as [|x l IH]; simpl; lia.
Qed.

Lemma pull_one_fresh (context : Ctx) (providers : list Ref) (log : list Ref) :
  snd (pull providerFn context 1 (iterativeSeed providers) log)
  = log ++ untilPresent providerFn context providers.
Proof.
  revert log. induction providers as [|p l IH]; intros log; simpl.
  - by rewrite app_nil_r.
  - destruct (providerFn p context) as [| |v] eqn:Hp; simpl.
    + specialize (IH (log ++ [p])).
      destruct (pull providerFn context 1 (iterativeSeed l) (log ++ [p]))
        as [[vs es] log'].
      simpl in *. by rewrite IH, <- app_assoc.
    + specialize (IH (log ++ [p])).
      destruct (pull providerFn context 1 (iterativeSeed l) (log ++ [p]))
        as [[vs es] log'].
      simpl in *. by rewrite IH, <- app_assoc.
    + by destruct l.
Qed.

(** X2: whatever consumers read whatever iterables, one after the other,
    each of them gets the first [demand] elements of the one sequence its
    iterable stands for, and reading changes the sequence of no iterable. *)
Theorem consumers_read_fixed_sequences (requests : list (AIterable * nat))
  (h : Heap) :
  fst (consume providerFn requests h)
  = map (fun r => take (snd r) (contents h (fst r))) requests
  /\ forall other,
       contents (snd (consume providerFn requests h)) other = contents h other.
Proof.
  destruct (consume_spec requests h) as (h' & more & -> & Hc & _).
  done.
Qed.

Lemma pull_all_fresh (context : Ctx) (l : list Ref) :
  forall (demand : nat) (log : list Ref),
    length l < demand ->
    pull providerFn context demand (iterativeSeed l) log
    = (presentSources providerFn context l,
       cachedEntries providerFn context l, log ++ l).
Proof.
  induction l as [|p l IH]; intros demand log Hd.
  - destruct demand; simpl; by rewrite app_nil_r.
  - destruct demand as [|d]; [simpl in Hd; lia|].
    simpl in Hd. rewrite (presentSources_cons providerFn context). simpl.
    destruct (providerFn p context) as [| |v] eqn:Hp.
    + rewrite (IH (S d)) by lia. by rewrite <- app_assoc.
    + rewrite (IH (S d)) by lia. by rewrite <- app_assoc.
    + rewrite (IH d) by lia. by rewrite <- app_assoc.
Qed.

Lemma pull_all_cached (context : Ctx) (l : list Ref) (demand : nat)
  (log : list Ref) :
  length l < demand ->
  pull providerFn context demand (cachedEntries providerFn context l) log
  = (presentSources providerFn context l,
     cachedEntries providerFn context l, log).
Proof.
  intros Hd.
  destruct (pull_cached providerFn context l [] demand log) as [k Hk].
  rewrite take_nil, drop_nil, !app_nil_r in Hk. rewrite Hk.
  rewrite take_ge; [done|].
  pose proof (presentSources_length providerFn context l). lia.
Qed.

(** X3: over any sequence of consumers the log of provider calls only
    grows, and every call made is the first call of an entry that was not
    called before: the calls made and the entries still uncalled add up to
    the entries uncalled at the start. No entry of a seed has its provider
    called twice, also when iterables share the seed. The entries are the
    seed's own: of two seeds made from one seeder each calls the providers
    once, so that reading the first seed twice and the second once, to the
    end, calls every provider twice. *)
Theorem consumers_call_each_entry_once (requests : list (AIterable * nat))
  (h : Heap) :
  (exists more,
      called (snd (consume providerFn requests h)) = called h ++ more
      /\ length more + pendingCalls (snd (consume providerFn requests h))
         = pendingCalls h)
  /\ (forall (this : IterativeContextSeeder) (context : Ctx) (demand : nat),
      length (_providers this) < demand ->
      let '(first, h1) := seed this context overNone h in
      let '(second, h2) := seed this context overNone h1 in
      called (snd (pullIter demand first h2))
      = called h ++ _providers this
      /\ called (snd (consume providerFn
                        [(first, demand); (first, demand)] h2))
         = called h ++ _providers this
      /\ called (snd (consume providerFn
                        [(first, demand); (first, demand); (second, demand)]
                        h2))
         = called h ++ _providers this ++ _providers this).
Proof.
  split.
  { destruct (consume_spec requests h) as (h' & more & -> & _ & Hl & Hn).
    by exists more. }
  intros this context demand Hd.
  unfold seed, iterativeSeedOf. lazy beta iota zeta. cbn [arrays called].
  rewrite length_app. cbn [length]. replace (length (arrays h) + 1)
    with (S (length (arrays h))) by lia.
  set (n := length (arrays h)).
  set (l := _providers this) in *.
  set (fresh := newSeedArray context (iterativeSeed l)).
  set (cached := newSeedArray context (cachedEntries providerFn context l)).
  set (all := (arrays h ++ [fresh]) ++ [fresh]).
  set (first := flatMapAsis (Src:=Src) overNone (seedOver n)).
  set (second := flatMapAsis (Src:=Src) overNone (seedOver (S n))).
  assert (Hn : n < length all).
  { unfold all. rewrite !length_app. simpl. unfold n. lia. }
  assert (Hfirst : all !! n = Some fresh).
  { unfold all. rewrite <- app_assoc. by apply list_lookup_middle. }
  assert (Hsecond : all !! S n = Some fresh).
  { unfold all. apply list_lookup_middle. rewrite length_app. simpl.
    unfold n. lia. }
  assert (Hread : forall i a vs es log log' arrs,
             arrs !! i = Some a ->
             pull providerFn (seedContext a) demand (seedEntries a) log
             = (vs, es, log') ->
             pullIter demand (flatMapAsis overNone (seedOver i))
               (newHeap arrs log)
             = (vs, newHeap (<[i := newSeedArray (seedContext a) es]> arrs)
                      log')).
  { intros i a vs es log log' arrs Hi Hp. simpl. rewrite take_nil. simpl.
    destruct (Nat.ltb_spec 0 demand); [|lia].
    rewrite Nat.sub_0_r, Hi, Hp. reflexivity. }
  assert (HA : pullIter demand first (newHeap all (called h))
               = (presentSources providerFn context l,
                  newHeap (<[n := cached]> all) (called h ++ l))).
  { unfold first. apply (Hread n fresh); [exact Hfirst|].
    by apply pull_all_fresh. }
  assert (HB : pullIter demand first
                 (newHeap (<[n := cached]> all) (called h ++ l))
               = (presentSources providerFn context l,
                  newHeap (<[n := cached]> (<[n := cached]> all))
                    (called h ++ l))).
  { unfold first. apply (Hread n cached).
    - by apply list_lookup_insert_eq.
    - by apply pull_all_cached. }
  assert (HC : pullIter demand second
                 (newHeap (<[n := cached]> (<[n := cached]> all))
                    (called h ++ l))
               = (presentSources providerFn context l,
                  newHeap (<[S n := cached]>
                             (<[n := cached]> (<[n := cached]> all)))
                    ((called h ++ l) ++ l))).
  { unfold second. apply (Hread (S n) fresh).
    - rewrite !list_lookup_insert_ne by lia. exact Hsecond.
    - by apply pull_all_fresh. }
  cbn [consume]. rewrite HA. cbn [snd]. rewrite HB, HC. simpl.
  by rewrite <- app_assoc.
Qed.

(** X4: [seed(context, initial)] stands for the sources of [initial]
    followed by the present sources of the registered providers, in the
    order of registration; a consumer that reads it to the end gets them
    all. Making the seed calls no provider, adds one uncalled entry per
    registered provider and leaves the iterables made before as they
    were. *)
Theorem seed_initial_then_providers (this : IterativeContextSeeder)
  (context : Ctx) (initial : AIterable) (h : Heap) :
  allocated h initial ->
  let '(it, h') := seed this context initial h in
  let all := contents h initial
             ++ presentSources providerFn context (_providers this) in
  contents h' it = all
  /\ (forall demand, length all <= demand ->
        fst (pullIter demand it h') = all)
  /\ called h' = called h
  /\ pendingCalls h' = pendingCalls h + length (_providers this)
  /\ (forall other, allocated h other -> contents h' other = contents h other).
Proof.
  intros Hall. unfold seed, iterativeSeedOf. lazy beta iota zeta.
  set (a := newSeedArray context (iterativeSeed (_providers this))).
  set (h' := newHeap (arrays h ++ [a]) (called h)).
  assert (Hc : contents h' (flatMapAsis initial (seedOver (length (arrays h))))
               = contents h initial
                 ++ presentSources providerFn context (_providers this)).
  { simpl. rewrite list_lookup_middle by done.
    unfold h'. rewrite (contents_allocate h a _ initial Hall).
    unfold a. by rewrite sourcesOf_fresh. }
  split_and!.
  - exact Hc.
  - intros demand Hd.
    destruct (pullIter_spec (flatMapAsis initial (seedOver (length (arrays h))))
                demand h') as (h2 & more & -> & _).
    simpl in Hc |- *. rewrite Hc. by apply take_ge.
  - done.
  - unfold h'. rewrite pendingCalls_allocate. unfold a. simpl.
    by rewrite uncalled_fresh.
  - intros other Ho. by apply contents_allocate.
Qed.

(** X5: [isEmpty] answers whether the iterable yields nothing, and
    changes what no iterable yields. On a fresh seed without initial
    sources it calls the providers up to and including the first one that
    returns a source, and no other; on a seed whose initial iterable is an
    array with an element it calls none. *)
Theorem isEmpty_reads_first_source (this : IterativeContextSeeder)
  (context : Ctx) (h : Heap) :
  (forall it,
     fst (isEmpty providerFn it h)
     = match contents h it with [] => true | _ :: _ => false end
     /\ forall other,
          contents (snd (isEmpty providerFn it h)) other = contents h other)
  /\ (let '(it, h1) := seed this context overNone h in
      called (snd (isEmpty providerFn it h1))
      = called h ++ untilPresent providerFn context (_providers this))
  /\ (forall v vs,
        let '(it, h1) := seed this context (overArray (v :: vs)) h in
        called (snd (isEmpty providerFn it h1)) = called h).
Proof.
  split_and!.
  - intros it. unfold isEmpty, itsEmpty.
    destruct (pullIter_spec it 1 h) as (h' & more & -> & Hc & _).
    simpl. split; [|done].
    by destruct (contents h it) as [|v vs].
  - unfold seed, iterativeSeedOf, isEmpty, itsEmpty. simpl.
    rewrite list_lookup_middle by done. simpl.
    pose proof (pull_one_fresh context (_providers this) (called h)) as Hp.
    destruct (pull providerFn context 1 (iterativeSeed (_providers this))
                (called h)) as [[vs es] log].
    simpl in *. by subst log.
  - intros v vs. by unfold seed, iterativeSeedOf, isEmpty, itsEmpty.
Qed.

(** X6: [combine] is associative for every consumer: combining three
    iterables either way gives it the same elements and leaves the same
    heap, so the same providers were called. *)
Theorem combine_associative (a b c : AIterable) (demand : nat) (h : Heap) :
  pullIter demand (combine (combine a b) c) h
  = pullIter demand (combine a (combine b c)) h.
Proof.
  unfold combine. simpl.
  destruct (pullIter_spec a demand h) as (h1 & more1 & -> & _).
  set (va := take demand (contents h a)).
  assert (Ha : length va <= demand) by (unfold va; rewrite length_take; lia).
  destruct (Nat.ltb_spec (length va) demand) as [Hlt|Hge].
  - destruct (pullIter_spec b (demand - length va) h1)
      as (h2 & more2 & -> & _).
    set (vb := take (demand - length va) (contents h1 b)).
    assert (Hb : length vb <= demand - length va)
      by (unfold vb; rewrite length_take; lia).
    rewrite length_app.
    destruct (Nat.ltb_spec (length vb) (demand - length va)) as [Hlt2|Hge2].
    + destruct (Nat.ltb_spec (length va + length vb) demand); [|lia].
      replace (demand - (length va + length vb))
        with (demand - length va - length vb) by lia.
      destruct (Seeding.pullIter providerFn (demand - length va - length vb)
                  c h2) as [vc h3].
      by rewrite app_assoc.
    + destruct (Nat.ltb_spec (length va + length vb) demand); [lia|done].
  - destruct (Nat.ltb_spec (length va) demand); [lia|done].
Qed.

End SeedingProps.

(** ** Removal handles, whatever is registered *)

Section RemoverProps.

Import Iterative.

(** X7: whatever is registered, and however often, a remover touches the
    registrations of its own provider only: the other providers stay as
    they are and in their order, and of its own provider one registration
    goes, the first one, when there is one. *)
Theorem remover_keeps_other_providers (p : Ref) (s : IterativeContextSeeder) :
  let s' := remove (newRemover p) s in
  filter (fun q => q <> p) (_providers s')
  = filter (fun q => q <> p) (_providers s)
  /\ length (filter (fun q => q = p) (_providers s'))
     = pred (length (filter (fun q => q = p) (_providers s)))
  /\ forall before after,
       _providers s = before ++ p :: after -> p ∉ before ->
       _providers s' = before ++ after.
Proof.
  intros s'. subst s'. destruct s as [l]. simpl.
  destruct (decide (p ∈ l)) as [Hin|Hout].
  - apply list_elem_of_split_l in Hin as (l1 & l2 & -> & Hl1).
    rewrite (remove_first_occurrence p l1 l2 Hl1). simpl.
    rewrite !filter_app, !length_app.
    rewrite filter_cons_False by (intros H; by apply H).
    rewrite filter_cons_True by done. simpl.
    split_and!; [done|lia|].
    intros before after Heq Hb.
    assert (Hlen : before = l1).
    { revert l1 Hl1 Heq. induction before as [|x before IH];
        intros [|y l1] Hl1 Heq; simpl in *.
      - done.
      - injection Heq as <- _. exfalso. apply Hl1. by left.
      - injection Heq as -> _. exfalso. apply Hb. by left.
      - injection Heq as -> Heq. f_equal.
        apply not_elem_of_cons in Hb as [_ Hb].
        apply not_elem_of_cons in Hl1 as [_ Hl1].
        by apply IH. }
    subst before. apply app_inv_head in Heq. injection Heq as ->. done.
  - rewrite (remove_absent p (newSeeder l) Hout). simpl.
    split_and!; [done| |].
    + assert (H : filter (fun q => q = p) l = []).
      { clear -Hout. induction l as [|x l IH]; [done|].
        apply not_elem_of_cons in Hout as [Hne Hout].
        rewrite filter_cons_False by congruence. by apply IH. }
      by rewrite H.
    + intros before after -> _. exfalso. apply Hout.
      rewrite elem_of_app. right. by left.
Qed.

(** X8: [provide] followed by the remover it returned gives the seeder
    back as it was exactly when the provider was not registered before.
    When it was, the earliest registration goes and the new one stays at
    the end. *)
Theorem provide_then_remove (p : Ref) (s : IterativeContextSeeder) :
  let '(handle, s1) := provide p s in
  _providers (remove handle s1)
  = if decide (p ∈ _providers s)
    then _providers (remove (newRemover p) s) ++ [p]
    else _providers s.
Proof.
  destruct s as [l]. simpl.
  destruct (decide (p ∈ l)) as [Hin|Hout].
  - apply list_elem_of_split_l in Hin as (l1 & l2 & -> & Hl1).
    rewrite <- app_assoc. simpl.
    rewrite (remove_first_occurrence p l1 (l2 ++ [p]) Hl1).
    rewrite (remove_first_occurrence p l1 l2 Hl1). simpl.
    by rewrite app_assoc.
  - rewrite (remove_first_occurrence p l [] Hout). simpl.
    by rewrite app_nil_r.
Qed.

End RemoverProps.

(** ** Constant assets are collected in their order *)

Section ConstAssetsProps.

Import Asset Dynamic ConstAssets.

Context {A : Type}.
Variable entry : Ref.

(** X14: the receiver's loop over provided constant assets adds to the
    array the values that are neither [null] nor [undefined], each once,
    in the order provided, whatever entries, supplies and ranks the
    assets have; what was in the array stays in front. *)
Theorem constant_assets_collected_in_order (values : list (Nullable A)) :
  forall (entryOf : nat -> Ref) (supplyOf : nat -> option Ref)
         (providedOf : nat -> Ref) (rankOf : nat -> nat) (acc : list A),
    collectInto entry acc
      (constProvided entryOf supplyOf providedOf rankOf values)
    = acc ++ presentValues values.
Proof.
  unfold constProvided.
  induction values as [|value values IH];
    intros entryOf supplyOf providedOf rankOf acc.
  - simpl. by rewrite app_nil_r.
  - rewrite imap_cons. rewrite collectInto_const.
    rewrite (IH (entryOf ∘ S) (supplyOf ∘ S) (providedOf ∘ S) (rankOf ∘ S)).
    unfold presentValues. simpl.
    destruct value; simpl; by rewrite <- ?app_assoc, ?app_nil_r.
Qed.

End ConstAssetsProps.

(** ** The updatable single-value key: sources, fallback, default *)

Section UpKeyOrderProps.

Import UpKey.

Context {TValue : Type}.
Variable truthy : TValue -> bool.

(** X15: what [grow] hands out, by precedence. With sources the value
    reads as the last source alone, whatever the fallback and the default
    are, and [byDefault] is not called. Without sources a request with a
    fallback keeper reads as that keeper and [byDefault] is not called;
    a request without fallback calls [byDefault] and, for a truthy default,
    reads as that default. *)
Theorem SingleContextUpKey_grow_precedence
  (this : SingleContextUpKey TValue) (slot : ContextValueSlot TValue) :
  (forall sources source,
      seed slot = sources ++ [source] ->
      readValue (grow truthy this slot) = Ok [source]
      /\ snd (dig truthy this slot (seed slot)) = false)
  /\ (forall keeper,
      seed slot = [] -> hasFallback slot = true -> or slot = present keeper ->
      readValue (grow truthy this slot) = readValue keeper
      /\ snd (dig truthy this slot (seed slot)) = false)
  /\ (forall defaultValue,
      seed slot = [] -> hasFallback slot = false ->
      byDefault this = present defaultValue -> truthy defaultValue = true ->
      readValue (grow truthy this slot) = Ok [defaultValue]
      /\ snd (dig truthy this slot (seed slot)) = true).
Proof.
  split_and!.
  - intros sources source Hs. unfold grow, dig, lastSource. rewrite Hs.
    rewrite length_app. simpl.
    replace (length sources + 1 - 1) with (length sources) by lia.
    rewrite list_lookup_middle by done. simpl.
    by destruct (contextSupply slot).
  - intros keeper Hs Hf Ho. unfold grow, dig. rewrite Hs, Hf, Ho. simpl.
    by destruct (contextSupply slot).
  - intros d Hs Hf Hd Ht. unfold grow, dig. rewrite Hs, Hf, Hd, Ht. simpl.
    by destruct (contextSupply slot).
Qed.

End UpKeyOrderProps.

(** ** The dynamic definer: the value of a tracked definition *)

Section DynamicStateProps.

Import Asset Dynamic DynamicState.

Context {TAsset TState TValue : Type}.
Variable create : option (list TAsset -> TState).
Variable byDefault : option TState.
Variable access : option (Getter TState TValue).
Variable cxRecent_access : Getter TState TValue.
Variable asState : list TAsset -> TState.
Variable methodValue : CxRequestMethod -> Z.
Variable entry : Ref.

Local Abbreviation World := (World TAsset TState).
Local Abbreviation step :=
  (step create byDefault access cxRecent_access asState methodValue entry).
Local Abbreviation run :=
  (run create byDefault access cxRecent_access asState methodValue entry).
Local Abbreviation assignBy :=
  (assignBy create byDefault access cxRecent_access asState methodValue entry).
Local Abbreviation assign :=
  (assign create byDefault access cxRecent_access asState methodValue entry).
Local Abbreviation assignDefault :=
  (assignDefault create byDefault access cxRecent_access asState methodValue
     entry).
Local Abbreviation callGetAssign :=
  (callGetAssign create byDefault asState entry).
Local Abbreviation callGetState := (callGetState (TAsset:=TAsset) asState entry).
Local Abbreviation callGetDefaultState :=
  (callGetDefaultState (TAsset:=TAsset) asState entry).
Local Abbreviation callGetValue :=
  (callGetValue (TAsset:=TAsset) access cxRecent_access asState entry).
Local Abbreviation callGetDefaultValue :=
  (callGetDefaultValue (TAsset:=TAsset) access cxRecent_access asState entry).
Local Abbreviation receiveList := (receiveList create asState entry).
Local Abbreviation changeList := (changeList create asState entry).
Local Abbreviation perContext := (perContext (TAsset:=TAsset) create byDefault).
Local Abbreviation trackedBody := (trackedBody create byDefault asState entry).
Local Abbreviation tracked := (tracked create byDefault asState entry).
Local Abbreviation alive := (alive create byDefault asState entry).
Local Abbreviation serving := (serving create byDefault asState entry).
Local Abbreviation currentState := (currentState create byDefault asState entry).
Local Abbreviation stateGetterOf :=
  (stateGetterOf create byDefault asState entry).
Local Abbreviation defaultState := (defaultState byDefault asState).
Local Abbreviation accessor := (accessor access cxRecent_access).
Local Abbreviation hasDefault := (hasDefault create byDefault).

Lemma receiveList_fields assetList (w : World) :
  let w' := receiveList assetList w in
  getDefaultState (vars w') = getDefaultState (vars w)
  /\ getDefaultValue (vars w') = getDefaultValue (vars w)
  /\ getValue (vars w') = getValue (vars w)
  /\ getAssign (vars w') = getAssign (vars w)
  /\ defaultStateCache w' = defaultStateCache w
  /\ assignCache w' = assignCache w
  /\ tracking w' = tracking w
  /\ supplyOff w' = supplyOff w
  /\ providedList w' = providedList w
  /\ method w' = Some (requestMethod (collectList entry assetList))
  /\ getState (vars w')
     = Some (match collectList entry assetList with
             | [] => getDefaultState (vars w)
             | assets => constState (createState create asState assets)
             end).
Proof.
  unfold Dynamic.receiveList. simpl.
  destruct (collectList entry assetList); simpl; by split_and!.
Qed.

Lemma perContext_tracked provided next cutOff :
  tracked (perContext provided next cutOff).
Proof.
  unfold DynamicState.tracked, Dynamic.perContext.
  destruct cutOff; simpl; [done|]. intros _.
  unfold DynamicState.trackedBody. simpl. by split_and!.
Qed.

Lemma changeList_alive assetList (w : World) :
  alive w -> alive (changeList assetList w).
Proof.
  intros [Hs (G1 & G2 & G3 & G4 & G5 & G6)].
  unfold DynamicState.alive, DynamicState.trackedBody, Dynamic.changeList.
  simpl. destruct (tracking w) eqn:Ht.
  - match goal with
    | |- context [Dynamic.receiveList _ _ _ assetList ?w1] =>
        destruct (receiveList_fields assetList w1)
          as (H1 & H2 & H3 & H4 & H5 & H6 & H7 & H8 & H9 & H10 & H11)
    end.
    rewrite H1, H2, H3, H4, H5, H6, H7, H8, H9, H10, H11. simpl.
    split_and!; try done.
    destruct (assignCache w); [|by destruct G6; congruence].
    destruct G6 as (-> & _ & _ & _). split_and!; try done.
    unfold DynamicState.stateGetterOf. rewrite G1.
    by destruct (collectList entry assetList).
  - simpl. split_and!; try done.
    destruct (assignCache w); [|done].
    destruct G6 as (_ & G6 & _). congruence.
Qed.

Lemma callGetAssign_alive (w : World) :
  alive w ->
  exists w',
    callGetAssign w
    = (Ok (if hasDefault then assignWithDefault else assignWithoutDefault), w')
    /\ serving (providedList w) w'.
Proof.
  intros [Hs (G1 & G2 & G3 & G4 & G5 & G6)].
  unfold Dynamic.callGetAssign. rewrite G4. unfold targetLazy.
  destruct (assignCache w) as [a|] eqn:Hc.
  - destruct G6 as (-> & G6 & G7 & G8). exists w. split; [done|].
    unfold DynamicState.serving, DynamicState.alive, DynamicState.trackedBody.
    rewrite Hc. by split_and!.
  - unfold initAssign, bind, trackAssetList, ret, storeAssign. simpl.
    eexists. split; [reflexivity|].
    match goal with
    | |- context [Dynamic.receiveList _ _ _ ?l ?w1] =>
        destruct (receiveList_fields l w1)
          as (H1 & H2 & H3 & H4 & H5 & H6 & H7 & H8 & H9 & H10 & H11)
    end.
    simpl in *.
    unfold DynamicState.serving, DynamicState.alive, DynamicState.trackedBody.
    simpl.
    rewrite H1, H2, H3, H4, H5, H7, H8, H9, H10, H11, G1.
    by split_and!.
Qed.

Lemma callDefault_serving assetList (w : World) :
  serving assetList w ->
  serving assetList
    (snd (callStateGetter asState entry (initialDefaultState create byDefault) w))
  /\ (hasDefault = true ->
      fst (callStateGetter asState entry (initialDefaultState create byDefault) w)
      = Ok defaultState).
Proof.
  intros Hw.
  pose proof Hw as ([Hs (G1 & G2 & G3 & G4 & G5 & G6)] & Hl & Hc).
  unfold initialDefaultState, Dynamic.hasDefault, DynamicState.defaultState.
  destruct byDefault as [result|] eqn:Hb.
  - simpl. unfold targetLazy.
    destruct (defaultStateCache w) as [state|] eqn:Hd.
    + split; [done|]. intros _. simpl.
      specialize (G5 state eq_refl). congruence.
    + simpl. split; [|done].
      unfold DynamicState.serving, DynamicState.alive,
        DynamicState.trackedBody. simpl.
      by split_and!.
  - destruct create; simpl; by split.
Qed.

Lemma callGetState_serving assetList (w : World) :
  serving assetList w ->
  serving assetList (snd (callGetState w))
  /\ (hasDefault = true \/ collectList entry assetList <> [] ->
      fst (callGetState w) = Ok (currentState assetList)).
Proof.
  intros Hw.
  pose proof Hw as ([Hs (G1 & G2 & G3 & G4 & G5 & G6)] & Hl & [a Hc]).
  rewrite Hc in G6. destruct G6 as (_ & _ & _ & Hg).
  unfold Dynamic.callGetState. rewrite Hg, Hl.
  unfold DynamicState.stateGetterOf, DynamicState.currentState.
  destruct (collectList entry assetList) as [|x assets].
  - destruct (callDefault_serving assetList w Hw) as [H1 H2].
    split; [done|]. intros [Hd|Hn]; [by apply H2|done].
  - simpl. by split.
Qed.

Lemma callGetDefaultState_serving assetList (w : World) :
  serving assetList w ->
  serving assetList (snd (callGetDefaultState w))
  /\ (hasDefault = true -> fst (callGetDefaultState w) = Ok defaultState).
Proof.
  intros Hw.
  pose proof Hw as ([Hs (G1 & _)] & _).
  unfold Dynamic.callGetDefaultState. rewrite G1.
  by apply callDefault_serving.
Qed.

(** The value accessor over a state accessor that returns one state. *)
Lemma runGetter_answer (P : World -> Prop) (get : M World TState)
  (state : TState) (g : Getter TState TValue) :
  (forall w, P w -> P (snd (get w)) /\ fst (get w) = Ok state) ->
  forall w, P w ->
    P (snd (runGetter g get w))
    /\ fst (runGetter g get w) = Ok (DynamicState.answer g state).
Proof.
  intros Hget. induction g as [v|next IH]; intros w Hw; simpl.
  - by split.
  - unfold bind. destruct (Hget w Hw) as [H1 H2].
    destruct (get w) as [r w1]. simpl in *. subst r. by apply IH.
Qed.

Lemma callGetValue_serving assetList (w : World) :
  serving assetList w ->
  serving assetList (snd (callGetValue w))
  /\ (hasDefault = true \/ collectList entry assetList <> [] ->
      fst (callGetValue w)
      = Ok (DynamicState.answer accessor (currentState assetList))).
Proof.
  intros Hw.
  pose proof Hw as ([Hs (_ & _ & G3 & _)] & _).
  unfold Dynamic.callGetValue. rewrite G3. simpl. split.
  - apply (runGetter_preserves (serving assetList)); [|done].
    intros w1 H1. by apply callGetState_serving.
  - intros Hd.
    apply (runGetter_answer (serving assetList)); [|done].
    intros w1 H1. destruct (callGetState_serving assetList w1 H1) as [H2 H3].
    split; [done|by apply H3].
Qed.

Lemma callGetDefaultValue_serving assetList (w : World) :
  serving assetList w ->
  serving assetList (snd (callGetDefaultValue w))
  /\ (hasDefault = true ->
      fst (callGetDefaultValue w)
      = Ok (DynamicState.answer accessor defaultState)).
Proof.
  intros Hw.
  pose proof Hw as ([Hs (_ & G2 & _)] & _).
  unfold Dynamic.callGetDefaultValue. rewrite G2. simpl. split.
  - apply (runGetter_preserves (serving assetList)); [|done].
    intros w1 H1. by apply callGetDefaultState_serving.
  - intros Hd.
    apply (runGetter_answer (serving assetList)); [|done].
    intros w1 H1.
    destruct (callGetDefaultState_serving assetList w1 H1) as [H2 H3].
    split; [done|by apply H3].
Qed.

Lemma serving_method assetList (w : World) :
  serving assetList w ->
  method w = Some (requestMethod (collectList entry assetList)).
Proof.
  intros ([Hs (_ & _ & _ & _ & _ & G6)] & Hl & [a Hc]).
  rewrite Hc in G6. destruct G6 as (_ & _ & Hm & _). by rewrite Hm, Hl.
Qed.

(** One access of a definition in use: what the assigner gets. *)
Lemma assignBy_spec (isDefault : bool) (w : World) :
  alive w ->
  let assets := collectList entry (providedList w) in
  let value := DynamicState.answer accessor (currentState (providedList w)) in
  serving (providedList w) (snd (assignBy isDefault w))
  /\ (hasDefault = true ->
      fst (assignBy isDefault w)
      = Ok (Some (if isDefault
                  then (DynamicState.answer accessor defaultState, None)
                  else (value, Some (requestMethod assets)))))
  /\ (hasDefault = false -> isDefault = true ->
      fst (assignBy isDefault w) = Ok None)
  /\ (hasDefault = false -> isDefault = false ->
      methodPositive methodValue (Some (requestMethod assets)) = false ->
      fst (assignBy isDefault w) = Ok None)
  /\ (hasDefault = false -> isDefault = false ->
      methodPositive methodValue (Some (requestMethod assets)) = true ->
      assets <> [] ->
      fst (assignBy isDefault w) = Ok (Some (value, Some (requestMethod assets)))).
Proof.
  intros Hw assets value.
  destruct (callGetAssign_alive w Hw) as (w1 & Hg & H1).
  pose proof (serving_method _ _ H1) as Hm1.
  unfold Dynamic.assignBy, bind. rewrite Hg.
  destruct hasDefault eqn:Hd; destruct isDefault.
  - destruct (callGetDefaultValue_serving _ _ H1) as [H2 H3].
    specialize (H3 Hd).
    destruct (callGetDefaultValue w1) as [r w2]. simpl in *. subst r.
    by split_and!.
  - destruct (callGetValue_serving _ _ H1) as [H2 H3].
    specialize (H3 (or_introl Hd)).
    pose proof (serving_method _ _ H2) as Hm2.
    destruct (callGetValue w1) as [r w2]. simpl in *. subst r.
    unfold read, ret. simpl. rewrite Hm2. by split_and!.
  - by split_and!.
  - unfold read at 1. simpl. rewrite Hm1. fold assets.
    destruct (methodPositive methodValue (Some (requestMethod assets))) eqn:Hp.
    + destruct (callGetValue_serving _ _ H1) as [H2 H3].
      pose proof (serving_method _ _ H2) as Hm2.
      destruct (callGetValue w1) as [r w2]. simpl in *.
      split_and!; try done.
      * by destruct r.
      * intros _ _ Hf. congruence.
      * intros _ _ _ Hne. rewrite (H3 (or_intror Hne)).
        unfold read, ret. simpl. by rewrite Hm2.
    + split_and!; try done. simpl in Hp. intros; congruence.
Qed.

Lemma step_tracked (e : Event TAsset) (w : World) :
  tracked w -> tracked (snd (step e w)).
Proof.
  intros H.
  destruct (supplyOff w) as [r|] eqn:Hs.
  { pose proof (run_supplyOff create byDefault access cxRecent_access asState
                  methodValue entry [e] w r Hs) as Hr.
    simpl in Hr. destruct (step e w) as [x w1]. simpl in *.
    intros Hn. congruence. }
  assert (Hw : alive w) by (split; [done|by apply H]).
  destruct e as [asset|s|r| |]; simpl.
  - intros _.
    enough (Ha : alive (Dynamic.provide create asState entry asset w))
      by exact (proj2 Ha).
    unfold Dynamic.provide. rewrite Hs.
    assert (Hn : forall next,
               alive (newWorld (vars w) (method w) (defaultStateCache w)
                        (assignCache w) (providedList w) next (tracking w)
                        None (createCalls w) (byDefaultCalls w))).
    { intros next. destruct Hw as [Hw1 Hw2]. by split. }
    destruct (supply asset); destruct (Nat.eqb _ entry);
      try apply changeList_alive; apply Hn.
  - intros _. by apply changeList_alive.
  - unfold off. rewrite Hs. unfold DynamicState.tracked. simpl. done.
  - intros _. by apply (assignBy_spec false w Hw).
  - intros _. by apply (assignBy_spec true w Hw).
Qed.

Lemma run_tracked (events : list (Event TAsset)) :
  forall w, tracked w -> tracked (snd (run events w)).
Proof.
  induction events as [|e events IH]; intros w H; simpl; [done|].
  pose proof (step_tracked e w H) as H1.
  destruct (step e w) as [r w1]. simpl in H1.
  specialize (IH w1 H1). by destruct (run events w1).
Qed.

Lemma reachable_alive provided next (events : list (Event TAsset)) :
  let w := snd (run events (perContext provided next None)) in
  supplyOff w = None -> alive w.
Proof.
  intros w Hs. split; [done|].
  by apply (run_tracked events _ (perContext_tracked provided next None)).
Qed.

Lemma perContext_untouched provided next cutOff :
  untouched (perContext provided next cutOff).
Proof. unfold Dynamic.perContext. by destruct cutOff. Qed.

Lemma step_untouched (e : Event TAsset) (w : World) :
  isAccess e = false -> untouched w -> untouched (snd (step e w)).
Proof.
  intros He (Ht & Hc & Hm & Hcr & Hb).
  destruct e as [asset|s|r| |]; simpl; try done.
  - unfold Dynamic.provide, Dynamic.changeList.
    destruct (supplyOff w); [by split_and!|].
    destruct (supply asset); destruct (Nat.eqb _ entry); simpl;
      rewrite ?Ht; by split_and!.
  - unfold Dynamic.revoke, Dynamic.changeList. simpl. rewrite Ht.
    by split_and!.
  - unfold off. destruct (supplyOff w); by split_and!.
Qed.

(** X9: the definer is lazy. Until the first access to the value or to
    the default, whatever is provided, revoked or cut off: the asset list
    is not tracked, no request method is set, and neither [create] nor
    [byDefault] is called. *)
Theorem cxDynamic_idle_before_first_access provided next cutOff
  (events : list (Event TAsset)) :
  Forall (fun e => isAccess e = false) events ->
  let w := snd (run events (perContext provided next cutOff)) in
  tracking w = false
  /\ method w = None
  /\ createCalls w = []
  /\ byDefaultCalls w = 0.
Proof.
  intros Hall w.
  assert (H : untouched w).
  { subst w. generalize (perContext_untouched provided next cutOff).
    generalize (perContext provided next cutOff).
    induction Hall as [|e events He _ IH]; intros w0 H0; simpl; [done|].
    pose proof (step_untouched e w0 He H0) as H1.
    destruct (step e w0) as [r w1]. simpl in H1.
    specialize (IH w1 H1). by destruct (run events w1). }
  destruct H as (Ht & Hc & Hm & Hcr & Hb). done.
Qed.

(** X10: while [target.supply] is not cut off and at least one asset is
    provided, an access hands the assigner the value the accessor makes
    of the state [create] returns for all the assets provided at that
    moment, in their order, with the method [Assets]; it does not fail.
    Without a default this needs [Assets] to be a positive method. *)
Theorem cxDynamic_value_of_current_assets provided next
  (events : list (Event TAsset)) (a : TAsset) (rest : list TAsset) :
  let w := snd (run events (perContext provided next None)) in
  supplyOff w = None ->
  collectList entry (providedList w) = a :: rest ->
  hasDefault = true \/ (0 < methodValue Assets)%Z ->
  fst (assign w)
  = Ok (Some (DynamicState.answer accessor
                (createState create asState (a :: rest)),
              Some Assets)).
Proof.
  intros w Hs Hl Hd.
  pose proof (reachable_alive provided next events Hs) as Hw. fold w in Hw.
  destruct (assignBy_spec false w Hw) as (_ & H1 & _ & _ & H2).
  unfold Dynamic.assign.
  unfold DynamicState.currentState in H1, H2. rewrite Hl in H1, H2.
  destruct hasDefault eqn:Hh.
  - by apply H1.
  - destruct Hd as [Hd|Hd]; [done|].
    apply H2; try done. simpl. by apply Z.ltb_lt.
Qed.

(** X12: a definer with [create] and without [byDefault] has no default.
    While [target.supply] is not cut off, an access to the default never
    calls the assigner, and an access to the value does not call it while
    no asset is provided, [Defaults] being no positive method. Neither
    fails. *)
Theorem cxDynamic_without_default provided next (events : list (Event TAsset)) :
  let w := snd (run events (perContext provided next None)) in
  supplyOff w = None ->
  hasDefault = false ->
  (methodValue Defaults <= 0)%Z ->
  fst (assignDefault w) = Ok None
  /\ (collectList entry (providedList w) = [] -> fst (assign w) = Ok None).
Proof.
  intros w Hs Hd Hm.
  pose proof (reachable_alive provided next events Hs) as Hw. fold w in Hw.
  split.
  - destruct (assignBy_spec true w Hw) as (_ & _ & H1 & _). by apply H1.
  - intros Hl. destruct (assignBy_spec false w Hw) as (_ & _ & _ & H1 & _).
    apply H1; try done. rewrite Hl. simpl. by apply Z.ltb_ge.
Qed.

Lemma run_cons_snd (e : Event TAsset) (events : list (Event TAsset))
  (w : World) :
  snd (run (e :: events) w) = snd (run events (snd (step e w))).
Proof.
  simpl. destruct (step e w) as [r w1]. simpl. by destruct (run events w1).
Qed.

(** An access leaves the assets provided and the supply as they are. *)
Lemma assignBy_list (isDefault : bool) (w : World) :
  providedList (snd (assignBy isDefault w)) = providedList w
  /\ supplyOff (snd (assignBy isDefault w)) = supplyOff w.
Proof.
  apply (assignBy_kept create byDefault access cxRecent_access asState
           methodValue entry
           (fun w' : World => providedList w' = providedList w
                              /\ supplyOff w' = supplyOff w)); [| |done].
  - intros g w' H. destruct g as [result| |state|r]; simpl; try done.
    unfold targetLazy. by destruct (defaultStateCache w').
  - intros w' H. unfold Dynamic.callGetAssign.
    destruct (getAssign (vars w')); [|done].
    unfold targetLazy. destruct (assignCache w'); [done|]. simpl.
    unfold Dynamic.receiveList. by destruct (collectList _ _).
Qed.

(** An asset provided for the entry, the supply not being cut off, comes
    last in the list. *)
Lemma provide_list (asset : CxAsset TAsset) (w : World) :
  supplyOff w = None ->
  Asset.entry asset = entry ->
  exists s,
    providedList (Dynamic.provide create asState entry asset w)
    = providedList w ++ [newProvided asset s 0]
    /\ supplyOff (Dynamic.provide create asState entry asset w) = None.
Proof.
  intros Hs He. unfold Dynamic.provide. rewrite Hs, He, Nat.eqb_refl.
  unfold Dynamic.changeList.
  destruct (supply asset) as [s|]; simpl;
    (destruct (tracking w); [unfold Dynamic.receiveList|]);
    eexists; simpl; try destruct (collectList _ _); simpl;
    split; reflexivity.
Qed.

End DynamicStateProps.

(** ** The targets of one definer *)

Section DefinerTargets.

Import Asset Dynamic DynamicState.

Context {TAsset TState TValue : Type}.
Variable given : option (list TAsset -> TState).
Variable byDefault : option TState.
Variable access : option (Getter TState TValue).
Variable cxRecent_access : Getter TState TValue.
Variable asState : list TAsset -> TState.
Variable methodValue : CxRequestMethod -> Z.
Variable entry : Ref.

Lemma createFound_state (earlier : bool) (assets : list TAsset) :
  createState (createFound asState given earlier) asState assets
  = createState given asState assets.
Proof. by destruct earlier, given. Qed.

Lemma createFound_hasDefault (earlier : bool) :
  hasDefault (createFound asState given earlier) byDefault
  = match byDefault, given with
    | Some _, _ => true
    | None, None => negb earlier
    | None, Some _ => false
    end.
Proof. by destruct earlier, given, byDefault. Qed.

(** X11: a target has a default when [byDefault] was given, or when
    neither [byDefault] nor [create] was given and the target is the first
    one of its definer. On such a target, while [target.supply] is not cut
    off, an access to the default hands the assigner the value the accessor
    makes of the default state, without a method, whatever assets are
    provided; an access to the value does the same with the method
    [Defaults] when no asset is provided. Neither fails. *)
Theorem cxDynamic_default_value (earlier : bool) provided next
  (events : list (Event TAsset)) :
  let create := createFound asState given earlier in
  let w :=
    snd (run create byDefault access cxRecent_access asState methodValue entry
           events (perContext create byDefault provided next None)) in
  let value :=
    answer (accessor access cxRecent_access) (defaultState byDefault asState) in
  is_Some byDefault \/ (given = None /\ earlier = false) ->
  supplyOff w = None ->
  fst (assignDefault create byDefault access cxRecent_access asState
         methodValue entry w)
  = Ok (Some (value, None))
  /\ (collectList entry (providedList w) = [] ->
      fst (assign create byDefault access cxRecent_access asState methodValue
             entry w)
      = Ok (Some (value, Some Defaults))).
Proof.
  intros create w value Hdef Hs.
  assert (Hd : hasDefault create byDefault = true).
  { unfold create. rewrite createFound_hasDefault.
    destruct Hdef as [[state ->]|[-> ->]]; [done|]. by destruct byDefault. }
  pose proof (reachable_alive create byDefault access cxRecent_access asState
                methodValue entry provided next events Hs) as Hw.
  fold w in Hw. split.
  - destruct (assignBy_spec create byDefault access cxRecent_access asState
                methodValue entry true w Hw) as (_ & H1 & _).
    by apply H1.
  - intros Hl.
    destruct (assignBy_spec create byDefault access cxRecent_access asState
                methodValue entry false w Hw) as (_ & H1 & _).
    unfold assign. rewrite (H1 Hd).
    unfold currentState. by rewrite Hl.
Qed.

End DefinerTargets.

(** ** Array-valued definitions *)

Section ArrayClaims.

Import Asset Dynamic DynamicState.

Context {TElement : Type}.
Variable methodValue : CxRequestMethod -> Z.
Variable entry : Ref.

Local Abbreviation World := (World TElement (list TElement)).
Local Abbreviation arrayRun :=
  (arrayRun (TElement:=TElement) methodValue entry).
Local Abbreviation arrayAssign :=
  (arrayAssign (TElement:=TElement) methodValue entry).
Local Abbreviation arrayAssignDefault :=
  (arrayAssignDefault (TElement:=TElement) methodValue entry).
Local Abbreviation arrayPerContext := (arrayPerContext (TElement:=TElement)).

Lemma array_alive (earlier : bool) provided next
  (events : list (Event TElement)) :
  let w := snd (arrayRun earlier events
                  (arrayPerContext earlier provided next None)) in
  supplyOff w = None ->
  alive (arrayCreate earlier) None id entry w.
Proof.
  intros w Hs.
  exact (reachable_alive (TValue:=list TElement) (arrayCreate earlier) None
           None cxRecent_access id methodValue entry provided next events Hs).
Qed.

Lemma array_hasDefault (earlier : bool) :
  hasDefault (arrayCreate (TElement:=TElement) earlier)
    (@None (list TElement))
  = negb earlier.
Proof. by destruct earlier. Qed.

(** The value of an array-valued definition with assets is, at every
    access and on every target, the array of the assets provided at that
    moment. *)
Lemma arrayAssign_assets (earlier : bool) (w : World) (a : TElement) rest :
  alive (arrayCreate earlier) None id entry w ->
  collectList entry (providedList w) = a :: rest ->
  earlier = false \/ (0 < methodValue Assets)%Z ->
  fst (arrayAssign earlier w) = Ok (Some (a :: rest, Some Assets)).
Proof.
  intros Hw Hl Hpos.
  destruct (assignBy_spec (TValue:=list TElement) (arrayCreate earlier) None
              None cxRecent_access id methodValue entry false w Hw)
    as (_ & H1 & _ & _ & H2).
  unfold Dynamic.arrayAssign, assign.
  unfold currentState in H1, H2. rewrite Hl in H1, H2.
  rewrite array_hasDefault in H1, H2.
  destruct earlier; simpl in H1, H2.
  - destruct Hpos as [Hpos|Hpos]; [done|].
    apply H2; try done. by apply Z.ltb_lt.
  - by apply H1.
Qed.

(** On the first target of the definer an array-valued definition without
    assets has the empty array for its value and for its default. *)
Lemma arrayAssign_first_empty (w : World) :
  alive (arrayCreate false) None id entry w ->
  fst (arrayAssignDefault false w) = Ok (Some ([], None))
  /\ (collectList entry (providedList w) = [] ->
      fst (arrayAssign false w) = Ok (Some ([], Some Defaults))).
Proof.
  intros Hw. split.
  - destruct (assignBy_spec (TValue:=list TElement) (arrayCreate false) None
                None cxRecent_access id methodValue entry true w Hw)
      as (_ & H1 & _).
    exact (H1 eq_refl).
  - intros Hl.
    destruct (assignBy_spec (TValue:=list TElement) (arrayCreate false) None
                None cxRecent_access id methodValue entry false w Hw)
      as (_ & H1 & _).
    specialize (H1 eq_refl). unfold currentState in H1. rewrite Hl in H1.
    exact H1.
Qed.

(** On every later target the definition has no default: the assigner is
    not called. *)
Lemma arrayAssign_later_empty (w : World) :
  alive (arrayCreate true) None id entry w ->
  fst (arrayAssignDefault true w) = Ok None
  /\ (collectList entry (providedList w) = [] ->
      (methodValue Defaults <= 0)%Z ->
      fst (arrayAssign true w) = Ok None).
Proof.
  intros Hw. split.
  - destruct (assignBy_spec (TValue:=list TElement) (arrayCreate true) None
                None cxRecent_access id methodValue entry true w Hw)
      as (_ & _ & H1 & _).
    exact (H1 eq_refl eq_refl).
  - intros Hl Hm.
    destruct (assignBy_spec (TValue:=list TElement) (arrayCreate true) None
                None cxRecent_access id methodValue entry false w Hw)
      as (_ & _ & _ & H1 & _).
    apply H1; try done. rewrite Hl. simpl. by apply Z.ltb_ge.
Qed.

Lemma arrayRun_last (earlier : bool) (events : list (Event TElement))
  (e : Event TElement) : forall w : World,
  last (fst (arrayRun earlier (events ++ [e]) w))
  = Some (fst (step (arrayCreate earlier) None None cxRecent_access id
                 methodValue entry e (snd (arrayRun earlier events w)))).
Proof.
  unfold Dynamic.arrayRun.
  induction events as [|x events IH]; intros w; simpl.
  - by destruct (step _ _ _ _ _ _ _ e w).
  - destruct (step _ _ _ _ _ _ _ x w) as [r w1].
    specialize (IH w1).
    destruct (run _ _ _ _ _ _ _ (events ++ [e]) w1) as [rs w2].
    destruct (run _ _ _ _ _ _ _ events w1) as [rs' w2'].
    simpl in *. rewrite <- IH. by destruct rs.
Qed.

Lemma arrayRun_cons_snd (earlier : bool) (e : Event TElement)
  (events : list (Event TElement)) (w : World) :
  snd (arrayRun earlier (e :: events) w)
  = snd (arrayRun earlier events
           (snd (step (arrayCreate earlier) None None cxRecent_access id
                   methodValue entry e w))).
Proof.
  unfold Dynamic.arrayRun. simpl.
  destruct (step _ _ _ _ _ _ _ e w) as [r w1]. simpl.
  by destruct (run _ _ _ _ _ _ _ events w1).
Qed.

(** Constant assets [a], nothing and [c] provided for the entry, in that
    order, add [a] and [c] to what the list holds. *)
Lemma provide_a_nothing_c (earlier : bool) (w : World) (a c : TElement)
  (nothing : Nullable TElement) :
  supplyOff w = None ->
  isPresent nothing = false ->
  let provide value :=
    provide (arrayCreate earlier) id entry (cxConstAsset entry value None) in
  let w3 := provide (present c) (provide nothing (provide (present a) w)) in
  supplyOff w3 = None
  /\ collectList entry (providedList w3)
     = collectList entry (providedList w) ++ [a; c].
Proof.
  intros Hs Hn provide w3. subst provide w3.
  destruct (provide_list (arrayCreate earlier) id entry
              (cxConstAsset entry (present a) None) w Hs eq_refl)
    as (s1 & Hl1 & Hs1).
  destruct (provide_list (arrayCreate earlier) id entry
              (cxConstAsset entry nothing None) _ Hs1 eq_refl)
    as (s2 & Hl2 & Hs2).
  destruct (provide_list (arrayCreate earlier) id entry
              (cxConstAsset entry (present c) None) _ Hs2 eq_refl)
    as (s3 & Hl3 & Hs3).
  split; [done|].
  rewrite Hl3, Hl2, Hl1. unfold collectList.
  rewrite <- !app_assoc. rewrite collectInto_app. cbn [app].
  rewrite !collectInto_const. simpl.
  destruct nothing; [| |done]; by rewrite app_nil_r, <- app_assoc.
Qed.

(** C5. An array-valued entry with assets resolves, at every access and on
    every target of its definer, to the assets the provided list holds at
    that moment, in the order of the list, with the method [Assets] (on a
    target after the first, [Assets] being a positive method). Constant
    assets [a], nothing ([null] or [undefined]) and [c], provided in that
    order, add [a] and [c] in that order and nothing for the one in
    between, whatever is provided before and after them; provided to an
    entry without assets they make it resolve to [[a; c]], whether or not
    the list was tracked before. The iterable of [iterativeSeed] over
    providers that return [a], nothing and [c] likewise holds [a] and
    [c]. *)
Theorem multi_collects_in_order :
  (forall earlier provided next (events : list (Event TElement)) a rest,
      let w := snd (arrayRun earlier events
                      (arrayPerContext earlier provided next None)) in
      supplyOff w = None ->
      collectList entry (providedList w) = a :: rest ->
      earlier = false \/ (0 < methodValue Assets)%Z ->
      fst (arrayAssign earlier w) = Ok (Some (a :: rest, Some Assets)))
  /\ (forall acc l1 l2 (a c : TElement) nothing ea en ec supa supn supc
             sa sn sc ra rn rc,
      isPresent nothing = false ->
      collectInto entry acc
        (l1 ++ [newProvided (cxConstAsset ea (present a) supa) sa ra;
                newProvided (cxConstAsset en nothing supn) sn rn;
                newProvided (cxConstAsset ec (present c) supc) sc rc] ++ l2)
      = collectInto entry (collectInto entry acc l1 ++ [a; c]) l2)
  /\ (forall earlier (a c : TElement) nothing,
      isPresent nothing = false ->
      earlier = false \/ (0 < methodValue Assets)%Z ->
      let provisions :=
        [doProvide (cxConstAsset entry (present a) None);
         doProvide (cxConstAsset entry nothing None);
         doProvide (cxConstAsset entry (present c) None)] in
      last (fst (arrayRun earlier (provisions ++ [doAssign])
                   (arrayPerContext earlier [] 0 None)))
      = Some (Ok (Some ([a; c], Some Assets)))
      /\ last (fst (arrayRun earlier (doAssign :: provisions ++ [doAssign])
                      (arrayPerContext earlier [] 0 None)))
         = Some (Ok (Some ([a; c], Some Assets))))
  /\ (forall (Ctx : Type) (providerFn : Ref -> Ctx -> Nullable TElement)
             (context : Ctx) (pa pn pc : Ref) (a c : TElement),
      providerFn pa context = present a ->
      isPresent (providerFn pn context) = false ->
      providerFn pc context = present c ->
      fst (Iterative.iterateAll providerFn context
             (Iterative.newSeed (Iterative.iterativeSeed [pa; pn; pc]) []))
      = [a; c]).
Proof.
  split; [|split; [|split]].
  - intros earlier provided next events a rest w Hs Hl Hpos.
    apply arrayAssign_assets; [|done..].
    by apply array_alive.
  - intros acc l1 l2 a c nothing ea en ec supa supn supc sa sn sc ra rn rc Hn.
    rewrite collectInto_app. cbn [app]. rewrite !collectInto_const.
    destruct nothing; [| |done]; by rewrite app_nil_r, <- app_assoc.
  - intros earlier a c nothing Hn Hpos provisions.
    assert (Hrun : forall events,
               supplyOff (snd (arrayRun earlier events
                                 (arrayPerContext earlier [] 0 None))) = None ->
               collectList entry
                 (providedList (snd (arrayRun earlier events
                                       (arrayPerContext earlier [] 0 None))))
               = [a; c] ->
               last (fst (arrayRun earlier (events ++ [doAssign])
                            (arrayPerContext earlier [] 0 None)))
               = Some (Ok (Some ([a; c], Some Assets)))).
    { intros events Hs Hl. rewrite arrayRun_last. f_equal.
      apply (arrayAssign_assets earlier _ a [c]); [|done..].
      by apply array_alive. }
    assert (Hw0 : supplyOff (arrayPerContext earlier [] 0 None) = None)
      by done.
    split.
    + destruct (provide_a_nothing_c earlier _ a c nothing Hw0 Hn)
        as [H1 H2].
      by apply Hrun.
    + destruct (assignBy_list (TValue:=list TElement) (arrayCreate earlier)
                  None None cxRecent_access id methodValue entry false
                  (arrayPerContext earlier [] 0 None)) as [Hl1 Hs1].
      rewrite Hw0 in Hs1.
      destruct (provide_a_nothing_c earlier _ a c nothing Hs1 Hn)
        as [H1 H2].
      rewrite Hl1 in H2.
      apply (Hrun (doAssign :: provisions)); subst provisions;
        rewrite !arrayRun_cons_snd; [exact H1|exact H2].
  - intros Ctx providerFn context pa pn pc a c Ha Hn Hc.
    rewrite iterateAll_fresh. unfold Iterative.presentSources. simpl.
    rewrite Ha, Hc. by destruct (providerFn pn context).
Qed.

(** C9, on the code. On the first target of a definer made without
    [create] and without [byDefault] the default state is the empty array:
    whenever the assets provided come to none, an access yields the empty
    array with the method [Defaults] and an access to the default yields
    the empty array. On every later target of the same definer the
    variable [create] is set by then: the definition has no default, its
    default state function is the failing one, an access to the default
    never calls the assigner, and an access to the value does not call it
    when no asset is provided ([Defaults] being no positive method). On
    either target a tracked list that changes to one without assets sets
    [getState] to the default state function and calls [create] not. *)
Theorem multi_empty_default_first_target_only :
  (initialDefaultState (arrayCreate (TElement:=TElement) false)
     (@None (list TElement))
   = dynamicByDefault
   /\ cxDynamic_byDefault (TAsset:=TElement) id = []
   /\ hasDefault (arrayCreate (TElement:=TElement) false)
        (@None (list TElement)) = true)
  /\ (forall provided next (events : list (Event TElement)),
      let w := snd (arrayRun false events
                      (arrayPerContext false provided next None)) in
      supplyOff w = None ->
      collectList entry (providedList w) = [] ->
      fst (arrayAssign false w) = Ok (Some ([], Some Defaults))
      /\ fst (arrayAssignDefault false w) = Ok (Some ([], None)))
  /\ (initialDefaultState (arrayCreate (TElement:=TElement) true)
        (@None (list TElement))
      = unavailableState None
      /\ hasDefault (arrayCreate (TElement:=TElement) true)
           (@None (list TElement)) = false)
  /\ (forall provided next (events : list (Event TElement)),
      let w := snd (arrayRun true events
                      (arrayPerContext true provided next None)) in
      supplyOff w = None ->
      fst (arrayAssignDefault true w) = Ok None
      /\ (collectList entry (providedList w) = [] ->
          (methodValue Defaults <= 0)%Z ->
          fst (arrayAssign true w) = Ok None))
  /\ (forall earlier (w : World) assetList,
      tracking w = true ->
      collectList entry assetList = [] ->
      let w' := changeList (arrayCreate earlier) id entry assetList w in
      getState (vars w') = Some (getDefaultState (vars w))
      /\ method w' = Some Defaults
      /\ createCalls w' = createCalls w).
Proof.
  split_and!; try done.
  - intros provided next events w Hs Hl.
    destruct (arrayAssign_first_empty w (array_alive false _ _ _ Hs))
      as [H1 H2].
    by split; [apply H2|].
  - intros provided next events w Hs.
    exact (arrayAssign_later_empty w (array_alive true _ _ _ Hs)).
  - intros earlier w assetList Ht Hnone w'. subst w'.
    destruct (changeList_tracked (arrayCreate earlier) id entry assetList w Ht)
      as (_ & H2 & H3 & H4).
    rewrite H2, H3, H4, Hnone. by rewrite app_nil_r.
Qed.

End ArrayClaims.

(** ** The dynamic definer: what is not computed again *)

Section DynamicCallsProps.

Import Asset Dynamic.

Context {TAsset TState TValue : Type}.
Variable create : option (list TAsset -> TState).
Variable byDefault : option TState.
Variable access : option (Getter TState TValue).
Variable cxRecent_access : Getter TState TValue.
Variable asState : list TAsset -> TState.
Variable methodValue : CxRequestMethod -> Z.
Variable entry : Ref.

Local Abbreviation World := (World TAsset TState).
Local Abbreviation step :=
  (step create byDefault access cxRecent_access asState methodValue entry).
Local Abbreviation run :=
  (run create byDefault access cxRecent_access asState methodValue entry).
Local Abbreviation assignBy :=
  (assignBy create byDefault access cxRecent_access asState methodValue entry).
Local Abbreviation callGetAssign :=
  (callGetAssign create byDefault asState entry).

Lemma step_dead_calls (reason : option Ref) (e : Event TAsset) (w : World) :
  dead reason w ->
  createCalls (snd (step e w)) = createCalls w
  /\ byDefaultCalls (snd (step e w)) = byDefaultCalls w
  /\ defaultStateCache (snd (step e w)) = defaultStateCache w.
Proof.
  intros (Hv & Ht & Hs).
  destruct e as [asset|s|r| |]; simpl.
  - unfold Dynamic.provide. by rewrite Hs.
  - unfold Dynamic.revoke, Dynamic.changeList. simpl. by rewrite Ht.
  - unfold off. by rewrite Hs.
  - unfold assign, Dynamic.assignBy, bind, Dynamic.callGetAssign.
    rewrite Hv. simpl. done.
  - unfold assignDefault, Dynamic.assignBy, bind, Dynamic.callGetAssign.
    rewrite Hv. simpl. done.
Qed.

Lemma run_dead_calls (reason : option Ref) (events : list (Event TAsset)) :
  forall w : World,
    dead reason w ->
    createCalls (snd (run events w)) = createCalls w
    /\ byDefaultCalls (snd (run events w)) = byDefaultCalls w
    /\ defaultStateCache (snd (run events w)) = defaultStateCache w.
Proof.
  induction events as [|e events IH]; intros w Hw; simpl; [done|].
  destruct (step_dead create byDefault access cxRecent_access asState
              methodValue entry reason e w Hw) as [Hw1 _].
  destruct (step_dead_calls reason e w Hw) as (H1 & H2 & H3).
  destruct (step e w) as [r w1]. simpl in *.
  destruct (IH w1 Hw1) as (G1 & G2 & G3).
  destruct (run events w1) as [rs w2]. simpl in *.
  by rewrite G1, G2, G3.
Qed.

(** X16: once [target.supply] is cut off nothing is computed any more:
    whatever is provided, revoked or accessed afterwards, [create] and
    [byDefault] are not called again, and the cached default state stays
    what it was. *)
Theorem cxDynamic_no_calls_after_off (w : World) (reason : option Ref)
  (events : list (Event TAsset)) :
  supplyOff w = None ->
  let w' := snd (run events (off reason w)) in
  createCalls w' = createCalls w
  /\ byDefaultCalls w' = byDefaultCalls w
  /\ defaultStateCache w' = defaultStateCache w.
Proof.
  intros Hs w'.
  pose proof (off_dead reason w Hs) as Hdead.
  destruct (run_dead_calls reason events (off reason w) Hdead)
    as (H1 & H2 & H3).
  subst w'. rewrite H1, H2, H3. unfold off. by rewrite Hs.
Qed.

Lemma callStateGetter_createCalls (c : list (list TAsset)) (g : StateGetter) :
  preserves (fun w : World => createCalls w = c /\ is_Some (assignCache w))
    (callStateGetter asState entry g).
Proof.
  intros w H. destruct g as [result| |state|r]; simpl; try done.
  unfold targetLazy. by destruct (defaultStateCache w).
Qed.

Lemma callGetAssign_createCalls (c : list (list TAsset)) :
  preserves (fun w : World => createCalls w = c /\ is_Some (assignCache w))
    callGetAssign.
Proof.
  intros w [H1 [a H2]]. unfold Dynamic.callGetAssign.
  destruct (getAssign (vars w)); [|by split; [|eexists]].
  unfold targetLazy. rewrite H2. simpl. by split; [|eexists].
Qed.

(** One access: with the cache of [getAssign] filled it calls [create]
    not; with the cache empty it fills it, starts the tracking and calls
    [create] for the assets provided, when there are any. *)
Lemma assignBy_createCalls (isDefault : bool) (w : World) :
  (is_Some (assignCache w) ->
   createCalls (snd (assignBy isDefault w)) = createCalls w
   /\ is_Some (assignCache (snd (assignBy isDefault w))))
  /\ (assignCache w = None -> getAssign (vars w) = lazyAssign ->
      createCalls (snd (assignBy isDefault w))
      = createCalls w
        ++ match collectList entry (providedList w) with
           | [] => []
           | assets => [assets]
           end
      /\ tracking (snd (assignBy isDefault w)) = true
      /\ is_Some (assignCache (snd (assignBy isDefault w)))).
Proof.
  split.
  - intros Hc.
    exact (assignBy_kept create byDefault access cxRecent_access asState
             methodValue entry
             (fun w' : World => createCalls w' = createCalls w
                                /\ is_Some (assignCache w'))
             (callStateGetter_createCalls (createCalls w))
             (callGetAssign_createCalls (createCalls w))
             isDefault w (conj eq_refl Hc)).
  - intros Hc Hg.
    set (P := fun w' : World =>
                (createCalls w'
                 = createCalls w
                   ++ match collectList entry (providedList w) with
                      | [] => []
                      | assets => [assets]
                      end
                 /\ is_Some (assignCache w'))
                /\ tracking w' = true).
    assert (HP : P (snd (assignBy isDefault w))).
    { unfold Dynamic.assignBy.
      assert (H1 : exists a w1, callGetAssign w = (Ok a, w1) /\ P w1).
      { unfold Dynamic.callGetAssign. rewrite Hg. unfold targetLazy.
        rewrite Hc.
        unfold initAssign, bind, trackAssetList, ret, storeAssign. simpl.
        eexists _, _. split; [reflexivity|]. unfold P. simpl.
        unfold Dynamic.receiveList. simpl.
        destruct (collectList entry (providedList w)); simpl;
          rewrite ?app_nil_r; by split_and!. }
      destruct H1 as (a & w1 & Hg1 & H1).
      unfold bind at 1. rewrite Hg1.
      assert (Hstate : forall g, preserves P (callStateGetter asState entry g)).
      { intros g w2 [H2 H3]. split.
        - by apply callStateGetter_createCalls.
        - destruct g as [result| |state|r]; simpl; try done.
          unfold targetLazy. by destruct (defaultStateCache w2). }
      assert (Hvalue : forall g,
                 preserves P
                   (callValueGetter access cxRecent_access asState entry g)).
      { intros g. destruct g; simpl.
        - apply runGetter_preserves. intros w2 H2. by apply Hstate.
        - apply runGetter_preserves. intros w2 H2. unfold callGetState.
          destruct (getState (vars w2)); [by apply Hstate|done].
        - apply preserves_throw. }
      revert H1. generalize w1.
      change (preserves P
                (match a with
                 | assignWithDefault =>
                     if isDefault
                     then (value <~ callGetDefaultValue access cxRecent_access
                                      asState entry ;;
                           ret (Some (value, None)))%js
                     else (value <~ callGetValue access cxRecent_access
                                      asState entry ;;
                           m <~ read method ;; ret (Some (value, m)))%js
                 | assignWithoutDefault =>
                     if isDefault then ret None
                     else (m <~ read method ;;
                           if methodPositive methodValue m
                           then (value <~ callGetValue access cxRecent_access
                                            asState entry ;;
                                 m0 <~ read method ;; ret (Some (value, m0)))
                           else ret None)%js
                 end)).
      destruct a; destruct isDefault.
      - apply preserves_bind; [|intros; apply preserves_ret].
        intros w2 H2. by apply Hvalue.
      - apply preserves_bind.
        { intros w2 H2. by apply Hvalue. }
        intros v. apply preserves_bind; [apply preserves_read|].
        intros; apply preserves_ret.
      - apply preserves_ret.
      - apply preserves_bind; [apply preserves_read|]. intros m.
        destruct (methodPositive methodValue m); [|apply preserves_ret].
        apply preserves_bind.
        { intros w2 H2. by apply Hvalue. }
        intros v. apply preserves_bind; [apply preserves_read|].
        intros; apply preserves_ret. }
    destruct HP as [[H1 H3] H2]. by split_and!.
Qed.

Lemma accesses_createCalls (events : list (Event TAsset)) :
  forall w : World,
    Forall (fun e => isAccess e = true) events ->
    is_Some (assignCache w) ->
    createCalls (snd (run events w)) = createCalls w
    /\ is_Some (assignCache (snd (run events w))).
Proof.
  induction events as [|e events IH]; intros w Hall Hc; simpl; [done|].
  apply Forall_cons in Hall as [He Hall].
  assert (H1 : createCalls (snd (step e w)) = createCalls w
               /\ is_Some (assignCache (snd (step e w)))).
  { destruct e; try done; simpl.
    - by apply (assignBy_createCalls false w).
    - by apply (assignBy_createCalls true w). }
  destruct (step e w) as [r w1]. simpl in H1. destruct H1 as [H1 H2].
  destruct (IH w1 Hall H2) as [H3 H4].
  destruct (run events w1) as [rs w2]. simpl in *. by rewrite H3.
Qed.

(** X17: accesses do not compute the state again. On a definition not yet
    accessed whose [target.supply] is not cut off, the first access, to
    the value or to the default, starts the tracking, fills the cache of
    [getAssign] and calls [create] once, with all the assets provided,
    when there is at least one, and not otherwise. With the cache filled
    no access calls [create]: any sequence of accesses, failing or not,
    calls [create] as its first access alone does. On a definition whose
    [target.supply] was cut off an access fails and changes nothing. *)
Theorem cxDynamic_access_creates_nothing (w : World) :
  let once :=
    match collectList entry (providedList w) with
    | [] => []
    | assets => [assets]
    end in
  (forall isDefault,
      assignCache w = None -> getAssign (vars w) = lazyAssign ->
      let w1 := snd (assignBy isDefault w) in
      createCalls w1 = createCalls w ++ once
      /\ tracking w1 = true
      /\ is_Some (assignCache w1))
  /\ (forall events,
      Forall (fun e => isAccess e = true) events ->
      is_Some (assignCache w) ->
      createCalls (snd (run events w)) = createCalls w
      /\ is_Some (assignCache (snd (run events w))))
  /\ (forall e events,
      Forall (fun e => isAccess e = true) (e :: events) ->
      assignCache w = None -> getAssign (vars w) = lazyAssign ->
      createCalls (snd (run (e :: events) w)) = createCalls w ++ once)
  /\ (forall isDefault reason,
      getAssign (vars w) = unavailableAssign reason ->
      assignBy isDefault w = (Throw (unavailableFailure entry reason), w)).
Proof.
  intros once. split_and!.
  - intros isDefault Hc Hg w1.
    exact (proj2 (assignBy_createCalls isDefault w) Hc Hg).
  - intros events. apply accesses_createCalls.
  - intros e events Hall Hc Hg.
    apply Forall_cons in Hall as [He Hall].
    assert (H1 : createCalls (snd (step e w)) = createCalls w ++ once
                 /\ is_Some (assignCache (snd (step e w)))).
    { destruct e; try done; simpl.
      - destruct (proj2 (assignBy_createCalls false w) Hc Hg)
          as (H1 & _ & H2).
        by split.
      - destruct (proj2 (assignBy_createCalls true w) Hc Hg)
          as (H1 & _ & H2).
        by split. }
    simpl. destruct (step e w) as [r w1]. simpl in H1.
    destruct H1 as [H1 H2].
    destruct (accesses_createCalls events w1 Hall H2) as [H3 _].
    destruct (run events w1) as [rs w2]. simpl in *. by rewrite H3.
  - intros isDefault reason Hg.
    unfold Dynamic.assignBy, bind, Dynamic.callGetAssign. by rewrite Hg.
Qed.

End DynamicCallsProps.

(** ** The single-valued definer: [get] and [getDefault] over time *)

Section SingleCallsProps.

Import Asset Single SingleCalls.

Context {V : Type}.

Lemma lastPresent_scan (l : list (Evaluator V)) :
  forall rest value w,
    lastPresent (l ++ rest) (length l) value w
    = (Ok (fst (scan (rev l) value)), logCalls (snd (scan (rev l) value)) w).
Proof.
  induction l as [|x l IH] using rev_ind; intros rest value w.
  - simpl. by rewrite logCalls_nil.
  - rewrite length_app, rev_app_distr. simpl. rewrite Nat.add_1_r.
    cbn [lastPresent].
    rewrite <- app_assoc. simpl.
    rewrite list_lookup_middle by done.
    unfold bind at 1, invoke at 1.
    destruct (isPresent (evaluate x)) eqn:Hx; [reflexivity|].
    rewrite (IH (x :: rest) (evaluate x)).
    destruct (scan (rev l) (evaluate x)) as [v cs]. simpl.
    unfold logCalls. simpl. by rewrite <- app_assoc.
Qed.

Lemma evaluateSingle_scan (target : Target (Evaluator V)) (w : Scope V) :
  evaluateSingle target w
  = (Ok (singleValue target), logCalls (singleCalls target) w).
Proof.
  unfold evaluateSingle, singleValue, singleCalls.
  pose proof (lastPresent_scan (collectAssets target) [] undefined w) as H.
  by rewrite app_nil_r in H.
Qed.

Lemma scan_evaluators (reversed : list (Evaluator V)) : forall value,
  evaluatorPart (snd (scan reversed value)) = snd (scan reversed value)
  /\ defaultPart (snd (scan reversed value)) = [].
Proof.
  induction reversed as [|x l IH]; intros value; simpl; [done|].
  destruct (isPresent (evaluate x)); [done|].
  destruct (IH (evaluate x)) as [H1 H2].
  destruct (scan l (evaluate x)) as [v cs]. simpl in *.
  unfold evaluatorPart, defaultPart in *.
  rewrite filter_cons_True by done. rewrite filter_cons_False by done.
  by rewrite H1, H2.
Qed.

Lemma callMethod_scopeAfter (byDefault : option (Nullable V))
  (target : Target (Evaluator V)) (m : Method) (g d : bool) (w : Scope V) :
  scopeAfter byDefault target g d w ->
  fst (callMethod (cxSingle byDefault target) m w)
  = Ok (match m with
        | methodGet => singleValue target
        | methodGetDefault => defaultValue byDefault
        end)
  /\ scopeAfter byDefault target
       (g || mentions methodGet [m]) (d || mentions methodGetDefault [m])
       (snd (callMethod (cxSingle byDefault target) m w)).
Proof.
  intros (Hg & Hd & He & Hb).
  destruct (scan_evaluators (rev (collectAssets target)) undefined)
    as [Hs1 Hs2].
  fold (singleCalls target) in Hs1, Hs2.
  destruct m; simpl.
  - unfold lazyValue. rewrite Hg. destruct g; simpl.
    + rewrite !orb_false_r. by split_and!.
    + rewrite evaluateSingle_scan. simpl. rewrite orb_false_r.
      unfold scopeAfter, evaluatorPart, defaultPart in *. simpl.
      rewrite !filter_app, He, Hb, Hs1, Hs2, app_nil_r. by split_and!.
  - destruct byDefault as [result|]; simpl.
    + unfold lazyValue. rewrite Hd. destruct d; simpl.
      * rewrite !orb_false_r. by split_and!.
      * rewrite orb_false_r.
        unfold scopeAfter, evaluatorPart, defaultPart in *. simpl.
        rewrite !filter_app, He, Hb.
        rewrite filter_cons_False, filter_cons_True by done.
        rewrite !filter_nil, app_nil_r. by split_and!.
    + rewrite !orb_false_r. split; [done|].
      unfold scopeAfter. by destruct d.
Qed.

Lemma callAll_scopeAfter (byDefault : option (Nullable V))
  (target : Target (Evaluator V)) (ms : list Method) :
  forall (g d : bool) (w : Scope V),
    scopeAfter byDefault target g d w ->
    fst (callAll (cxSingle byDefault target) ms w)
    = map (fun m => Ok (match m with
                        | methodGet => singleValue target
                        | methodGetDefault => defaultValue byDefault
                        end)) ms
    /\ scopeAfter byDefault target
         (g || mentions methodGet ms) (d || mentions methodGetDefault ms)
         (snd (callAll (cxSingle byDefault target) ms w)).
Proof.
  induction ms as [|m ms IH]; intros g d w Hw.
  - simpl. by rewrite !orb_false_r.
  - cbn [callAll].
    destruct (callMethod_scopeAfter byDefault target m g d w Hw) as [H1 H2].
    destruct (callMethod (cxSingle byDefault target) m w) as [r w1].
    simpl fst in H1. simpl snd in H2. subst r.
    destruct (IH _ _ w1 H2) as [H3 H4].
    destruct (callAll (cxSingle byDefault target) ms w1) as [rs w2].
    simpl in H3, H4 |- *. subst rs. split; [done|].
    destruct m; simpl in *; by rewrite ?orb_false_r, ?orb_true_r in *.
Qed.

(** X13: the two methods of a [cxSingle] definition keep their results
    apart. Whatever calls of [get] and [getDefault] a scope makes, in
    whatever order: every [get] returns the value of the first one, every
    [getDefault] returns what [byDefault] returned ([undefined] without
    one), none fails; the evaluators are called by the first [get] only
    and [byDefault] by the first [getDefault] only, so [byDefault] is
    called at most once, and not at all while only [get] is called. *)
Theorem cxSingle_get_and_default_once (byDefault : option (Nullable V))
  (target : Target (Evaluator V)) (ms : list Method) :
  let '(results, w) := callAll (cxSingle byDefault target) ms freshScope in
  results
  = map (fun m => Ok (match m with
                      | methodGet => singleValue target
                      | methodGetDefault => defaultValue byDefault
                      end)) ms
  /\ evaluatorPart (calls w)
     = (if mentions methodGet ms then singleCalls target else [])
  /\ defaultPart (calls w)
     = match byDefault with
       | Some _ =>
           if mentions methodGetDefault ms then [callByDefault] else []
       | None => []
       end.
Proof.
  assert (H0 : scopeAfter byDefault target false false freshScope).
  { unfold scopeAfter. simpl. by destruct byDefault. }
  destruct (callAll_scopeAfter byDefault target ms false false freshScope H0)
    as [H1 (_ & _ & H2 & H3)].
  destruct (callAll (cxSingle byDefault target) ms freshScope) as [rs w].
  simpl in *. done.
Qed.

End SingleCallsProps.

(** ** Concrete runs *)

(** A run of [remove_registered_once]: the provider [2] between [1] and
    [3]. *)
Lemma remove_registered_once_witness :
  Iterative.remove (Iterative.newRemover 2) (Iterative.newSeeder [1; 2; 3])
  = Iterative.newSeeder [1; 3]
  /\ Iterative.remove (Iterative.newRemover 2)
       (Iterative.remove (Iterative.newRemover 2)
          (Iterative.newSeeder [1; 2; 3]))
     = Iterative.newSeeder [1; 3].
Proof.
  apply (remove_registered_once 2 [1] [3]).
  - by intros ?%list_elem_of_singleton.
  - by intros ?%list_elem_of_singleton.
Defined.

(** A run of C3: an array-valued definition that held the assets [[1]] is
    cut off with the reason [99]; both accesses fail with it. *)
Lemma cxDynamic_unavailable_after_off_witness :
  let w :=
    snd (Dynamic.arrayRun Dynamic.methodOrdinal 7 false
           [Dynamic.doProvide (Asset.cxConstAsset 7 (present 1) None);
            Dynamic.doAssign]
           (Dynamic.arrayPerContext false [] 0 None)) in
  Forall2
    (fun (e : Dynamic.Event nat) r =>
       Dynamic.isAccess e = true ->
       r = Throw (Dynamic.unavailableFailure 7 (Some 99)))
    [Dynamic.doAssign; Dynamic.doAssignDefault]
    (fst (Dynamic.arrayRun Dynamic.methodOrdinal 7 false
            [Dynamic.doAssign; Dynamic.doAssignDefault]
            (Dynamic.off (Some 99) w))).
Proof.
  exact (proj1 (proj2
    (cxDynamic_unavailable_after_off (TValue:=list nat) None None None
       Dynamic.cxRecent_access id Dynamic.methodOrdinal 7
       (snd (Dynamic.arrayRun Dynamic.methodOrdinal 7 false
               [Dynamic.doProvide (Asset.cxConstAsset 7 (present 1) None);
                Dynamic.doAssign]
               (Dynamic.arrayPerContext false [] 0 None)))
       (Some 99) [Dynamic.doAssign; Dynamic.doAssignDefault] eq_refl))).
Defined.

(** A run of C4: the state is the number of assets. A tracked list with
    the asset [1] gets the asset [2]; the user's [create] is called with
    both and the state kept is [2]. *)
Lemma cxDynamic_create_each_change_default_once_witness :
  let create := Some (fun assets : list nat => length assets) in
  let w :=
    snd (Dynamic.run (TValue:=nat) create None None Dynamic.cxRecent_access
           (fun _ => 0) Dynamic.methodOrdinal 7
           [Dynamic.doProvide (Asset.cxConstAsset 7 (present 1) None);
            Dynamic.doAssign]
           (Dynamic.perContext create None [] 0 None)) in
  let w' :=
    Dynamic.provide create (fun _ => 0) 7
      (Asset.cxConstAsset 7 (present 2) None) w in
  Dynamic.createCalls w' = [[1]; [1; 2]]
  /\ Dynamic.getState (Dynamic.vars w') = Some (Dynamic.constState 2).
Proof.
  destruct (proj1
    (cxDynamic_create_each_change_default_once (TValue:=nat)
       (Some (fun assets : list nat => length assets)) None None
       Dynamic.cxRecent_access (fun _ => 0) Dynamic.methodOrdinal 7)
    (snd (Dynamic.run (TValue:=nat)
            (Some (fun assets : list nat => length assets)) None None
            Dynamic.cxRecent_access (fun _ => 0) Dynamic.methodOrdinal 7
            [Dynamic.doProvide (Asset.cxConstAsset 7 (present 1) None);
             Dynamic.doAssign]
            (Dynamic.perContext
               (Some (fun assets : list nat => length assets)) None
               [] 0 None)))
    (Asset.cxConstAsset 7 (present 2) None) eq_refl eq_refl eq_refl)
    as (_ & H2 & H3).
  split; [exact H2|]. by apply H3.
Defined.

(** A run of C5: [1], [null], [3], on the first target of the definer
    and on a later one. *)
Lemma multi_collects_in_order_witness :
  let provisions :=
    [Dynamic.doProvide (Asset.cxConstAsset 7 (present 1) None);
     Dynamic.doProvide (Asset.cxConstAsset 7 null None);
     Dynamic.doProvide (Asset.cxConstAsset 7 (present 3) None);
     Dynamic.doAssign] in
  last (fst (Dynamic.arrayRun Dynamic.methodOrdinal 7 false provisions
               (Dynamic.arrayPerContext false [] 0 None)))
  = Some (Ok (Some ([1; 3], Some Dynamic.Assets)))
  /\ last (fst (Dynamic.arrayRun Dynamic.methodOrdinal 7 true provisions
                  (Dynamic.arrayPerContext true [] 0 None)))
     = Some (Ok (Some ([1; 3], Some Dynamic.Assets))).
Proof.
  split.
  - exact (proj1 (proj1 (proj2 (proj2
      (multi_collects_in_order (TElement:=nat) Dynamic.methodOrdinal 7)))
      false 1 3 null eq_refl (or_introl eq_refl))).
  - exact (proj1 (proj1 (proj2 (proj2
      (multi_collects_in_order (TElement:=nat) Dynamic.methodOrdinal 7)))
      true 1 3 null eq_refl (or_intror eq_refl))).
Defined.

(** C9 at the failing input: [cxDynamic()] applied to a second target.
    With no asset provided neither access calls the assigner, where the
    first target gets the empty array. *)
Lemma cxDynamic_second_target_without_default :
  fst (Dynamic.arrayAssign Dynamic.methodOrdinal 7 true
         (Dynamic.arrayPerContext (TElement:=nat) true [] 0 None))
  = Ok None
  /\ fst (Dynamic.arrayAssignDefault Dynamic.methodOrdinal 7 true
            (Dynamic.arrayPerContext (TElement:=nat) true [] 0 None))
     = Ok None
  /\ fst (Dynamic.arrayAssign Dynamic.methodOrdinal 7 false
            (Dynamic.arrayPerContext (TElement:=nat) false [] 0 None))
     = Ok (Some ([], Some Dynamic.Defaults))
  /\ fst (Dynamic.arrayAssignDefault Dynamic.methodOrdinal 7 false
            (Dynamic.arrayPerContext (TElement:=nat) false [] 0 None))
     = Ok (Some ([], None)).
Proof. by split_and!. Qed.

(** A run of C10: the placement of [cxConstAsset(entry, null)] leaves a
    counting collector at zero. *)
Lemma cxConstAsset_nothing_places_nothing_witness :
  Asset.placeAsset (Asset.cxConstAsset (A:=nat) 7 null None) 7 nat
    (fun _ calls => (None, S calls)) 0
  = 0.
Proof.
  exact (proj1 (proj2
    (cxConstAsset_nothing_places_nothing (A:=nat) 7 null None eq_refl)) 7).
Defined.

(** A run of C6: a key with the default [5], asked with [{ or: null }]. *)
Lemma SingleContextUpKey_rejects_null_fallback_witness :
  UpKey.readValue
    (UpKey.grow (fun _ : nat => true) (UpKey.newKey 3 (present 5))
       (UpKey.newSlot [] true null None))
  = Throw (ContextKeyError 3).
Proof.
  exact (proj1 (proj1
    (SingleContextUpKey_rejects_null_fallback (fun _ : nat => true)
       (UpKey.newKey 3 (present 5)) (UpKey.newSlot [] true null None)
       eq_refl eq_refl)
    eq_refl)).
Defined.

(** A run of [seed_initial_then_providers]: the providers [1], [2] and
    [4], of which the even ones return themselves, after the initial
    source [7]. *)
Lemma seed_initial_then_providers_witness :
  let providerFn (p : Ref) (_ : unit) :=
    if Nat.even p then present p else null in
  let made :=
    Seeding.seed (Iterative.newSeeder [1; 2; 4]) tt (Seeding.overArray [7])
      (Seeding.newHeap [] []) in
  Seeding.contents providerFn (snd made) (fst made) = [7; 2; 4].
Proof.
  exact (proj1
    (seed_initial_then_providers
       (fun (p : Ref) (_ : unit) => if Nat.even p then present p else null)
       (Iterative.newSeeder [1; 2; 4]) tt (Seeding.overArray [7])
       (Seeding.newHeap [] []) I)).
Defined.

(** A run of [cxDynamic_idle_before_first_access]: an asset is provided
    and revoked and the supply cut off, without any access. *)
Lemma cxDynamic_idle_before_first_access_witness :
  let w :=
    snd (Dynamic.run (TValue:=nat) (Some (fun assets : list nat => length assets))
           (Some 9) None Dynamic.cxRecent_access (fun _ => 0)
           Dynamic.methodOrdinal 7
           [Dynamic.doProvide (Asset.cxConstAsset 7 (present 5) None);
            Dynamic.doRevoke 0; Dynamic.doOff None]
           (Dynamic.perContext (Some (fun assets : list nat => length assets))
              (Some 9) [] 0 None)) in
  Dynamic.tracking w = false
  /\ Dynamic.method w = None
  /\ Dynamic.createCalls w = []
  /\ Dynamic.byDefaultCalls w = 0.
Proof.
  apply (cxDynamic_idle_before_first_access (TValue:=nat)
           (Some (fun assets : list nat => length assets)) (Some 9) None
           Dynamic.cxRecent_access (fun _ => 0) Dynamic.methodOrdinal 7
           [] 0 None
           [Dynamic.doProvide (Asset.cxConstAsset 7 (present 5) None);
            Dynamic.doRevoke 0; Dynamic.doOff None]).
  repeat constructor.
Defined.

(** A run of [cxDynamic_value_of_current_assets]: the state is the number
    of assets and the value its double; a second asset is provided after
    the first access. *)
Lemma cxDynamic_value_of_current_assets_witness :
  let create := Some (fun assets : list nat => length assets) in
  let access := Some (Dynamic.ask (fun state => Dynamic.yield (2 * state))) in
  let w :=
    snd (Dynamic.run create None access Dynamic.cxRecent_access (fun _ => 0)
           Dynamic.methodOrdinal 7
           [Dynamic.doProvide (Asset.cxConstAsset 7 (present 5) None);
            Dynamic.doAssign;
            Dynamic.doProvide (Asset.cxConstAsset 7 (present 6) None)]
           (Dynamic.perContext create None [] 0 None)) in
  fst (Dynamic.assign create None access Dynamic.cxRecent_access (fun _ => 0)
         Dynamic.methodOrdinal 7 w)
  = Ok (Some (4, Some Dynamic.Assets)).
Proof.
  apply (cxDynamic_value_of_current_assets
           (Some (fun assets : list nat => length assets)) None
           (Some (Dynamic.ask (fun state => Dynamic.yield (2 * state))))
           Dynamic.cxRecent_access (fun _ => 0) Dynamic.methodOrdinal 7
           [] 0
           [Dynamic.doProvide (Asset.cxConstAsset 7 (present 5) None);
            Dynamic.doAssign;
            Dynamic.doProvide (Asset.cxConstAsset 7 (present 6) None)]
           5 [6]).
  - reflexivity.
  - reflexivity.
  - right. reflexivity.
Defined.

(** A run of [cxDynamic_default_value]: a later target of a definer with
    [create] and the default state [9]; the only asset is revoked. *)
Lemma cxDynamic_default_value_witness :
  let create := Some (fun assets : list nat => length assets) in
  let access := Some (Dynamic.ask (fun state => Dynamic.yield (2 * state))) in
  let w :=
    snd (Dynamic.run create (Some 9) access Dynamic.cxRecent_access
           (fun _ => 0) Dynamic.methodOrdinal 7
           [Dynamic.doProvide (Asset.cxConstAsset 7 (present 5) None);
            Dynamic.doAssign; Dynamic.doRevoke 0]
           (Dynamic.perContext create (Some 9) [] 0 None)) in
  fst (Dynamic.assignDefault create (Some 9) access Dynamic.cxRecent_access
         (fun _ => 0) Dynamic.methodOrdinal 7 w)
  = Ok (Some (18, None))
  /\ fst (Dynamic.assign create (Some 9) access Dynamic.cxRecent_access
            (fun _ => 0) Dynamic.methodOrdinal 7 w)
     = Ok (Some (18, Some Dynamic.Defaults)).
Proof.
  destruct (cxDynamic_default_value
              (Some (fun assets : list nat => length assets)) (Some 9)
              (Some (Dynamic.ask (fun state => Dynamic.yield (2 * state))))
              Dynamic.cxRecent_access (fun _ => 0) Dynamic.methodOrdinal 7
              true [] 0
              [Dynamic.doProvide (Asset.cxConstAsset 7 (present 5) None);
               Dynamic.doAssign; Dynamic.doRevoke 0]
              (or_introl (ex_intro _ 9 eq_refl)) eq_refl) as [H1 H2].
  split; [exact H1|exact (H2 eq_refl)].
Defined.

(** A run of [cxDynamic_without_default]: [create] without [byDefault],
    the only asset revoked. *)
Lemma cxDynamic_without_default_witness :
  let create := Some (fun assets : list nat => length assets) in
  let access := Some (Dynamic.ask (fun state => Dynamic.yield (2 * state))) in
  let w :=
    snd (Dynamic.run create None access Dynamic.cxRecent_access
           (fun _ => 0) Dynamic.methodOrdinal 7
           [Dynamic.doProvide (Asset.cxConstAsset 7 (present 5) None);
            Dynamic.doAssign; Dynamic.doRevoke 0]
           (Dynamic.perContext create None [] 0 None)) in
  fst (Dynamic.assignDefault create None access Dynamic.cxRecent_access
         (fun _ => 0) Dynamic.methodOrdinal 7 w)
  = Ok None
  /\ fst (Dynamic.assign create None access Dynamic.cxRecent_access
            (fun _ => 0) Dynamic.methodOrdinal 7 w)
     = Ok None.
Proof.
  destruct (cxDynamic_without_default
              (Some (fun assets : list nat => length assets)) None
              (Some (Dynamic.ask (fun state => Dynamic.yield (2 * state))))
              Dynamic.cxRecent_access (fun _ => 0) Dynamic.methodOrdinal 7
              [] 0
              [Dynamic.doProvide (Asset.cxConstAsset 7 (present 5) None);
               Dynamic.doAssign; Dynamic.doRevoke 0]
              eq_refl eq_refl (Z.le_refl 0)) as [H1 H2].
  split; [exact H1|exact (H2 eq_refl)].
Defined.

(** A run of [cxDynamic_no_calls_after_off]: a definition that called
    [create] for one asset is cut off; an asset provided afterwards and two
    accesses call nothing. *)
Lemma cxDynamic_no_calls_after_off_witness :
  let create := Some (fun assets : list nat => length assets) in
  let w :=
    snd (Dynamic.run (TValue:=nat) create (Some 9) None Dynamic.cxRecent_access
           (fun _ => 0) Dynamic.methodOrdinal 7
           [Dynamic.doProvide (Asset.cxConstAsset 7 (present 5) None);
            Dynamic.doAssign]
           (Dynamic.perContext create (Some 9) [] 0 None)) in
  let w' :=
    snd (Dynamic.run (TValue:=nat) create (Some 9) None Dynamic.cxRecent_access
           (fun _ => 0) Dynamic.methodOrdinal 7
           [Dynamic.doProvide (Asset.cxConstAsset 7 (present 6) None);
            Dynamic.doAssign; Dynamic.doAssignDefault]
           (Dynamic.off (Some 99) w)) in
  Dynamic.createCalls w' = [[5]]
  /\ Dynamic.byDefaultCalls w' = 0
  /\ Dynamic.defaultStateCache w' = None.
Proof.
  exact (cxDynamic_no_calls_after_off (TValue:=nat)
           (Some (fun assets : list nat => length assets)) (Some 9) None
           Dynamic.cxRecent_access (fun _ => 0) Dynamic.methodOrdinal 7
           (snd (Dynamic.run (TValue:=nat)
                   (Some (fun assets : list nat => length assets)) (Some 9)
                   None Dynamic.cxRecent_access (fun _ => 0)
                   Dynamic.methodOrdinal 7
                   [Dynamic.doProvide (Asset.cxConstAsset 7 (present 5) None);
                    Dynamic.doAssign]
                   (Dynamic.perContext
                      (Some (fun assets : list nat => length assets)) (Some 9)
                      [] 0 None)))
           (Some 99)
           [Dynamic.doProvide (Asset.cxConstAsset 7 (present 6) None);
            Dynamic.doAssign; Dynamic.doAssignDefault]
           eq_refl).
Defined.
